(** * Heart Trooper shooter: a shallow embedding of the game core

    The development follows [src/components/Game.tsx] (the React component
    that owns the loop, the spawner and the level progression) and the
    entity classes under [src/game] (Enemy, Bullet, Player, PowerUp,
    Particle, ExplosionGIF, Star, AudioManager).

    Conventions of the embedding.
    - A JavaScript [number] that only ever holds an integer (level, score,
      health, wave index, millisecond clock values, timer handles) is a [Z];
      every other [number] is an exact rational [Q].  Rounding of IEEE
      doubles is not modelled.
    - [Math.random()] is read from an oracle [random : nat -> Q] through a
      cursor kept in the state; [Math.sin], [Math.cos], [Math.sqrt] and
      [Math.PI] are parameters.  [Date.now()] is the argument [now] of the
      callback being run.
    - Arrays are lists; [a.splice(i, 1)] is [delete i a], an in-place change
      of [a[i]] is [<[i := v]> a], [a.push(v)] is [a ++ [v]].
    - Drawing and the DOM element of an explosion have no influence on the
      simulation state and are left out.  The audio manager, the star field
      and the touch and resize handlers are embedded on their own, after the
      component: the state of the component does not depend on them, and
      their draws from the oracle use a cursor of their own. *)

From Stdlib Require Import ZArith QArith Qround Qminmax Qabs Lia Lqa Bool String.
From stdpp Require Import base list strings gmap.

Local Open Scope Z_scope.
Local Open Scope Q_scope.

(** ** JavaScript comparisons on rationals *)

(** [a < b] as evaluated by the program. *)
Definition Qltb (a b : Q) : bool := negb (Qle_bool b a).

(** [a > b]. *)
Definition Qgtb (a b : Q) : bool := Qltb b a.

(** [a <= b] and [a >= b]. *)
Definition Qleb (a b : Q) : bool := Qle_bool a b.
Definition Qgeb (a b : Q) : bool := Qle_bool b a.

(** ** Constants of Game.tsx *)

Definition GAME_WIDTH : Q := 800.
Definition GAME_HEIGHT : Q := 600.
Definition INITIAL_HEALTH : Z := 3.

(** ** Difficulty configuration *)

Module Difficulty.

Record DifficultyConfig := mkConfig {
  baseEnemiesPerWave : Z;
  maxWaves : Z;
  waveDelay : Z;
  enemyHealthMultiplier : Z;
  enemySpeedMultiplier : Q;
  shooterProbability : Q;
  tankProbability : Q;
  fastProbability : Q;
  bulletSpeedMultiplier : Q;
  spreadShotLevel : Z;
  fireRateMultiplier : Q;
  powerUpChance : Q;
  divingEnemies : bool;
  enemiesShootAngled : bool;
  formationComplexity : Z
}.

(** [getDifficultyConfig], Game.tsx lines 71-98. *)
Definition getDifficultyConfig (level : Z) : DifficultyConfig := {|
  baseEnemiesPerWave :=
    if (level =? 1)%Z then 5%Z
    else Z.min 15 (5 + Qfloor (inject_Z level * 1.2));
  maxWaves := Z.min 6 (1 + Qfloor (inject_Z level / 1.5));
  waveDelay := Z.max 2000 (5000 - (level - 1) * 300);
  enemyHealthMultiplier := Z.min 3 (1 + Qfloor (inject_Z level / 3));
  enemySpeedMultiplier := 1 + (inject_Z level - 1) * 0.08;
  shooterProbability :=
    Qmin 0.4 (if (level =? 1)%Z then 0.0 else 0.05 + (inject_Z level - 1) * 0.05);
  tankProbability :=
    Qmin 0.3 (if (level <=? 2)%Z then 0.0 else 0.05 + (inject_Z level - 2) * 0.05);
  fastProbability :=
    Qmin 0.3 (if (level =? 1)%Z then 0.0 else 0.05 + (inject_Z level - 1) * 0.05);
  bulletSpeedMultiplier := 1 + (inject_Z level - 1) * 0.1;
  spreadShotLevel := Qfloor (inject_Z level / 3);
  fireRateMultiplier := 1 + (inject_Z level - 1) * 0.1;
  powerUpChance :=
    if (level =? 1)%Z then 0.3 else Qmax 0.1 (0.2 - (inject_Z level - 2) * 0.02);
  divingEnemies := (2 <? level)%Z;
  enemiesShootAngled := (3 <? level)%Z;
  formationComplexity := Z.min 5 (Qfloor ((inject_Z level - 1) / 2))
|}.

End Difficulty.

(** ** The JavaScript runtime the game reads from *)

(** [Math_random n] is the value returned by the [n]-th call of
    [Math.random()]. *)
Class Runtime := {
  Math_sin : Q -> Q;
  Math_cos : Q -> Q;
  Math_sqrt : Q -> Q;
  Math_PI : Q;
  Math_random : nat -> Q
}.

(** [Math.random()] returns a value in the half-open interval from 0 to 1. *)
Definition RandomInRange (rt : Runtime) : Prop :=
  forall n : nat, 0 <= Math_random n /\ Math_random n < 1.

(** ** Entities (src/game) *)

Inductive EnemyType := BASIC | SHOOTER | TANK | FAST.

Inductive PowerUpType := SHIELD | SPREAD_SHOT | SPEED | HEALTH.

Inductive DivePhase := ready | diving | returning.

Inductive ExplosionType := ExRegularEnemy | ExTankEnemy | ExPlayer.

Definition EnemyType_eqb (a b : EnemyType) : bool :=
  match a, b with
  | BASIC, BASIC | SHOOTER, SHOOTER | TANK, TANK | FAST, FAST => true
  | _, _ => false
  end.

Definition DivePhase_eqb (a b : DivePhase) : bool :=
  match a, b with
  | ready, ready | diving, diving | returning, returning => true
  | _, _ => false
  end.

(** The part of the [GameObject] interface (types.ts) that collision tests
    read: position and size. *)
Class GameObject (A : Type) := {
  obj_x : A -> Q;
  obj_y : A -> Q;
  obj_width : A -> Q;
  obj_height : A -> Q
}.

(** *** Bullet *)

Module Bullet.

Record t := mk {
  x : Q;
  y : Q;
  width : Q;
  height : Q;
  speed : Q;
  isEnemyBullet : bool;
  angle : Q;
  color : string;
  enemyType : option EnemyType
}.

Definition set_x (v : Q) (r : t) : t :=
  {| x := v; y := y r; width := width r; height := height r;
     speed := speed r; isEnemyBullet := isEnemyBullet r; angle := angle r;
     color := color r; enemyType := enemyType r |}.

Definition set_y (v : Q) (r : t) : t :=
  {| x := x r; y := v; width := width r; height := height r;
     speed := speed r; isEnemyBullet := isEnemyBullet r; angle := angle r;
     color := color r; enemyType := enemyType r |}.

(** The constructor; [customSpeed] and [enemyType] are the optional
    arguments. *)
Definition new (x0 y0 : Q) (isEnemy : bool) (angle0 : Q)
    (customSpeed : option Q) (enemyType0 : option EnemyType) : t :=
  {| x := x0; y := y0; width := 12; height := 12;
     speed := match customSpeed with
              | Some s => s
              | None => if isEnemy then 5 else 7
              end;
     isEnemyBullet := isEnemy;
     angle := angle0;
     color := if isEnemy
              then match enemyType0 with
                   | Some BASIC => "#FF8C00"
                   | _ => "#00ff00"
                   end
              else "#ff3366";
     enemyType := enemyType0 |}.

Definition update {rt : Runtime} (b : t) : t :=
  if negb (Qeq_bool (angle b) 0) then
    let b1 := set_x (x b + Math_sin (angle b) * speed b) b in
    set_y (y b1 + - Math_cos (angle b1) * speed b1) b1
  else
    set_y (y b + (if isEnemyBullet b then speed b else - speed b)) b.

(** [checkCollision], Bullet.ts lines 167-173. *)
Definition checkCollision {A : Type} {go : GameObject A} (this : t) (other : A)
    : bool :=
  Qltb (x this) (obj_x other + obj_width other) &&
  Qgtb (x this + width this) (obj_x other) &&
  Qltb (y this) (obj_y other + obj_height other) &&
  Qgtb (y this + height this) (obj_y other).

End Bullet.

#[export] Instance Bullet_GameObject : GameObject Bullet.t :=
  {| obj_x := Bullet.x; obj_y := Bullet.y;
     obj_width := Bullet.width; obj_height := Bullet.height |}.

(** [checkBulletCollision], Game.tsx lines 1744-1754. *)
Definition checkBulletCollision (bullet1 bullet2 : Bullet.t) : bool :=
  let collisionMargin : Q := 5 in
  Qltb (Bullet.x bullet1 - collisionMargin)
       (Bullet.x bullet2 + Bullet.width bullet2 + collisionMargin) &&
  Qgtb (Bullet.x bullet1 + Bullet.width bullet1 + collisionMargin)
       (Bullet.x bullet2 - collisionMargin) &&
  Qltb (Bullet.y bullet1 - collisionMargin)
       (Bullet.y bullet2 + Bullet.height bullet2 + collisionMargin) &&
  Qgtb (Bullet.y bullet1 + Bullet.height bullet1 + collisionMargin)
       (Bullet.y bullet2 - collisionMargin).

(** *** PowerUp *)

Module PowerUp.

Record t := mk {
  x : Q;
  y : Q;
  width : Q;
  height : Q;
  speed : Q;
  type : PowerUpType;
  color : string;
  pulse : Q;
  pulseDirection : Q;
  rotation : Q
}.

Definition set_y (v : Q) (r : t) : t :=
  {| x := x r; y := v; width := width r; height := height r;
     speed := speed r; type := type r; color := color r; pulse := pulse r;
     pulseDirection := pulseDirection r; rotation := rotation r |}.

Definition set_pulse (v : Q) (r : t) : t :=
  {| x := x r; y := y r; width := width r; height := height r;
     speed := speed r; type := type r; color := color r; pulse := v;
     pulseDirection := pulseDirection r; rotation := rotation r |}.

Definition set_pulseDirection (v : Q) (r : t) : t :=
  {| x := x r; y := y r; width := width r; height := height r;
     speed := speed r; type := type r; color := color r; pulse := pulse r;
     pulseDirection := v; rotation := rotation r |}.

Definition set_rotation (v : Q) (r : t) : t :=
  {| x := x r; y := y r; width := width r; height := height r;
     speed := speed r; type := type r; color := color r; pulse := pulse r;
     pulseDirection := pulseDirection r; rotation := v |}.

Definition new (x0 y0 : Q) (ty : PowerUpType) : t :=
  {| x := x0; y := y0; width := 30; height := 30; speed := 2;
     type := ty;
     color := match ty with
              | SHIELD => "#00ffff"
              | SPREAD_SHOT => "#ff00ff"
              | SPEED => "#ffff00"
              | HEALTH => "#ff3366"
              end;
     pulse := 0; pulseDirection := 1; rotation := 0 |}.

Definition update (p : t) : t :=
  let p := set_y (y p + speed p) p in
  let p := set_pulse (pulse p + 0.05 * pulseDirection p) p in
  let p := if Qgeb (pulse p) 1 then set_pulseDirection (-1) p
           else if Qleb (pulse p) 0 then set_pulseDirection 1 p
           else p in
  set_rotation (rotation p + 0.02) p.

(** [checkCollision], PowerUp.ts lines 781-788: the power-up's own box is
    centred on its position. *)
Definition checkCollision {A : Type} {go : GameObject A} (this : t) (other : A)
    : bool :=
  Qltb (x this - width this / 2) (obj_x other + obj_width other) &&
  Qgtb (x this + width this / 2) (obj_x other) &&
  Qltb (y this - height this / 2) (obj_y other + obj_height other) &&
  Qgtb (y this + height this / 2) (obj_y other).

End PowerUp.

#[export] Instance PowerUp_GameObject : GameObject PowerUp.t :=
  {| obj_x := PowerUp.x; obj_y := PowerUp.y;
     obj_width := PowerUp.width; obj_height := PowerUp.height |}.

(** *** Enemy *)

Module Enemy.

Definition BOUNDARY_PADDING : Q := 30.

Record t := mk {
  x : Q;
  y : Q;
  width : Q;
  height : Q;
  baseSpeed : Q;
  speed : Q;
  verticalSpeed : Q;
  direction : Q;
  lastShot : Z;
  type : EnemyType;
  health : Z;
  shootProbability : Q;
  dropPowerUpChance : Q;
  color : string;
  targetY : Q;
  diveAtPlayer : bool;
  diverTimer : Z;
  originalX : Q;
  originalY : Q;
  divePhase : DivePhase;
  currentLevel : Z;
  bulletSpeedMultiplier : Q;
  stuckTimer : Z;
  initialSize : Q;
  timeOffScreen : Z
}.

Definition set_x (v : Q) (r : t) : t :=
  {| x := v; y := y r; width := width r; height := height r;
     baseSpeed := baseSpeed r; speed := speed r;
     verticalSpeed := verticalSpeed r; direction := direction r;
     lastShot := lastShot r; type := type r; health := health r;
     shootProbability := shootProbability r;
     dropPowerUpChance := dropPowerUpChance r; color := color r;
     targetY := targetY r; diveAtPlayer := diveAtPlayer r;
     diverTimer := diverTimer r; originalX := originalX r;
     originalY := originalY r; divePhase := divePhase r;
     currentLevel := currentLevel r;
     bulletSpeedMultiplier := bulletSpeedMultiplier r;
     stuckTimer := stuckTimer r; initialSize := initialSize r;
     timeOffScreen := timeOffScreen r |}.

Definition set_y (v : Q) (r : t) : t :=
  {| x := x r; y := v; width := width r; height := height r;
     baseSpeed := baseSpeed r; speed := speed r;
     verticalSpeed := verticalSpeed r; direction := direction r;
     lastShot := lastShot r; type := type r; health := health r;
     shootProbability := shootProbability r;
     dropPowerUpChance := dropPowerUpChance r; color := color r;
     targetY := targetY r; diveAtPlayer := diveAtPlayer r;
     diverTimer := diverTimer r; originalX := originalX r;
     originalY := originalY r; divePhase := divePhase r;
     currentLevel := currentLevel r;
     bulletSpeedMultiplier := bulletSpeedMultiplier r;
     stuckTimer := stuckTimer r; initialSize := initialSize r;
     timeOffScreen := timeOffScreen r |}.

Definition set_width (v : Q) (r : t) : t :=
  {| x := x r; y := y r; width := v; height := height r;
     baseSpeed := baseSpeed r; speed := speed r;
     verticalSpeed := verticalSpeed r; direction := direction r;
     lastShot := lastShot r; type := type r; health := health r;
     shootProbability := shootProbability r;
     dropPowerUpChance := dropPowerUpChance r; color := color r;
     targetY := targetY r; diveAtPlayer := diveAtPlayer r;
     diverTimer := diverTimer r; originalX := originalX r;
     originalY := originalY r; divePhase := divePhase r;
     currentLevel := currentLevel r;
     bulletSpeedMultiplier := bulletSpeedMultiplier r;
     stuckTimer := stuckTimer r; initialSize := initialSize r;
     timeOffScreen := timeOffScreen r |}.

Definition set_height (v : Q) (r : t) : t :=
  {| x := x r; y := y r; width := width r; height := v;
     baseSpeed := baseSpeed r; speed := speed r;
     verticalSpeed := verticalSpeed r; direction := direction r;
     lastShot := lastShot r; type := type r; health := health r;
     shootProbability := shootProbability r;
     dropPowerUpChance := dropPowerUpChance r; color := color r;
     targetY := targetY r; diveAtPlayer := diveAtPlayer r;
     diverTimer := diverTimer r; originalX := originalX r;
     originalY := originalY r; divePhase := divePhase r;
     currentLevel := currentLevel r;
     bulletSpeedMultiplier := bulletSpeedMultiplier r;
     stuckTimer := stuckTimer r; initialSize := initialSize r;
     timeOffScreen := timeOffScreen r |}.

Definition set_speed (v : Q) (r : t) : t :=
  {| x := x r; y := y r; width := width r; height := height r;
     baseSpeed := baseSpeed r; speed := v; verticalSpeed := verticalSpeed r;
     direction := direction r; lastShot := lastShot r; type := type r;
     health := health r; shootProbability := shootProbability r;
     dropPowerUpChance := dropPowerUpChance r; color := color r;
     targetY := targetY r; diveAtPlayer := diveAtPlayer r;
     diverTimer := diverTimer r; originalX := originalX r;
     originalY := originalY r; divePhase := divePhase r;
     currentLevel := currentLevel r;
     bulletSpeedMultiplier := bulletSpeedMultiplier r;
     stuckTimer := stuckTimer r; initialSize := initialSize r;
     timeOffScreen := timeOffScreen r |}.

Definition set_verticalSpeed (v : Q) (r : t) : t :=
  {| x := x r; y := y r; width := width r; height := height r;
     baseSpeed := baseSpeed r; speed := speed r; verticalSpeed := v;
     direction := direction r; lastShot := lastShot r; type := type r;
     health := health r; shootProbability := shootProbability r;
     dropPowerUpChance := dropPowerUpChance r; color := color r;
     targetY := targetY r; diveAtPlayer := diveAtPlayer r;
     diverTimer := diverTimer r; originalX := originalX r;
     originalY := originalY r; divePhase := divePhase r;
     currentLevel := currentLevel r;
     bulletSpeedMultiplier := bulletSpeedMultiplier r;
     stuckTimer := stuckTimer r; initialSize := initialSize r;
     timeOffScreen := timeOffScreen r |}.

Definition set_direction (v : Q) (r : t) : t :=
  {| x := x r; y := y r; width := width r; height := height r;
     baseSpeed := baseSpeed r; speed := speed r;
     verticalSpeed := verticalSpeed r; direction := v;
     lastShot := lastShot r; type := type r; health := health r;
     shootProbability := shootProbability r;
     dropPowerUpChance := dropPowerUpChance r; color := color r;
     targetY := targetY r; diveAtPlayer := diveAtPlayer r;
     diverTimer := diverTimer r; originalX := originalX r;
     originalY := originalY r; divePhase := divePhase r;
     currentLevel := currentLevel r;
     bulletSpeedMultiplier := bulletSpeedMultiplier r;
     stuckTimer := stuckTimer r; initialSize := initialSize r;
     timeOffScreen := timeOffScreen r |}.

Definition set_lastShot (v : Z) (r : t) : t :=
  {| x := x r; y := y r; width := width r; height := height r;
     baseSpeed := baseSpeed r; speed := speed r;
     verticalSpeed := verticalSpeed r; direction := direction r;
     lastShot := v; type := type r; health := health r;
     shootProbability := shootProbability r;
     dropPowerUpChance := dropPowerUpChance r; color := color r;
     targetY := targetY r; diveAtPlayer := diveAtPlayer r;
     diverTimer := diverTimer r; originalX := originalX r;
     originalY := originalY r; divePhase := divePhase r;
     currentLevel := currentLevel r;
     bulletSpeedMultiplier := bulletSpeedMultiplier r;
     stuckTimer := stuckTimer r; initialSize := initialSize r;
     timeOffScreen := timeOffScreen r |}.

Definition set_health (v : Z) (r : t) : t :=
  {| x := x r; y := y r; width := width r; height := height r;
     baseSpeed := baseSpeed r; speed := speed r;
     verticalSpeed := verticalSpeed r; direction := direction r;
     lastShot := lastShot r; type := type r; health := v;
     shootProbability := shootProbability r;
     dropPowerUpChance := dropPowerUpChance r; color := color r;
     targetY := targetY r; diveAtPlayer := diveAtPlayer r;
     diverTimer := diverTimer r; originalX := originalX r;
     originalY := originalY r; divePhase := divePhase r;
     currentLevel := currentLevel r;
     bulletSpeedMultiplier := bulletSpeedMultiplier r;
     stuckTimer := stuckTimer r; initialSize := initialSize r;
     timeOffScreen := timeOffScreen r |}.

Definition set_shootProbability (v : Q) (r : t) : t :=
  {| x := x r; y := y r; width := width r; height := height r;
     baseSpeed := baseSpeed r; speed := speed r;
     verticalSpeed := verticalSpeed r; direction := direction r;
     lastShot := lastShot r; type := type r; health := health r;
     shootProbability := v; dropPowerUpChance := dropPowerUpChance r;
     color := color r; targetY := targetY r; diveAtPlayer := diveAtPlayer r;
     diverTimer := diverTimer r; originalX := originalX r;
     originalY := originalY r; divePhase := divePhase r;
     currentLevel := currentLevel r;
     bulletSpeedMultiplier := bulletSpeedMultiplier r;
     stuckTimer := stuckTimer r; initialSize := initialSize r;
     timeOffScreen := timeOffScreen r |}.

Definition set_dropPowerUpChance (v : Q) (r : t) : t :=
  {| x := x r; y := y r; width := width r; height := height r;
     baseSpeed := baseSpeed r; speed := speed r;
     verticalSpeed := verticalSpeed r; direction := direction r;
     lastShot := lastShot r; type := type r; health := health r;
     shootProbability := shootProbability r; dropPowerUpChance := v;
     color := color r; targetY := targetY r; diveAtPlayer := diveAtPlayer r;
     diverTimer := diverTimer r; originalX := originalX r;
     originalY := originalY r; divePhase := divePhase r;
     currentLevel := currentLevel r;
     bulletSpeedMultiplier := bulletSpeedMultiplier r;
     stuckTimer := stuckTimer r; initialSize := initialSize r;
     timeOffScreen := timeOffScreen r |}.

Definition set_color (v : string) (r : t) : t :=
  {| x := x r; y := y r; width := width r; height := height r;
     baseSpeed := baseSpeed r; speed := speed r;
     verticalSpeed := verticalSpeed r; direction := direction r;
     lastShot := lastShot r; type := type r; health := health r;
     shootProbability := shootProbability r;
     dropPowerUpChance := dropPowerUpChance r; color := v;
     targetY := targetY r; diveAtPlayer := diveAtPlayer r;
     diverTimer := diverTimer r; originalX := originalX r;
     originalY := originalY r; divePhase := divePhase r;
     currentLevel := currentLevel r;
     bulletSpeedMultiplier := bulletSpeedMultiplier r;
     stuckTimer := stuckTimer r; initialSize := initialSize r;
     timeOffScreen := timeOffScreen r |}.

Definition set_diveAtPlayer (v : bool) (r : t) : t :=
  {| x := x r; y := y r; width := width r; height := height r;
     baseSpeed := baseSpeed r; speed := speed r;
     verticalSpeed := verticalSpeed r; direction := direction r;
     lastShot := lastShot r; type := type r; health := health r;
     shootProbability := shootProbability r;
     dropPowerUpChance := dropPowerUpChance r; color := color r;
     targetY := targetY r; diveAtPlayer := v; diverTimer := diverTimer r;
     originalX := originalX r; originalY := originalY r;
     divePhase := divePhase r; currentLevel := currentLevel r;
     bulletSpeedMultiplier := bulletSpeedMultiplier r;
     stuckTimer := stuckTimer r; initialSize := initialSize r;
     timeOffScreen := timeOffScreen r |}.

Definition set_diverTimer (v : Z) (r : t) : t :=
  {| x := x r; y := y r; width := width r; height := height r;
     baseSpeed := baseSpeed r; speed := speed r;
     verticalSpeed := verticalSpeed r; direction := direction r;
     lastShot := lastShot r; type := type r; health := health r;
     shootProbability := shootProbability r;
     dropPowerUpChance := dropPowerUpChance r; color := color r;
     targetY := targetY r; diveAtPlayer := diveAtPlayer r; diverTimer := v;
     originalX := originalX r; originalY := originalY r;
     divePhase := divePhase r; currentLevel := currentLevel r;
     bulletSpeedMultiplier := bulletSpeedMultiplier r;
     stuckTimer := stuckTimer r; initialSize := initialSize r;
     timeOffScreen := timeOffScreen r |}.

Definition set_divePhase (v : DivePhase) (r : t) : t :=
  {| x := x r; y := y r; width := width r; height := height r;
     baseSpeed := baseSpeed r; speed := speed r;
     verticalSpeed := verticalSpeed r; direction := direction r;
     lastShot := lastShot r; type := type r; health := health r;
     shootProbability := shootProbability r;
     dropPowerUpChance := dropPowerUpChance r; color := color r;
     targetY := targetY r; diveAtPlayer := diveAtPlayer r;
     diverTimer := diverTimer r; originalX := originalX r;
     originalY := originalY r; divePhase := v;
     currentLevel := currentLevel r;
     bulletSpeedMultiplier := bulletSpeedMultiplier r;
     stuckTimer := stuckTimer r; initialSize := initialSize r;
     timeOffScreen := timeOffScreen r |}.

Definition set_bulletSpeedMultiplier (v : Q) (r : t) : t :=
  {| x := x r; y := y r; width := width r; height := height r;
     baseSpeed := baseSpeed r; speed := speed r;
     verticalSpeed := verticalSpeed r; direction := direction r;
     lastShot := lastShot r; type := type r; health := health r;
     shootProbability := shootProbability r;
     dropPowerUpChance := dropPowerUpChance r; color := color r;
     targetY := targetY r; diveAtPlayer := diveAtPlayer r;
     diverTimer := diverTimer r; originalX := originalX r;
     originalY := originalY r; divePhase := divePhase r;
     currentLevel := currentLevel r; bulletSpeedMultiplier := v;
     stuckTimer := stuckTimer r; initialSize := initialSize r;
     timeOffScreen := timeOffScreen r |}.

Definition set_initialSize (v : Q) (r : t) : t :=
  {| x := x r; y := y r; width := width r; height := height r;
     baseSpeed := baseSpeed r; speed := speed r;
     verticalSpeed := verticalSpeed r; direction := direction r;
     lastShot := lastShot r; type := type r; health := health r;
     shootProbability := shootProbability r;
     dropPowerUpChance := dropPowerUpChance r; color := color r;
     targetY := targetY r; diveAtPlayer := diveAtPlayer r;
     diverTimer := diverTimer r; originalX := originalX r;
     originalY := originalY r; divePhase := divePhase r;
     currentLevel := currentLevel r;
     bulletSpeedMultiplier := bulletSpeedMultiplier r;
     stuckTimer := stuckTimer r; initialSize := v;
     timeOffScreen := timeOffScreen r |}.

Definition set_timeOffScreen (v : Z) (r : t) : t :=
  {| x := x r; y := y r; width := width r; height := height r;
     baseSpeed := baseSpeed r; speed := speed r;
     verticalSpeed := verticalSpeed r; direction := direction r;
     lastShot := lastShot r; type := type r; health := health r;
     shootProbability := shootProbability r;
     dropPowerUpChance := dropPowerUpChance r; color := color r;
     targetY := targetY r; diveAtPlayer := diveAtPlayer r;
     diverTimer := diverTimer r; originalX := originalX r;
     originalY := originalY r; divePhase := divePhase r;
     currentLevel := currentLevel r;
     bulletSpeedMultiplier := bulletSpeedMultiplier r;
     stuckTimer := stuckTimer r; initialSize := initialSize r;
     timeOffScreen := v |}.

(** Field initialisers followed by the assignments of the constructor that
    precede [setupType]. *)
Definition init (x0 y0 : Q) (ty : EnemyType) (level : Z) : t :=
  {| x := x0; y := y0 - 100; width := 40; height := 40;
     baseSpeed := 1; speed := 1; verticalSpeed := 0; direction := 1;
     lastShot := 0; type := ty; health := 1;
     shootProbability := 0.3; dropPowerUpChance := 0.2;
     color := "#4488ff"; targetY := y0;
     diveAtPlayer := false; diverTimer := 0;
     originalX := x0; originalY := y0; divePhase := ready;
     currentLevel := level; bulletSpeedMultiplier := 1.0;
     stuckTimer := 0; initialSize := 1; timeOffScreen := 0 |}.

(** [setupType], Enemy.ts lines 124-152. *)
Definition setupType (e : t) : t :=
  match type e with
  | SHOOTER =>
      let e := set_health 1 e in
      let e := set_shootProbability 0.4 e in
      let e := set_color "#999999" e in
      set_verticalSpeed 0.5 e
  | TANK =>
      let e := set_health 3 e in
      let e := set_shootProbability 0.15 e in
      let e := set_speed (baseSpeed e * 0.5) e in
      let e := set_color "#0022cc" e in
      set_verticalSpeed 0.3 e
  | FAST =>
      let e := set_health 1 e in
      let e := set_shootProbability 0.2 e in
      let e := set_speed (baseSpeed e * 2) e in
      let e := set_color "#66aaff" e in
      set_verticalSpeed 1 e
  | BASIC =>
      let e := set_health 1 e in
      let e := set_shootProbability 0.1 e in
      let e := set_color "#4488ff" e in
      set_verticalSpeed 0.7 e
  end.

Definition calculateBulletSpeedMultiplier (e : t) : t :=
  let l := currentLevel e in
  let m : Q :=
    if (l <=? 1)%Z then 0.2
    else if (l <=? 2)%Z then 0.3
    else if (l <=? 3)%Z then 0.4
    else if (l <=? 4)%Z then 0.5
    else if (l <=? 5)%Z then 0.6
    else if (l <=? 6)%Z then 0.7
    else if (l <=? 7)%Z then 0.8
    else if (l <=? 8)%Z then 0.9
    else if (l <=? 9)%Z then 1.0
    else 1.1 in
  let e := set_bulletSpeedMultiplier m e in
  if EnemyType_eqb (type e) SHOOTER
  then set_bulletSpeedMultiplier (bulletSpeedMultiplier e + 0.1) e
  else e.

(** The constructor, Enemy.ts lines 96-122 (image preloading left out). *)
Definition new (x0 y0 : Q) (ty : EnemyType) (level : Z) : t :=
  let e := init x0 y0 ty level in
  let e := setupType e in
  let e := calculateBulletSpeedMultiplier e in
  if EnemyType_eqb (type e) TANK then
    let e := set_initialSize 1.0 e in
    let e := set_width 60 e in
    set_height 60 e
  else e.

(** [hit], Enemy.ts lines 561-570: the returned boolean and the mutated
    enemy. *)
Definition hit (e : t) : bool * t :=
  let e := set_health (health e - 1) e in
  let e := if EnemyType_eqb (type e) TANK
           then set_initialSize (initialSize e - 0.2) e
           else e in
  ((health e <=? 0)%Z, e).

(** The factor by which [draw] scales the hexagon of a tank
    (Enemy.ts line 244). *)
Definition sizeMultiplier (e : t) : Q :=
  0.7 + (initialSize e * (inject_Z (health e) / 3)) * 0.5.

Section WithRuntime.
Context {rt : Runtime}.

(** [handleDiving]; [rng] is the cursor into the random oracle. *)
Definition handleDiving (now : Z) (rng : nat) (e : t) : t * nat :=
  if DivePhase_eqb (divePhase e) ready && Qgeb (y e) (targetY e - 20) then
    if Qltb (Math_random rng) 0.005
    then (set_diverTimer (now + 3000)%Z (set_divePhase diving e), S rng)
    else (e, S rng)
  else if DivePhase_eqb (divePhase e) diving then
    let e := set_y (y e + verticalSpeed e * 3) e in
    if (diverTimer e <? now)%Z || Qgtb (y e) 600
    then (set_divePhase returning e, rng)
    else (e, rng)
  else if DivePhase_eqb (divePhase e) returning then
    let dx := originalX e - x e in
    let dy := originalY e - y e in
    let dist := Math_sqrt (dx * dx + dy * dy) in
    if Qltb dist 5 then
      let e := set_x (originalX e) e in
      let e := set_y (originalY e) e in
      (set_divePhase ready e, rng)
    else
      let e := set_x (x e + dx * 0.05) e in
      (set_y (y e + dy * 0.05) e, rng)
  else (e, rng).

(** [update], Enemy.ts lines 379-434 (the pulse animation left out). *)
Definition update (now : Z) (rng : nat) (e : t) : t * nat :=
  let e := if Qltb (y e) (targetY e) then set_y (y e + verticalSpeed e) e
           else e in
  let '(e, rng) :=
    if diveAtPlayer e then handleDiving now rng e
    else
      let e := set_x (x e + speed e * direction e) e in
      if Qleb (x e) BOUNDARY_PADDING
         || Qgeb (x e + width e) (GAME_WIDTH - BOUNDARY_PADDING)
      then
        let e := set_direction (direction e * -1) e in
        (set_y (y e + 10) e, rng)
      else (e, rng) in
  let isOffScreen :=
    Qltb (x e + width e) 0 || Qgtb (x e) GAME_WIDTH
    || Qltb (y e + height e) 0 || Qgtb (y e) (GAME_HEIGHT + 100) in
  if isOffScreen then
    let e := set_timeOffScreen (timeOffScreen e + 1)%Z e in
    if (120 <? timeOffScreen e)%Z then
      let e :=
        if Qltb (x e + width e) 0 then
          set_direction 1 (set_x BOUNDARY_PADDING e)
        else if Qgtb (x e) GAME_WIDTH then
          set_direction (-1) (set_x (GAME_WIDTH - width e - BOUNDARY_PADDING) e)
        else e in
      let e := if Qgtb (y e) (GAME_HEIGHT + 100) then set_y 50 e else e in
      (set_timeOffScreen 0%Z e, rng)
    else (e, rng)
  else (set_timeOffScreen 0%Z e, rng).

(** [canShoot]: the random roll is made only when the position and the
    cooldown allow a shot. *)
Definition canShoot (now : Z) (rng : nat) (e : t) : bool * t * nat :=
  let minInterval : Z := 3000%Z in
  if Qgeb (y e) (targetY e - 20) || DivePhase_eqb (divePhase e) diving then
    if (minInterval <=? now - lastShot e)%Z then
      if Qltb (Math_random rng) (shootProbability e / 20)
      then (true, set_lastShot now e, S rng)
      else (false, e, S rng)
    else (false, e, rng)
  else (false, e, rng).

(** [shoot], Enemy.ts lines 531-559. *)
Definition shoot (rng : nat) (e : t) : Bullet.t * nat :=
  let baseBulletSpeed := 3 * bulletSpeedMultiplier e in
  let '(finalSpeed, rng) :=
    match type e with
    | SHOOTER => (baseBulletSpeed + 0.2, rng)
    | TANK => (baseBulletSpeed, rng)
    | FAST => (baseBulletSpeed + (Math_random rng * 0.4 - 0.2), S rng)
    | BASIC => (baseBulletSpeed, rng)
    end in
  (Bullet.new (x e + width e / 2) (y e + height e) true 0
     (Some finalSpeed) (Some (type e)), rng).

(** [dropPowerUp]; [Object.values(PowerUpType)] lists the four types in
    declaration order. *)
Definition powerUpTypes : list PowerUpType :=
  [SHIELD; SPREAD_SHOT; SPEED; HEALTH].

Definition dropPowerUp (rng : nat) (e : t) : option PowerUp.t * nat :=
  if Qgtb (Math_random rng) (dropPowerUpChance e) then (None, S rng)
  else
    let idx := Qfloor (Math_random (S rng) * inject_Z (Z.of_nat (length powerUpTypes))) in
    match powerUpTypes !! Z.to_nat idx with
    | Some randomType =>
        (Some (PowerUp.new (x e + width e / 2) (y e + height e / 2) randomType),
         S (S rng))
    | None => (None, S (S rng))
    end.

End WithRuntime.

End Enemy.

#[export] Instance Enemy_GameObject : GameObject Enemy.t :=
  {| obj_x := Enemy.x; obj_y := Enemy.y;
     obj_width := Enemy.width; obj_height := Enemy.height |}.

(** *** Player *)

Module Player.

Record t := mk {
  x : Q;
  y : Q;
  width : Q;
  height : Q;
  speed : Q;
  baseSpeed : Q;
  hasShield : bool;
  hasSpreadShot : bool;
  shieldTimer : Z;
  spreadShotTimer : Z;
  speedTimer : Z;
  invulnerable : bool;
  invulnerableTimer : Z;
  powerUpTimer : Z;
  color : string;
  fireRate : Z;
  imageLoaded : bool
}.

Definition set_x (v : Q) (r : t) : t :=
  {| x := v; y := y r; width := width r; height := height r;
     speed := speed r; baseSpeed := baseSpeed r; hasShield := hasShield r;
     hasSpreadShot := hasSpreadShot r; shieldTimer := shieldTimer r;
     spreadShotTimer := spreadShotTimer r; speedTimer := speedTimer r;
     invulnerable := invulnerable r;
     invulnerableTimer := invulnerableTimer r;
     powerUpTimer := powerUpTimer r; color := color r;
     fireRate := fireRate r; imageLoaded := imageLoaded r |}.

Definition set_y (v : Q) (r : t) : t :=
  {| x := x r; y := v; width := width r; height := height r;
     speed := speed r; baseSpeed := baseSpeed r; hasShield := hasShield r;
     hasSpreadShot := hasSpreadShot r; shieldTimer := shieldTimer r;
     spreadShotTimer := spreadShotTimer r; speedTimer := speedTimer r;
     invulnerable := invulnerable r;
     invulnerableTimer := invulnerableTimer r;
     powerUpTimer := powerUpTimer r; color := color r;
     fireRate := fireRate r; imageLoaded := imageLoaded r |}.

Definition set_speed (v : Q) (r : t) : t :=
  {| x := x r; y := y r; width := width r; height := height r; speed := v;
     baseSpeed := baseSpeed r; hasShield := hasShield r;
     hasSpreadShot := hasSpreadShot r; shieldTimer := shieldTimer r;
     spreadShotTimer := spreadShotTimer r; speedTimer := speedTimer r;
     invulnerable := invulnerable r;
     invulnerableTimer := invulnerableTimer r;
     powerUpTimer := powerUpTimer r; color := color r;
     fireRate := fireRate r; imageLoaded := imageLoaded r |}.

Definition set_hasShield (v : bool) (r : t) : t :=
  {| x := x r; y := y r; width := width r; height := height r;
     speed := speed r; baseSpeed := baseSpeed r; hasShield := v;
     hasSpreadShot := hasSpreadShot r; shieldTimer := shieldTimer r;
     spreadShotTimer := spreadShotTimer r; speedTimer := speedTimer r;
     invulnerable := invulnerable r;
     invulnerableTimer := invulnerableTimer r;
     powerUpTimer := powerUpTimer r; color := color r;
     fireRate := fireRate r; imageLoaded := imageLoaded r |}.

Definition set_hasSpreadShot (v : bool) (r : t) : t :=
  {| x := x r; y := y r; width := width r; height := height r;
     speed := speed r; baseSpeed := baseSpeed r; hasShield := hasShield r;
     hasSpreadShot := v; shieldTimer := shieldTimer r;
     spreadShotTimer := spreadShotTimer r; speedTimer := speedTimer r;
     invulnerable := invulnerable r;
     invulnerableTimer := invulnerableTimer r;
     powerUpTimer := powerUpTimer r; color := color r;
     fireRate := fireRate r; imageLoaded := imageLoaded r |}.

Definition set_shieldTimer (v : Z) (r : t) : t :=
  {| x := x r; y := y r; width := width r; height := height r;
     speed := speed r; baseSpeed := baseSpeed r; hasShield := hasShield r;
     hasSpreadShot := hasSpreadShot r; shieldTimer := v;
     spreadShotTimer := spreadShotTimer r; speedTimer := speedTimer r;
     invulnerable := invulnerable r;
     invulnerableTimer := invulnerableTimer r;
     powerUpTimer := powerUpTimer r; color := color r;
     fireRate := fireRate r; imageLoaded := imageLoaded r |}.

Definition set_spreadShotTimer (v : Z) (r : t) : t :=
  {| x := x r; y := y r; width := width r; height := height r;
     speed := speed r; baseSpeed := baseSpeed r; hasShield := hasShield r;
     hasSpreadShot := hasSpreadShot r; shieldTimer := shieldTimer r;
     spreadShotTimer := v; speedTimer := speedTimer r;
     invulnerable := invulnerable r;
     invulnerableTimer := invulnerableTimer r;
     powerUpTimer := powerUpTimer r; color := color r;
     fireRate := fireRate r; imageLoaded := imageLoaded r |}.

Definition set_speedTimer (v : Z) (r : t) : t :=
  {| x := x r; y := y r; width := width r; height := height r;
     speed := speed r; baseSpeed := baseSpeed r; hasShield := hasShield r;
     hasSpreadShot := hasSpreadShot r; shieldTimer := shieldTimer r;
     spreadShotTimer := spreadShotTimer r; speedTimer := v;
     invulnerable := invulnerable r;
     invulnerableTimer := invulnerableTimer r;
     powerUpTimer := powerUpTimer r; color := color r;
     fireRate := fireRate r; imageLoaded := imageLoaded r |}.

Definition set_invulnerable (v : bool) (r : t) : t :=
  {| x := x r; y := y r; width := width r; height := height r;
     speed := speed r; baseSpeed := baseSpeed r; hasShield := hasShield r;
     hasSpreadShot := hasSpreadShot r; shieldTimer := shieldTimer r;
     spreadShotTimer := spreadShotTimer r; speedTimer := speedTimer r;
     invulnerable := v; invulnerableTimer := invulnerableTimer r;
     powerUpTimer := powerUpTimer r; color := color r;
     fireRate := fireRate r; imageLoaded := imageLoaded r |}.

Definition set_invulnerableTimer (v : Z) (r : t) : t :=
  {| x := x r; y := y r; width := width r; height := height r;
     speed := speed r; baseSpeed := baseSpeed r; hasShield := hasShield r;
     hasSpreadShot := hasSpreadShot r; shieldTimer := shieldTimer r;
     spreadShotTimer := spreadShotTimer r; speedTimer := speedTimer r;
     invulnerable := invulnerable r; invulnerableTimer := v;
     powerUpTimer := powerUpTimer r; color := color r;
     fireRate := fireRate r; imageLoaded := imageLoaded r |}.

Definition new (x0 y0 : Q) : t :=
  {| x := x0; y := y0; width := 50; height := 50; speed := 5; baseSpeed := 5;
     hasShield := false; hasSpreadShot := false;
     shieldTimer := 0; spreadShotTimer := 0; speedTimer := 0;
     invulnerable := false; invulnerableTimer := 0; powerUpTimer := 0;
     color := "#4488ff"; fireRate := 250; imageLoaded := false |}.

Definition moveLeft (p : t) : t := set_x (Qmax 0 (x p - speed p)) p.
Definition moveRight (p : t) : t := set_x (Qmin (800 - width p) (x p + speed p)) p.
Definition moveUp (p : t) : t := set_y (Qmax 0 (y p - speed p)) p.
Definition moveDown (p : t) : t := set_y (Qmin (600 - height p) (y p + speed p)) p.

(** [shoot] returns one bullet or an array of three; the caller pushes
    whatever it gets, so the result is a list here. *)
Definition shoot (p : t) : list Bullet.t :=
  if hasSpreadShot p then
    [ Bullet.new (x p + width p / 2) (y p) false 0 None None;
      Bullet.new (x p + width p / 2) (y p) false (-0.3) None None;
      Bullet.new (x p + width p / 2) (y p) false 0.3 None None ]
  else
    [ Bullet.new (x p + width p / 2) (y p) false 0 None None ].

Definition update (now : Z) (p : t) : t :=
  let p := if (0 <? shieldTimer p)%Z && (shieldTimer p <? now)%Z
           then set_shieldTimer 0%Z (set_hasShield false p) else p in
  let p := if (0 <? spreadShotTimer p)%Z && (spreadShotTimer p <? now)%Z
           then set_spreadShotTimer 0%Z (set_hasSpreadShot false p) else p in
  let p := if (0 <? speedTimer p)%Z && (speedTimer p <? now)%Z
           then set_speedTimer 0%Z (set_speed (baseSpeed p) p) else p in
  if (0 <? invulnerableTimer p)%Z && (invulnerableTimer p <? now)%Z
  then set_invulnerableTimer 0%Z (set_invulnerable false p) else p.

(** [activatePowerUp], Player.ts lines 381-402. *)
Definition activatePowerUp (now : Z) (ty : PowerUpType) (p : t) : t :=
  let duration : Z := 5000%Z in
  match ty with
  | SHIELD => set_shieldTimer (now + duration)%Z (set_hasShield true p)
  | SPREAD_SHOT => set_spreadShotTimer (now + duration)%Z (set_hasSpreadShot true p)
  | SPEED => set_speedTimer (now + duration)%Z (set_speed (baseSpeed p * 1.5) p)
  | HEALTH => p
  end.

Definition makeInvulnerable (now : Z) (p : t) : t :=
  set_invulnerableTimer (now + 2000)%Z (set_invulnerable true p).

End Player.

#[export] Instance Player_GameObject : GameObject Player.t :=
  {| obj_x := Player.x; obj_y := Player.y;
     obj_width := Player.width; obj_height := Player.height |}.

(** *** Particle *)

Module Particle.

Record t := mk {
  x : Q;
  y : Q;
  width : Q;
  height : Q;
  speed : Q;
  color : string;
  life : Q;
  velocity_x : Q;
  velocity_y : Q
}.

Definition set_x (v : Q) (r : t) : t :=
  {| x := v; y := y r; width := width r; height := height r;
     speed := speed r; color := color r; life := life r;
     velocity_x := velocity_x r; velocity_y := velocity_y r |}.

Definition set_y (v : Q) (r : t) : t :=
  {| x := x r; y := v; width := width r; height := height r;
     speed := speed r; color := color r; life := life r;
     velocity_x := velocity_x r; velocity_y := velocity_y r |}.

Definition set_life (v : Q) (r : t) : t :=
  {| x := x r; y := y r; width := width r; height := height r;
     speed := speed r; color := color r; life := v;
     velocity_x := velocity_x r; velocity_y := velocity_y r |}.

(** The constructor draws the direction and then the speed. *)
Definition new {rt : Runtime} (x0 y0 : Q) (c : string) (rng : nat) : t * nat :=
  let angle := Math_random rng * Math_PI * 2 in
  let sp := Math_random (S rng) * 3 in
  ({| x := x0; y := y0; width := 2; height := 2; speed := 3; color := c;
      life := 1.0;
      velocity_x := Math_cos angle * sp;
      velocity_y := Math_sin angle * sp |}, S (S rng)).

Definition update (p : t) : t :=
  let p := set_x (x p + velocity_x p) p in
  let p := set_y (y p + velocity_y p) p in
  set_life (life p - 0.02) p.

End Particle.

(** *** ExplosionGIF *)

Module ExplosionGIF.

Record t := mk {
  x : Q;
  y : Q;
  width : Q;
  height : Q;
  speed : Q;
  type : ExplosionType;
  startTime : Z;
  duration : Z;
  isActive : bool;
  id : nat
}.

Definition set_isActive (v : bool) (r : t) : t :=
  {| x := x r; y := y r; width := width r; height := height r;
     speed := speed r; type := type r; startTime := startTime r;
     duration := duration r; isActive := v; id := id r |}.

(** The constructor without its DOM element.  [id0] stands for the identity
    of the new object (the removal timer created by the constructor refers to
    it); the random draw of the element id and, for a regular enemy, of the
    picture are kept.  The result also gives the delay of the removal
    timer. *)
Definition new {rt : Runtime} (x0 y0 : Q) (ty : ExplosionType) (now : Z)
    (id0 : nat) (rng : nat) : t * Z * nat :=
  let rng := S rng in
  let '(w, h, d, rng) :=
    match ty with
    | ExPlayer => (100, 128, 420%Z, rng)
    | ExTankEnemy => (80, 75, 540%Z, rng)
    | ExRegularEnemy =>
        let randomIndex := Qfloor (Math_random rng * 2) in
        if (randomIndex =? 0)%Z then (80, 68, 660%Z, S rng)
        else (80, 80, 790%Z, S rng)
    end in
  ({| x := x0; y := y0; width := w; height := h; speed := 0; type := ty;
      startTime := now; duration := d; isActive := true; id := id0 |},
   (d + 50)%Z, rng).

Definition remove (e : t) : t := set_isActive false e.

Definition createForEnemy {rt : Runtime} (x0 y0 : Q) (enemyType : option EnemyType)
    (now : Z) (id0 : nat) (rng : nat) : t * Z * nat :=
  match enemyType with
  | Some TANK => new x0 y0 ExTankEnemy now id0 rng
  | _ => new x0 y0 ExRegularEnemy now id0 rng
  end.

Definition createForPlayer {rt : Runtime} (x0 y0 : Q) (now : Z) (id0 : nat)
    (rng : nat) : t * Z * nat :=
  new x0 y0 ExPlayer now id0 rng.

Definition update (now : Z) (e : t) : t :=
  if isActive e then
    if (duration e <? now - startTime e)%Z then remove e else e
  else e.

End ExplosionGIF.

(** ** The state of the Game component *)

Import Difficulty.

(** [GameState] as the component builds it (score, flags, health, level). *)
Record GameState := mkGameState {
  score : Z;
  isGameOver : bool;
  isPaused : bool;
  health : Z;
  victory : bool;
  level : Z
}.

Definition set_score (v : Z) (r : GameState) : GameState :=
  {| score := v; isGameOver := isGameOver r; isPaused := isPaused r;
     health := health r; victory := victory r; level := level r |}.

Definition set_isGameOver (v : bool) (r : GameState) : GameState :=
  {| score := score r; isGameOver := v; isPaused := isPaused r;
     health := health r; victory := victory r; level := level r |}.

Definition set_isPaused (v : bool) (r : GameState) : GameState :=
  {| score := score r; isGameOver := isGameOver r; isPaused := v;
     health := health r; victory := victory r; level := level r |}.

Definition set_health (v : Z) (r : GameState) : GameState :=
  {| score := score r; isGameOver := isGameOver r; isPaused := isPaused r;
     health := v; victory := victory r; level := level r |}.

Definition set_victory (v : bool) (r : GameState) : GameState :=
  {| score := score r; isGameOver := isGameOver r; isPaused := isPaused r;
     health := health r; victory := v; level := level r |}.

Definition set_level (v : Z) (r : GameState) : GameState :=
  {| score := score r; isGameOver := isGameOver r; isPaused := isPaused r;
     health := health r; victory := victory r; level := v |}.

(** The other [useState] cells that the simulation reads or resets. *)
Record Ui := mkUi {
  showLevelText : bool;
  gameOverFadeIn : bool;
  isMobile : bool;
  isShooting : bool;
  isMovingLeft : bool;
  isMovingRight : bool;
  isMovingUp : bool;
  isMovingDown : bool
}.

Definition set_showLevelText (v : bool) (r : Ui) : Ui :=
  {| showLevelText := v; gameOverFadeIn := gameOverFadeIn r;
     isMobile := isMobile r; isShooting := isShooting r;
     isMovingLeft := isMovingLeft r; isMovingRight := isMovingRight r;
     isMovingUp := isMovingUp r; isMovingDown := isMovingDown r |}.

Definition set_gameOverFadeIn (v : bool) (r : Ui) : Ui :=
  {| showLevelText := showLevelText r; gameOverFadeIn := v;
     isMobile := isMobile r; isShooting := isShooting r;
     isMovingLeft := isMovingLeft r; isMovingRight := isMovingRight r;
     isMovingUp := isMovingUp r; isMovingDown := isMovingDown r |}.

Definition set_isMobile (v : bool) (r : Ui) : Ui :=
  {| showLevelText := showLevelText r; gameOverFadeIn := gameOverFadeIn r;
     isMobile := v; isShooting := isShooting r;
     isMovingLeft := isMovingLeft r; isMovingRight := isMovingRight r;
     isMovingUp := isMovingUp r; isMovingDown := isMovingDown r |}.

Definition set_isShooting (v : bool) (r : Ui) : Ui :=
  {| showLevelText := showLevelText r; gameOverFadeIn := gameOverFadeIn r;
     isMobile := isMobile r; isShooting := v; isMovingLeft := isMovingLeft r;
     isMovingRight := isMovingRight r; isMovingUp := isMovingUp r;
     isMovingDown := isMovingDown r |}.

Definition set_isMovingLeft (v : bool) (r : Ui) : Ui :=
  {| showLevelText := showLevelText r; gameOverFadeIn := gameOverFadeIn r;
     isMobile := isMobile r; isShooting := isShooting r; isMovingLeft := v;
     isMovingRight := isMovingRight r; isMovingUp := isMovingUp r;
     isMovingDown := isMovingDown r |}.

Definition set_isMovingRight (v : bool) (r : Ui) : Ui :=
  {| showLevelText := showLevelText r; gameOverFadeIn := gameOverFadeIn r;
     isMobile := isMobile r; isShooting := isShooting r;
     isMovingLeft := isMovingLeft r; isMovingRight := v;
     isMovingUp := isMovingUp r; isMovingDown := isMovingDown r |}.

Definition set_isMovingUp (v : bool) (r : Ui) : Ui :=
  {| showLevelText := showLevelText r; gameOverFadeIn := gameOverFadeIn r;
     isMobile := isMobile r; isShooting := isShooting r;
     isMovingLeft := isMovingLeft r; isMovingRight := isMovingRight r;
     isMovingUp := v; isMovingDown := isMovingDown r |}.

Definition set_isMovingDown (v : bool) (r : Ui) : Ui :=
  {| showLevelText := showLevelText r; gameOverFadeIn := gameOverFadeIn r;
     isMobile := isMobile r; isShooting := isShooting r;
     isMovingLeft := isMovingLeft r; isMovingRight := isMovingRight r;
     isMovingUp := isMovingUp r; isMovingDown := v |}.

(** A callback handed to [setTimeout], named after the place that arms it.
    A callback that reads [gameState] carries the value its closure
    captured. *)
Inductive Callback :=
| CbNextWave (level waveNumber : Z)
| CbCheckLastWave (level : Z)
| CbFirstWave (level : Z)
| CbLevelInit (nextLevel : Z)
| CbLevelSpawn (nextLevel : Z)
| CbHideLevelText
| CbEnableProgression
| CbNewGameStart (closure : GameState)
| CbLevelProgress (closure : GameState)
| CbObserverConfirm (closure : GameState)
| CbGameOverFade
| CbExplosionRemove (object : nat).

(** A pending timer: its handle, the time at which it is due, its
    callback. *)
Record Timer := mkTimer {
  handle : positive;
  due : Z;
  callback : Callback
}.

(** The [useRef] cells. *)
Record Refs := mkRefs {
  enemiesRef : list Enemy.t;
  keysPressed : list string;
  waveTimeoutRef : option positive;
  currentWaveRef : Z;
  difficultyConfigRef : DifficultyConfig;
  gameJustStartedRef : bool;
  enableProgressionTimerRef : option positive;
  prevDirectionRef : option string;
  gameOverTimeoutRef : option positive;
  levelProgressTimeoutRef : option positive
}.

Definition set_enemiesRef (v : list Enemy.t) (r : Refs) : Refs :=
  {| enemiesRef := v; keysPressed := keysPressed r;
     waveTimeoutRef := waveTimeoutRef r; currentWaveRef := currentWaveRef r;
     difficultyConfigRef := difficultyConfigRef r;
     gameJustStartedRef := gameJustStartedRef r;
     enableProgressionTimerRef := enableProgressionTimerRef r;
     prevDirectionRef := prevDirectionRef r;
     gameOverTimeoutRef := gameOverTimeoutRef r;
     levelProgressTimeoutRef := levelProgressTimeoutRef r |}.

Definition set_keysPressed (v : list string) (r : Refs) : Refs :=
  {| enemiesRef := enemiesRef r; keysPressed := v;
     waveTimeoutRef := waveTimeoutRef r; currentWaveRef := currentWaveRef r;
     difficultyConfigRef := difficultyConfigRef r;
     gameJustStartedRef := gameJustStartedRef r;
     enableProgressionTimerRef := enableProgressionTimerRef r;
     prevDirectionRef := prevDirectionRef r;
     gameOverTimeoutRef := gameOverTimeoutRef r;
     levelProgressTimeoutRef := levelProgressTimeoutRef r |}.

Definition set_waveTimeoutRef (v : option positive) (r : Refs) : Refs :=
  {| enemiesRef := enemiesRef r; keysPressed := keysPressed r;
     waveTimeoutRef := v; currentWaveRef := currentWaveRef r;
     difficultyConfigRef := difficultyConfigRef r;
     gameJustStartedRef := gameJustStartedRef r;
     enableProgressionTimerRef := enableProgressionTimerRef r;
     prevDirectionRef := prevDirectionRef r;
     gameOverTimeoutRef := gameOverTimeoutRef r;
     levelProgressTimeoutRef := levelProgressTimeoutRef r |}.

Definition set_currentWaveRef (v : Z) (r : Refs) : Refs :=
  {| enemiesRef := enemiesRef r; keysPressed := keysPressed r;
     waveTimeoutRef := waveTimeoutRef r; currentWaveRef := v;
     difficultyConfigRef := difficultyConfigRef r;
     gameJustStartedRef := gameJustStartedRef r;
     enableProgressionTimerRef := enableProgressionTimerRef r;
     prevDirectionRef := prevDirectionRef r;
     gameOverTimeoutRef := gameOverTimeoutRef r;
     levelProgressTimeoutRef := levelProgressTimeoutRef r |}.

Definition set_difficultyConfigRef (v : DifficultyConfig) (r : Refs) : Refs :=
  {| enemiesRef := enemiesRef r; keysPressed := keysPressed r;
     waveTimeoutRef := waveTimeoutRef r; currentWaveRef := currentWaveRef r;
     difficultyConfigRef := v; gameJustStartedRef := gameJustStartedRef r;
     enableProgressionTimerRef := enableProgressionTimerRef r;
     prevDirectionRef := prevDirectionRef r;
     gameOverTimeoutRef := gameOverTimeoutRef r;
     levelProgressTimeoutRef := levelProgressTimeoutRef r |}.

Definition set_gameJustStartedRef (v : bool) (r : Refs) : Refs :=
  {| enemiesRef := enemiesRef r; keysPressed := keysPressed r;
     waveTimeoutRef := waveTimeoutRef r; currentWaveRef := currentWaveRef r;
     difficultyConfigRef := difficultyConfigRef r; gameJustStartedRef := v;
     enableProgressionTimerRef := enableProgressionTimerRef r;
     prevDirectionRef := prevDirectionRef r;
     gameOverTimeoutRef := gameOverTimeoutRef r;
     levelProgressTimeoutRef := levelProgressTimeoutRef r |}.

Definition set_enableProgressionTimerRef (v : option positive) (r : Refs) : Refs :=
  {| enemiesRef := enemiesRef r; keysPressed := keysPressed r;
     waveTimeoutRef := waveTimeoutRef r; currentWaveRef := currentWaveRef r;
     difficultyConfigRef := difficultyConfigRef r;
     gameJustStartedRef := gameJustStartedRef r;
     enableProgressionTimerRef := v; prevDirectionRef := prevDirectionRef r;
     gameOverTimeoutRef := gameOverTimeoutRef r;
     levelProgressTimeoutRef := levelProgressTimeoutRef r |}.

Definition set_prevDirectionRef (v : option string) (r : Refs) : Refs :=
  {| enemiesRef := enemiesRef r; keysPressed := keysPressed r;
     waveTimeoutRef := waveTimeoutRef r; currentWaveRef := currentWaveRef r;
     difficultyConfigRef := difficultyConfigRef r;
     gameJustStartedRef := gameJustStartedRef r;
     enableProgressionTimerRef := enableProgressionTimerRef r;
     prevDirectionRef := v; gameOverTimeoutRef := gameOverTimeoutRef r;
     levelProgressTimeoutRef := levelProgressTimeoutRef r |}.

Definition set_gameOverTimeoutRef (v : option positive) (r : Refs) : Refs :=
  {| enemiesRef := enemiesRef r; keysPressed := keysPressed r;
     waveTimeoutRef := waveTimeoutRef r; currentWaveRef := currentWaveRef r;
     difficultyConfigRef := difficultyConfigRef r;
     gameJustStartedRef := gameJustStartedRef r;
     enableProgressionTimerRef := enableProgressionTimerRef r;
     prevDirectionRef := prevDirectionRef r; gameOverTimeoutRef := v;
     levelProgressTimeoutRef := levelProgressTimeoutRef r |}.

Definition set_levelProgressTimeoutRef (v : option positive) (r : Refs) : Refs :=
  {| enemiesRef := enemiesRef r; keysPressed := keysPressed r;
     waveTimeoutRef := waveTimeoutRef r; currentWaveRef := currentWaveRef r;
     difficultyConfigRef := difficultyConfigRef r;
     gameJustStartedRef := gameJustStartedRef r;
     enableProgressionTimerRef := enableProgressionTimerRef r;
     prevDirectionRef := prevDirectionRef r;
     gameOverTimeoutRef := gameOverTimeoutRef r;
     levelProgressTimeoutRef := v |}.

(** The variables local to the main effect (Game.tsx lines 638-1325): they
    are created afresh each time the effect runs.  [loopState] and [loopUi]
    are the [gameState] and the input flags that the closures of that run
    see; [animationFrameId] tells whether a frame is requested. *)
Record Loop := mkLoop {
  loopState : GameState;
  loopUi : Ui;
  player : Player.t;
  bullets : list Bullet.t;
  powerUps : list PowerUp.t;
  particles : list Particle.t;
  explosions : list ExplosionGIF.t;
  lastShot : Z;
  isGameOverSoundPlayed : bool;
  animationFrameId : bool
}.

Definition set_loopState (v : GameState) (r : Loop) : Loop :=
  {| loopState := v; loopUi := loopUi r; player := player r;
     bullets := bullets r; powerUps := powerUps r; particles := particles r;
     explosions := explosions r; lastShot := lastShot r;
     isGameOverSoundPlayed := isGameOverSoundPlayed r;
     animationFrameId := animationFrameId r |}.

Definition set_loopUi (v : Ui) (r : Loop) : Loop :=
  {| loopState := loopState r; loopUi := v; player := player r;
     bullets := bullets r; powerUps := powerUps r; particles := particles r;
     explosions := explosions r; lastShot := lastShot r;
     isGameOverSoundPlayed := isGameOverSoundPlayed r;
     animationFrameId := animationFrameId r |}.

Definition set_player (v : Player.t) (r : Loop) : Loop :=
  {| loopState := loopState r; loopUi := loopUi r; player := v;
     bullets := bullets r; powerUps := powerUps r; particles := particles r;
     explosions := explosions r; lastShot := lastShot r;
     isGameOverSoundPlayed := isGameOverSoundPlayed r;
     animationFrameId := animationFrameId r |}.

Definition set_bullets (v : list Bullet.t) (r : Loop) : Loop :=
  {| loopState := loopState r; loopUi := loopUi r; player := player r;
     bullets := v; powerUps := powerUps r; particles := particles r;
     explosions := explosions r; lastShot := lastShot r;
     isGameOverSoundPlayed := isGameOverSoundPlayed r;
     animationFrameId := animationFrameId r |}.

Definition set_powerUps (v : list PowerUp.t) (r : Loop) : Loop :=
  {| loopState := loopState r; loopUi := loopUi r; player := player r;
     bullets := bullets r; powerUps := v; particles := particles r;
     explosions := explosions r; lastShot := lastShot r;
     isGameOverSoundPlayed := isGameOverSoundPlayed r;
     animationFrameId := animationFrameId r |}.

Definition set_particles (v : list Particle.t) (r : Loop) : Loop :=
  {| loopState := loopState r; loopUi := loopUi r; player := player r;
     bullets := bullets r; powerUps := powerUps r; particles := v;
     explosions := explosions r; lastShot := lastShot r;
     isGameOverSoundPlayed := isGameOverSoundPlayed r;
     animationFrameId := animationFrameId r |}.

Definition set_explosions (v : list ExplosionGIF.t) (r : Loop) : Loop :=
  {| loopState := loopState r; loopUi := loopUi r; player := player r;
     bullets := bullets r; powerUps := powerUps r; particles := particles r;
     explosions := v; lastShot := lastShot r;
     isGameOverSoundPlayed := isGameOverSoundPlayed r;
     animationFrameId := animationFrameId r |}.

Definition set_lastShot (v : Z) (r : Loop) : Loop :=
  {| loopState := loopState r; loopUi := loopUi r; player := player r;
     bullets := bullets r; powerUps := powerUps r; particles := particles r;
     explosions := explosions r; lastShot := v;
     isGameOverSoundPlayed := isGameOverSoundPlayed r;
     animationFrameId := animationFrameId r |}.

Definition set_isGameOverSoundPlayed (v : bool) (r : Loop) : Loop :=
  {| loopState := loopState r; loopUi := loopUi r; player := player r;
     bullets := bullets r; powerUps := powerUps r; particles := particles r;
     explosions := explosions r; lastShot := lastShot r;
     isGameOverSoundPlayed := v; animationFrameId := animationFrameId r |}.

Definition set_animationFrameId (v : bool) (r : Loop) : Loop :=
  {| loopState := loopState r; loopUi := loopUi r; player := player r;
     bullets := bullets r; powerUps := powerUps r; particles := particles r;
     explosions := explosions r; lastShot := lastShot r;
     isGameOverSoundPlayed := isGameOverSoundPlayed r;
     animationFrameId := v |}.

(** The whole component.  [gameState] is the state after all updates queued
    so far; [rendered] is the state of the last render, which is what a
    function created by that render reads; [observerState] is the state seen
    by the closure of the 500 ms observer. *)
Record World := mkWorld {
  gameState : GameState;
  ui : Ui;
  refs : Refs;
  loop : Loop;
  rendered : GameState;
  renderedUi : Ui;
  observerState : GameState;
  timers : list Timer;
  nextTimer : positive;
  savedLevel : option Z;
  rng : nat;
  nextObject : nat
}.

Definition set_gameState (v : GameState) (r : World) : World :=
  {| gameState := v; ui := ui r; refs := refs r; loop := loop r;
     rendered := rendered r; renderedUi := renderedUi r;
     observerState := observerState r; timers := timers r;
     nextTimer := nextTimer r; savedLevel := savedLevel r; rng := rng r;
     nextObject := nextObject r |}.

Definition set_ui (v : Ui) (r : World) : World :=
  {| gameState := gameState r; ui := v; refs := refs r; loop := loop r;
     rendered := rendered r; renderedUi := renderedUi r;
     observerState := observerState r; timers := timers r;
     nextTimer := nextTimer r; savedLevel := savedLevel r; rng := rng r;
     nextObject := nextObject r |}.

Definition set_refs (v : Refs) (r : World) : World :=
  {| gameState := gameState r; ui := ui r; refs := v; loop := loop r;
     rendered := rendered r; renderedUi := renderedUi r;
     observerState := observerState r; timers := timers r;
     nextTimer := nextTimer r; savedLevel := savedLevel r; rng := rng r;
     nextObject := nextObject r |}.

Definition set_loop (v : Loop) (r : World) : World :=
  {| gameState := gameState r; ui := ui r; refs := refs r; loop := v;
     rendered := rendered r; renderedUi := renderedUi r;
     observerState := observerState r; timers := timers r;
     nextTimer := nextTimer r; savedLevel := savedLevel r; rng := rng r;
     nextObject := nextObject r |}.

Definition set_rendered (v : GameState) (r : World) : World :=
  {| gameState := gameState r; ui := ui r; refs := refs r; loop := loop r;
     rendered := v; renderedUi := renderedUi r;
     observerState := observerState r; timers := timers r;
     nextTimer := nextTimer r; savedLevel := savedLevel r; rng := rng r;
     nextObject := nextObject r |}.

Definition set_renderedUi (v : Ui) (r : World) : World :=
  {| gameState := gameState r; ui := ui r; refs := refs r; loop := loop r;
     rendered := rendered r; renderedUi := v;
     observerState := observerState r; timers := timers r;
     nextTimer := nextTimer r; savedLevel := savedLevel r; rng := rng r;
     nextObject := nextObject r |}.

Definition set_observerState (v : GameState) (r : World) : World :=
  {| gameState := gameState r; ui := ui r; refs := refs r; loop := loop r;
     rendered := rendered r; renderedUi := renderedUi r; observerState := v;
     timers := timers r; nextTimer := nextTimer r;
     savedLevel := savedLevel r; rng := rng r; nextObject := nextObject r |}.

Definition set_timers (v : list Timer) (r : World) : World :=
  {| gameState := gameState r; ui := ui r; refs := refs r; loop := loop r;
     rendered := rendered r; renderedUi := renderedUi r;
     observerState := observerState r; timers := v; nextTimer := nextTimer r;
     savedLevel := savedLevel r; rng := rng r; nextObject := nextObject r |}.

Definition set_nextTimer (v : positive) (r : World) : World :=
  {| gameState := gameState r; ui := ui r; refs := refs r; loop := loop r;
     rendered := rendered r; renderedUi := renderedUi r;
     observerState := observerState r; timers := timers r; nextTimer := v;
     savedLevel := savedLevel r; rng := rng r; nextObject := nextObject r |}.

Definition set_savedLevel (v : option Z) (r : World) : World :=
  {| gameState := gameState r; ui := ui r; refs := refs r; loop := loop r;
     rendered := rendered r; renderedUi := renderedUi r;
     observerState := observerState r; timers := timers r;
     nextTimer := nextTimer r; savedLevel := v; rng := rng r;
     nextObject := nextObject r |}.

Definition set_rng (v : nat) (r : World) : World :=
  {| gameState := gameState r; ui := ui r; refs := refs r; loop := loop r;
     rendered := rendered r; renderedUi := renderedUi r;
     observerState := observerState r; timers := timers r;
     nextTimer := nextTimer r; savedLevel := savedLevel r; rng := v;
     nextObject := nextObject r |}.

Definition set_nextObject (v : nat) (r : World) : World :=
  {| gameState := gameState r; ui := ui r; refs := refs r; loop := loop r;
     rendered := rendered r; renderedUi := renderedUi r;
     observerState := observerState r; timers := timers r;
     nextTimer := nextTimer r; savedLevel := savedLevel r; rng := rng r;
     nextObject := v |}.

Definition upd_refs (f : Refs -> Refs) (w : World) : World :=
  set_refs (f (refs w)) w.

Definition upd_loop (f : Loop -> Loop) (w : World) : World :=
  set_loop (f (loop w)) w.

Definition upd_ui (f : Ui -> Ui) (w : World) : World :=
  set_ui (f (ui w)) w.

(** [setGameState(prev => ...)]: updaters are applied in the order in which
    they are queued. *)
Definition setGameState (f : GameState -> GameState) (w : World) : World :=
  set_gameState (f (gameState w)) w.

(** The state built by the initialiser of [useState].  The callbacks wrapped
    in [useCallback] with an empty dependency list ([spawnEnemyWave],
    [handleLevelComplete]) are the functions created by the first render, so
    [gameState] inside them is this value for the life of the component. *)
Definition initialGameState : GameState :=
  {| score := 0; isGameOver := false; isPaused := false;
     health := INITIAL_HEALTH; victory := false; level := 1 |}.

Definition mountState : GameState := initialGameState.

(** *** Timers *)

Definition setTimeout (cb : Callback) (delay : Z) (now : Z) (w : World)
    : positive * World :=
  let id := nextTimer w in
  let t := {| handle := id; due := (now + delay)%Z; callback := cb |} in
  (id, set_nextTimer (Pos.succ id) (set_timers (timers w ++ [t]) w)).

Definition clearTimeout (id : positive) (w : World) : World :=
  set_timers (filter (fun t => handle t <> id) (timers w)) w.

(** [Math.random()]. *)
Definition random {rt : Runtime} (w : World) : Q * World :=
  (Math_random (rng w), set_rng (S (rng w)) w).

(** *** Array iteration *)

(** [a.forEach(f)] where [f] may remove elements of [a]: the indices
    [0 .. length-1] of the array at the start are visited in order, and an
    index that no longer exists when its turn comes is skipped. *)
Fixpoint forEachFrom {S A : Type} (get : S -> list A) (f : A -> nat -> S -> S)
    (count index : nat) (s : S) : S :=
  match count with
  | O => s
  | Datatypes.S count' =>
      let s' := match get s !! index with
                | Some a => f a index s
                | None => s
                end in
      forEachFrom get f count' (Datatypes.S index) s'
  end.

Definition forEach {S A : Type} (get : S -> list A) (f : A -> nat -> S -> S)
    (s : S) : S :=
  forEachFrom get f (length (get s)) 0 s.

(** [for (let i = n - 1; i >= 0; i--) body(i)], where [body] returns [true]
    to leave the loop ([break]). *)
Fixpoint forDown {S : Type} (body : nat -> S -> bool * S) (n : nat) (s : S) : S :=
  match n with
  | O => s
  | Datatypes.S i =>
      let '(stop, s') := body i s in
      if stop then s' else forDown body i s'
  end.

(** [for (let i = 0; i < n; i++) body(i)]. *)
Fixpoint forUpFrom {S : Type} (body : nat -> S -> S) (count index : nat) (s : S) : S :=
  match count with
  | O => s
  | Datatypes.S count' => forUpFrom body count' (Datatypes.S index) (body index s)
  end.

Definition forUp {S : Type} (body : nat -> S -> S) (n : nat) (s : S) : S :=
  forUpFrom body n 0 s.

(** [a[i]] for a computed index: [undefined] outside the array. *)
Definition jsIndex {A : Type} (a : list A) (i : Z) : option A :=
  if (i <? 0)%Z then None else a !! Z.to_nat i.

(** Truthiness of a timer handle kept in a ref: [null] is falsy, a handle is
    a positive number. *)
Definition truthy (h : option positive) : bool :=
  match h with
  | Some _ => true
  | None => false
  end.

(** ** Level progression and the wave spawner (Game.tsx) *)

Definition saveGameProgress (level : Z) (w : World) : World :=
  set_savedLevel (Some level) w.

Definition clearGameProgress (w : World) : World :=
  set_savedLevel None w.

(** The formation layouts of [createFormation]. *)
Inductive Formation :=
| linear | v_shape | arc | zigzag | diamond | random_formation.

Definition formationTypes : list Formation :=
  [linear; v_shape; arc; zigzag; diamond; random_formation].

Section Progression.
Context {rt : Runtime}.

(** [handleLevelComplete], Game.tsx lines 1381-1476.  The callback is
    memoised with an empty dependency list, so its [gameState] is
    [mountState]. *)
Definition handleLevelComplete (now : Z) (nextLevel : Z) (w : World) : World :=
  if gameJustStartedRef (refs w) then w
  else if victory mountState then w
  else
    let w := saveGameProgress nextLevel w in
    let w := match levelProgressTimeoutRef (refs w) with
             | Some id =>
                 upd_refs (set_levelProgressTimeoutRef None) (clearTimeout id w)
             | None => w
             end in
    let w := match waveTimeoutRef (refs w) with
             | Some id => upd_refs (set_waveTimeoutRef None) (clearTimeout id w)
             | None => w
             end in
    let w := upd_ui (set_showLevelText true) w in
    let w := setGameState
               (fun prev => set_victory true (set_level nextLevel prev)) w in
    snd (setTimeout (CbLevelInit nextLevel) 2500 now w).

(** [spawnEnemy], Game.tsx lines 426-459. *)
Definition spawnEnemy (col row : Q) (level : Z) (totalEnemies : Z) (w : World)
    : World :=
  let config := difficultyConfigRef (refs w) in
  let '(r, w) := random w in
  let type :=
    if Qltb r (shooterProbability config) then SHOOTER
    else if Qltb r (shooterProbability config + tankProbability config)
    then TANK
    else if Qltb r (shooterProbability config + tankProbability config
                    + fastProbability config)
    then FAST
    else BASIC in
  let enemy :=
    Enemy.new (80 + col * (GAME_WIDTH - 160) / (inject_Z totalEnemies - 1))
              (60 + row * 60) type level in
  let enemy :=
    Enemy.set_health (Enemy.health enemy * enemyHealthMultiplier config)%Z enemy in
  let enemy :=
    Enemy.set_speed (Enemy.speed enemy * enemySpeedMultiplier config) enemy in
  let enemy :=
    Enemy.set_shootProbability
      (Enemy.shootProbability enemy * fireRateMultiplier config) enemy in
  let enemy := Enemy.set_dropPowerUpChance (powerUpChance config) enemy in
  let '(enemy, w) :=
    if divingEnemies config then
      let '(r2, w) := random w in
      if Qltb r2 0.2 then (Enemy.set_diveAtPlayer true enemy, w)
      else (enemy, w)
    else (enemy, w) in
  upd_refs (fun r => set_enemiesRef (enemiesRef r ++ [enemy]) r) w.

(** The column index of a loop as a number. *)
Definition colQ (col : nat) : Q := inject_Z (Z.of_nat col).

(** One row of the diamond: the running [diamondIndex] is threaded along. *)
Definition diamondRow (enemyCount : Z) (startRow : Z) (level : Z)
    (diamondSize : Z) (row : nat) (st : Z * World) : Z * World :=
  let rowZ := Z.of_nat row in
  let rowWidth := if (rowZ <? diamondSize)%Z then (rowZ + 1)%Z
                  else (diamondSize * 2 - rowZ - 1)%Z in
  forUp (fun i '(diamondIndex, w) =>
           if (diamondIndex <? enemyCount)%Z then
             let xOffset := (colQ i - (inject_Z rowWidth - 1) / 2) * 1.5 in
             let w := spawnEnemy (inject_Z enemyCount / 2 + xOffset)
                                 (inject_Z startRow + inject_Z rowZ * 0.8)
                                 level enemyCount w in
             ((diamondIndex + 1)%Z, w)
           else (diamondIndex, w))
        (Z.to_nat rowWidth) st.

(** [createFormation], Game.tsx lines 276-360. *)
Definition createFormation (formation : Formation) (enemyCount : Z)
    (startRow : Z) (level : Z) (w : World) : World :=
  let n := Z.to_nat enemyCount in
  let w :=
    match formation with
    | linear =>
        forUp (fun col w => spawnEnemy (colQ col) (inject_Z startRow)
                                       level enemyCount w) n w
    | v_shape =>
        forUp (fun col w =>
                 let offset := Qabs (colQ col - inject_Z enemyCount / 2) * 0.7 in
                 spawnEnemy (colQ col) (inject_Z startRow + offset)
                            level enemyCount w) n w
    | arc =>
        forUp (fun col w =>
                 let angle := (colQ col / (inject_Z enemyCount - 1)) * Math_PI in
                 let offsetY := Math_sin angle * 2 in
                 spawnEnemy (colQ col) (inject_Z startRow + offsetY)
                            level enemyCount w) n w
    | zigzag =>
        forUp (fun col w =>
                 let offset := inject_Z (Z.of_nat col mod 2) * 1.5 in
                 spawnEnemy (colQ col) (inject_Z startRow + offset)
                            level enemyCount w) n w
    | diamond =>
        let diamondSize := Z.min 4 (Qfloor (inject_Z enemyCount / 3)) in
        snd (forUp (diamondRow enemyCount startRow level diamondSize)
                   (Z.to_nat (diamondSize * 2 - 1)) (0%Z, w))
    | random_formation =>
        forUp (fun col w =>
                 let '(r1, w) := random w in
                 let randomX := r1 * 0.8 + 0.1 in
                 let '(r2, w) := random w in
                 let randomY := r2 * 1.5 in
                 spawnEnemy (randomX * (inject_Z enemyCount - 1))
                            (inject_Z startRow + randomY)
                            level enemyCount w) n w
    end in
  setGameState (fun prev => prev) w.

(** The choice of the formation in [spawnEnemyWave], lines 362-382.  An index
    outside [availableFormations] gives [undefined], which the [switch] of
    [createFormation] sends to its default case. *)
Definition chooseFormation (level : Z) (w : World) : Formation * World :=
  let availableFormations :=
    take (Z.to_nat (Z.min (Z.of_nat (length formationTypes))
                          (1 + Qfloor (inject_Z level / 2))))
         formationTypes in
  let pick (w : World) :=
    let '(r, w) := random w in
    (default random_formation
       (jsIndex availableFormations
          (Qfloor (r * inject_Z (Z.of_nat (length availableFormations))))),
     w) in
  if (currentWaveRef (refs w) =? 0)%Z then
    if (level =? 1)%Z then (linear, w) else pick w
  else pick w.

(** [spawnEnemyWave], Game.tsx lines 252-424. *)
Definition spawnEnemyWave (now : Z) (level waveNumber : Z) (w : World) : World :=
  let config := difficultyConfigRef (refs w) in
  if (maxWaves config <=? waveNumber)%Z then
    if (length (enemiesRef (refs w)) =? 0)%nat
       && negb (victory mountState)
       && negb (gameJustStartedRef (refs w))
    then handleLevelComplete now (level + 1) w
    else w
  else
    let w := upd_refs (set_currentWaveRef waveNumber) w in
    let startRow := waveNumber in
    let enemiesInThisWave := baseEnemiesPerWave config in
    let '(formationType, w) := chooseFormation level w in
    let adjustedEnemyCount :=
      if (waveNumber =? 0)%Z && (level =? 1)%Z then 5%Z
      else enemiesInThisWave in
    let w := createFormation formationType adjustedEnemyCount startRow level w in
    if (waveNumber <? maxWaves config - 1)%Z then
      let w := match waveTimeoutRef (refs w) with
               | Some id => upd_refs (set_waveTimeoutRef None) (clearTimeout id w)
               | None => w
               end in
      let '(id, w) :=
        setTimeout (CbNextWave level (waveNumber + 1)) (waveDelay config) now w in
      upd_refs (set_waveTimeoutRef (Some id)) w
    else
      snd (setTimeout (CbCheckLastWave level) 2000 now w).

(** [initializeLevel], Game.tsx lines 463-497. *)
Definition initializeLevel (now : Z) (level : Z) (w : World) : World :=
  let w := match waveTimeoutRef (refs w) with
           | Some id => upd_refs (set_waveTimeoutRef None) (clearTimeout id w)
           | None => w
           end in
  let w := upd_refs (set_currentWaveRef 0%Z) w in
  let w := upd_refs (set_enemiesRef []) w in
  let w := upd_refs (set_difficultyConfigRef (getDifficultyConfig level)) w in
  let w := setGameState (fun prev => set_victory false prev) w in
  snd (setTimeout (CbFirstWave level) 0 now w).

(** [startNewGame], Game.tsx lines 500-603.  The function is created by
    every render, so the [gameState] read by its delayed callback is that of
    the last render. *)
Definition startNewGame (now : Z) (w : World) : World :=
  let w := upd_refs (set_gameJustStartedRef true) w in
  let w := clearGameProgress w in
  let w := match waveTimeoutRef (refs w) with
           | Some id => upd_refs (set_waveTimeoutRef None) (clearTimeout id w)
           | None => w
           end in
  let w := match levelProgressTimeoutRef (refs w) with
           | Some id =>
               upd_refs (set_levelProgressTimeoutRef None) (clearTimeout id w)
           | None => w
           end in
  let w := match gameOverTimeoutRef (refs w) with
           | Some id => upd_refs (set_gameOverTimeoutRef None) (clearTimeout id w)
           | None => w
           end in
  let w := upd_refs (set_enemiesRef []) w in
  let w := upd_refs (set_currentWaveRef 0%Z) w in
  let w := upd_refs (set_prevDirectionRef None) w in
  let w := upd_refs (set_difficultyConfigRef (getDifficultyConfig 1)) w in
  let w := upd_ui (set_gameOverFadeIn false) w in
  let w := upd_ui (set_showLevelText false) w in
  let w := upd_ui (set_isShooting false) w in
  let w := upd_ui (set_isMovingLeft false) w in
  let w := upd_ui (set_isMovingRight false) w in
  let w := upd_ui (set_isMovingUp false) w in
  let w := upd_ui (set_isMovingDown false) w in
  let w := setGameState
             (fun _ => {| score := 0; isGameOver := false; isPaused := false;
                          health := INITIAL_HEALTH; victory := false;
                          level := 1 |}) w in
  snd (setTimeout (CbNewGameStart (rendered w)) 100 now w).

(** The callback armed by [startNewGame] (lines 566-602). *)
Definition newGameStart (now : Z) (closure : GameState) (w : World) : World :=
  let w := if negb (level closure =? 1)%Z
           then setGameState (fun prev => set_level 1 prev) w
           else w in
  let w := upd_refs (set_currentWaveRef 0%Z) w in
  let w := spawnEnemyWave now 1 0 w in
  snd (setTimeout CbEnableProgression 3000 now w).

End Progression.

(** ** The game loop (Game.tsx lines 808-1132) *)

Section GameLoop.
Context {rt : Runtime}.

(** [createExplosion]: ten particles. *)
Definition pushParticle (x y : Q) (color : string) (w : World) : World :=
  let '(p, r) := Particle.new x y color (rng w) in
  upd_loop (fun l => set_particles (particles l ++ [p]) l) (set_rng r w).

Definition createExplosion (x y : Q) (color : string) (w : World) : World :=
  forUp (fun _ w => pushParticle x y color w) 10 w.

(** [createGIFExplosion]; the constructor of the explosion arms its own
    removal timer. *)
Definition createGIFExplosion (x y : Q) (type : ExplosionType) (now : Z)
    (w : World) : World :=
  let '(e, delay, r) :=
    match type with
    | ExPlayer => ExplosionGIF.createForPlayer x y now (nextObject w) (rng w)
    | ExTankEnemy =>
        ExplosionGIF.createForEnemy x y (Some TANK) now (nextObject w) (rng w)
    | ExRegularEnemy =>
        ExplosionGIF.createForEnemy x y None now (nextObject w) (rng w)
    end in
  let w := set_rng r (set_nextObject (S (nextObject w)) w) in
  let w := snd (setTimeout (CbExplosionRemove (ExplosionGIF.id e)) delay now w) in
  upd_loop (fun l => set_explosions (explosions l ++ [e]) l) w.

Definition updPlayer (f : Player.t -> Player.t) (w : World) : World :=
  upd_loop (fun l => set_player (f (player l)) l) w.

Definition keyDown (code : string) (w : World) : bool :=
  existsb (String.eqb code) (keysPressed (refs w)).

Definition playerShoots (now : Z) (w : World) : World :=
  let shot := Player.shoot (player (loop w)) in
  let w := upd_loop (fun l => set_bullets (bullets l ++ shot) l) w in
  upd_loop (set_lastShot now) w.

(** [handlePlayerMovement], lines 718-764. *)
Definition handlePlayerMovement (now : Z) (w : World) : World :=
  let u := loopUi (loop w) in
  if isMobile u then
    let w := if isMovingLeft u then updPlayer Player.moveLeft w else w in
    let w := if isMovingRight u then updPlayer Player.moveRight w else w in
    let w := if isMovingUp u then updPlayer Player.moveUp w else w in
    let w := if isMovingDown u then updPlayer Player.moveDown w else w in
    if isShooting u
       && (Player.fireRate (player (loop w)) <? now - lastShot (loop w))%Z
    then playerShoots now w else w
  else
    let w := if keyDown "ArrowLeft"%string w || keyDown "KeyA"%string w
             then updPlayer Player.moveLeft w else w in
    let w := if keyDown "ArrowRight"%string w || keyDown "KeyD"%string w
             then updPlayer Player.moveRight w else w in
    let w := if keyDown "ArrowUp"%string w || keyDown "KeyW"%string w
             then updPlayer Player.moveUp w else w in
    let w := if keyDown "ArrowDown"%string w || keyDown "KeyS"%string w
             then updPlayer Player.moveDown w else w in
    if keyDown "Space"%string w
       && (Player.fireRate (player (loop w)) <? now - lastShot (loop w))%Z
    then playerShoots now w else w.

Definition noEnemies (w : World) : bool :=
  (length (enemiesRef (refs w)) =? 0)%nat.

(** [checkForLevelCompletion], lines 845-942.  [gameState] is the state
    captured by the run of the main effect that created this loop. *)
Definition checkForLevelCompletion (now : Z) (w : World) : World :=
  let gs := loopState (loop w) in
  if gameJustStartedRef (refs w) then w
  else
    let isLastWaveComplete :=
      (maxWaves (difficultyConfigRef (refs w)) - 1 <=? currentWaveRef (refs w))%Z in
    if noEnemies w
       && negb (isPaused gs)
       && negb (isGameOver gs)
       && negb (victory gs)
       && negb (truthy (waveTimeoutRef (refs w)))
       && isLastWaveComplete
       && negb (gameJustStartedRef (refs w))
    then
      let nextLevel := (level gs + 1)%Z in
      handleLevelComplete now nextLevel w
    else if noEnemies w
            && negb (isPaused gs)
            && negb (isGameOver gs)
            && negb (victory gs)
            && negb (gameJustStartedRef (refs w))
    then
      if isLastWaveComplete then
        if negb (victory gs) then
          let nextLevel := (level gs + 1)%Z in
          handleLevelComplete now nextLevel w
        else w
      else
        match waveTimeoutRef (refs w) with
        | Some _ => w
        | None =>
            if negb (truthy (levelProgressTimeoutRef (refs w)))
               && negb (gameJustStartedRef (refs w))
            then
              let '(id, w) := setTimeout (CbLevelProgress gs) 1000 now w in
              upd_refs (set_levelProgressTimeoutRef (Some id)) w
            else w
        end
    else w.

(** The body of [enemiesRef.current.forEach], lines 948-955. *)
Definition enemyStep (now : Z) (enemy : Enemy.t) (index : nat) (w : World)
    : World :=
  let '(enemy, r) := Enemy.update now (rng w) enemy in
  let '(can, enemy, r) := Enemy.canShoot now r enemy in
  let w := set_rng r w in
  let w := upd_refs (fun rf => set_enemiesRef (<[index := enemy]> (enemiesRef rf)) rf) w in
  if can then
    let '(b, r) := Enemy.shoot (rng w) enemy in
    upd_loop (fun l => set_bullets (bullets l ++ [b]) l) (set_rng r w)
  else w.

(** The body of [powerUps.forEach], lines 958-972. *)
Definition powerUpStep (now : Z) (powerUp : PowerUp.t) (index : nat) (w : World)
    : World :=
  let powerUp := PowerUp.update powerUp in
  let w := upd_loop (fun l => set_powerUps (<[index := powerUp]> (powerUps l)) l) w in
  if Qgtb (PowerUp.y powerUp) GAME_HEIGHT then
    upd_loop (fun l => set_powerUps (delete index (powerUps l)) l) w
  else if PowerUp.checkCollision powerUp (player (loop w)) then
    let w := updPlayer (Player.activatePowerUp now (PowerUp.type powerUp)) w in
    let w := upd_loop (fun l => set_powerUps (delete index (powerUps l)) l) w in
    createExplosion (PowerUp.x powerUp) (PowerUp.y powerUp) (PowerUp.color powerUp) w
  else w.

(** The body of the explosions loop, lines 975-981. *)
Definition explosionStep (now : Z) (i : nat) (w : World) : bool * World :=
  match explosions (loop w) !! i with
  | Some e =>
      let e := ExplosionGIF.update now e in
      let w := upd_loop (fun l => set_explosions (<[i := e]> (explosions l)) l) w in
      if negb (ExplosionGIF.isActive e)
      then (false, upd_loop (fun l => set_explosions (delete i (explosions l)) l) w)
      else (false, w)
  | None => (false, w)
  end.

(** The body of [particles.forEach], lines 984-992.  The particle visited at
    [index] is a distinct object, so [particles.indexOf(particle)] is
    [index]. *)
Definition particleStep (particle : Particle.t) (index : nat) (w : World)
    : World :=
  let particle := Particle.update particle in
  let w := upd_loop (fun l => set_particles (<[index := particle]> (particles l)) l) w in
  if Qleb (Particle.life particle) 0
  then upd_loop (fun l => set_particles (delete index (particles l)) l) w
  else w.

(** The inner loop of lines 1048-1086: scanning from the end of the array,
    the first enemy bullet that the player bullet meets, with its index. *)
Fixpoint findBulletCollision (playerBullet : Bullet.t) (bs : list Bullet.t)
    (n : nat) : option (nat * Bullet.t) :=
  match n with
  | O => None
  | S enemyBulletIndex =>
      match bs !! enemyBulletIndex with
      | Some enemyBullet =>
          if negb (Bullet.isEnemyBullet playerBullet)
             && Bullet.isEnemyBullet enemyBullet
             && checkBulletCollision playerBullet enemyBullet
          then Some (enemyBulletIndex, enemyBullet)
          else findBulletCollision playerBullet bs enemyBulletIndex
      | None => findBulletCollision playerBullet bs enemyBulletIndex
      end
  end.

Definition spliceBullet (index : nat) (w : World) : World :=
  upd_loop (fun l => set_bullets (delete index (bullets l)) l) w.

(** What lines 1055-1083 do once a collision of two bullets is found. *)
Definition bulletHitsBullet (playerBullet : Bullet.t) (playerBulletIndex : nat)
    (enemyBullet : Bullet.t) (enemyBulletIndex : nat) (w : World) : World :=
  let bulletColor :=
    match Bullet.enemyType enemyBullet with
    | Some BASIC => "#FF8C00"%string
    | _ => "#00ff00"%string
    end in
  let collisionX := (Bullet.x playerBullet + Bullet.x enemyBullet) / 2 in
  let collisionY := (Bullet.y playerBullet + Bullet.y enemyBullet) / 2 in
  let w := forUp (fun _ w => pushParticle collisionX collisionY bulletColor w) 15 w in
  let w := spliceBullet enemyBulletIndex w in
  let w := spliceBullet playerBulletIndex w in
  setGameState (fun prev => set_score (score prev + 10)%Z prev) w.

(** The body of the loop over the enemies, lines 1089-1124. *)
Definition bulletVsEnemy (now : Z) (playerBullet : Bullet.t)
    (playerBulletIndex : nat) (i : nat) (w : World) : bool * World :=
  match enemiesRef (refs w) !! i with
  | Some enemy =>
      if Bullet.checkCollision playerBullet enemy then
        let w := spliceBullet playerBulletIndex w in
        let w := createExplosion (Enemy.x enemy + Enemy.width enemy / 2)
                                 (Enemy.y enemy + Enemy.height enemy / 2)
                                 (Enemy.color enemy) w in
        let '(destroyed, enemy) := Enemy.hit enemy in
        let w := upd_refs (fun rf => set_enemiesRef (<[i := enemy]> (enemiesRef rf)) rf) w in
        if destroyed then
          let w := createGIFExplosion
                     (Enemy.x enemy + Enemy.width enemy / 2)
                     (Enemy.y enemy + Enemy.height enemy / 2)
                     (if EnemyType_eqb (Enemy.type enemy) TANK
                      then ExTankEnemy else ExRegularEnemy) now w in
          let '(powerUp, r) := Enemy.dropPowerUp (rng w) enemy in
          let w := set_rng r w in
          let w := match powerUp with
                   | Some p => upd_loop (fun l => set_powerUps (powerUps l ++ [p]) l) w
                   | None => w
                   end in
          let w := upd_refs (fun rf => set_enemiesRef (delete i (enemiesRef rf)) rf) w in
          let w := setGameState (fun prev => set_score (score prev + 100)%Z prev) w in
          (true, w)
        else (false, w)
      else (false, w)
  | None => (false, w)
  end.

(** Lines 1008-1041: an enemy bullet has reached a player who is neither
    shielded nor invulnerable.  [gameState.health] is read from the closure
    of the loop, the updater works on the state it is given. *)
Definition enemyBulletHitsPlayer (now : Z) (playerBulletIndex : nat)
    (w : World) : World :=
  let p := player (loop w) in
  let w := spliceBullet playerBulletIndex w in
  let w := createExplosion (Player.x p + Player.width p / 2) (Player.y p)
                           "#ff0000"%string w in
  let w := updPlayer (Player.makeInvulnerable now) w in
  let newHealth := (health (loopState (loop w)) - 1)%Z in
  if (newHealth <=? 0)%Z then
    let w := createGIFExplosion (Player.x p + Player.width p / 2)
                                (Player.y p + Player.height p / 2)
                                ExPlayer now w in
    setGameState
      (fun prev => set_isGameOver true (set_health (health prev - 1)%Z prev)) w
  else
    setGameState
      (fun prev => set_isGameOver (health prev <=? 1)%Z
                     (set_health (health prev - 1)%Z prev)) w.

(** Lines 1044-1125: a player bullet is tested against the enemy bullets
    first, then against the enemies. *)
Definition playerBulletStep (now : Z) (playerBullet : Bullet.t)
    (playerBulletIndex : nat) (w : World) : World :=
  match findBulletCollision playerBullet (bullets (loop w))
                            (length (bullets (loop w))) with
  | Some (enemyBulletIndex, enemyBullet) =>
      bulletHitsBullet playerBullet playerBulletIndex
                       enemyBullet enemyBulletIndex w
  | None =>
      forDown (bulletVsEnemy now playerBullet playerBulletIndex)
              (length (enemiesRef (refs w))) w
  end.

(** The body of [bullets.forEach], lines 995-1126. *)
Definition bulletStep (now : Z) (playerBullet : Bullet.t)
    (playerBulletIndex : nat) (w : World) : World :=
  let playerBullet := Bullet.update playerBullet in
  let w := upd_loop (fun l => set_bullets (<[playerBulletIndex := playerBullet]> (bullets l)) l) w in
  if Qltb (Bullet.y playerBullet) 0 || Qgtb (Bullet.y playerBullet) GAME_HEIGHT
  then spliceBullet playerBulletIndex w
  else if Bullet.isEnemyBullet playerBullet then
    if negb (Player.invulnerable (player (loop w)))
       && negb (Player.hasShield (player (loop w)))
       && Bullet.checkCollision playerBullet (player (loop w))
    then enemyBulletHitsPlayer now playerBulletIndex w
    else w
  else playerBulletStep now playerBullet playerBulletIndex w.

(** The part of [gameLoop] that follows its two guards, lines 828-1131; it
    ends by requesting the next frame. *)
Definition frame (now : Z) (w : World) : World :=
  let w := handlePlayerMovement now w in
  let w := updPlayer (Player.update now) w in
  let w := checkForLevelCompletion now w in
  let w := forEach (fun w => enemiesRef (refs w)) (enemyStep now) w in
  let w := forEach (fun w => powerUps (loop w)) (powerUpStep now) w in
  let w := forDown (explosionStep now) (length (explosions (loop w))) w in
  let w := forEach (fun w => particles (loop w)) particleStep w in
  let w := forEach (fun w => bullets (loop w)) (bulletStep now) w in
  upd_loop (set_animationFrameId true) w.

(** [gameLoop], lines 808-1132. *)
Definition gameLoop (now : Z) (w : World) : World :=
  let gs := loopState (loop w) in
  if isPaused gs then w
  else if isGameOver gs then
    if negb (isGameOverSoundPlayed (loop w))
    then upd_loop (set_isGameOverSoundPlayed true) w
    else w
  else frame now w.

End GameLoop.

(** ** Timer callbacks, effects and events *)

Section React.
Context {rt : Runtime}.

(** The removal timer of an explosion acts on the object it was created
    for, wherever that object is. *)
Definition explosionRemove (object : nat) (w : World) : World :=
  upd_loop
    (fun l =>
       set_explosions
         (map (fun e => if (ExplosionGIF.id e =? object)%nat
                        then ExplosionGIF.remove e else e)
              (explosions l)) l) w.

(** What each timer callback does when it runs. *)
Definition runCallback (now : Z) (cb : Callback) (w : World) : World :=
  match cb with
  | CbNextWave level waveNumber => spawnEnemyWave now level waveNumber w
  | CbCheckLastWave level =>
      (* lines 412-417 *)
      if noEnemies w && negb (victory mountState)
      then handleLevelComplete now (level + 1) w
      else w
  | CbFirstWave level => spawnEnemyWave now level 0 w
  | CbLevelInit nextLevel =>
      (* lines 1431-1475 *)
      let w := upd_refs (set_currentWaveRef 0%Z) w in
      let w := upd_refs (set_enemiesRef []) w in
      let w := upd_refs (set_difficultyConfigRef (getDifficultyConfig nextLevel)) w in
      let w := snd (setTimeout (CbLevelSpawn nextLevel) 100 now w) in
      snd (setTimeout CbHideLevelText 150 now w)
  | CbLevelSpawn nextLevel =>
      (* lines 1451-1468 *)
      let w := spawnEnemyWave now nextLevel 0 w in
      setGameState (fun prev => set_victory false prev) w
  | CbHideLevelText => upd_ui (set_showLevelText false) w
  | CbEnableProgression => upd_refs (set_gameJustStartedRef false) w
  | CbNewGameStart closure => newGameStart now closure w
  | CbLevelProgress closure =>
      (* lines 919-938 *)
      let nextLevel := (level closure + 1)%Z in
      let w := if negb (victory closure) && negb (gameJustStartedRef (refs w))
               then handleLevelComplete now nextLevel w
               else w in
      upd_refs (set_levelProgressTimeoutRef None) w
  | CbObserverConfirm closure =>
      (* lines 1523-1535 *)
      if noEnemies w
         && negb (victory closure)
         && negb (isPaused closure)
         && negb (isGameOver closure)
         && negb (gameJustStartedRef (refs w))
      then handleLevelComplete now (level closure + 1) w
      else w
  | CbGameOverFade => upd_ui (set_gameOverFadeIn true) w
  | CbExplosionRemove object => explosionRemove object w
  end.

(** A pending timer that is due fires once. *)
Definition fireTimer (now : Z) (id : positive) (w : World) : World :=
  match List.find (fun t => Pos.eqb (handle t) id) (timers w) with
  | Some t =>
      if (due t <=? now)%Z
      then runCallback now (callback t) (clearTimeout id w)
      else w
  | None => w
  end.

(** The callback of [checkEnemiesInterval], lines 1481-1543. *)
Definition observerTick (now : Z) (w : World) : World :=
  let gs := observerState w in
  if isPaused gs || isGameOver gs || victory gs || gameJustStartedRef (refs w)
  then w
  else if noEnemies w then
    let isLastWave :=
      (maxWaves (difficultyConfigRef (refs w)) - 1 <=? currentWaveRef (refs w))%Z in
    let hasActiveWaveTimeout := truthy (waveTimeoutRef (refs w)) in
    if (isLastWave || negb hasActiveWaveTimeout)
       && negb (victory gs)
       && negb (truthy (levelProgressTimeoutRef (refs w)))
       && negb (gameJustStartedRef (refs w))
    then snd (setTimeout (CbObserverConfirm gs) 100 now w)
    else w
  else w.

(** *** Effects *)

(** Lines 184-186. *)
Definition difficultyEffect (w : World) : World :=
  upd_refs (set_difficultyConfigRef (getDifficultyConfig (level (rendered w)))) w.

(** The main effect, lines 638-1290, run for the render [rendered w]. *)
Definition mainEffect (now : Z) (w : World) : World :=
  let gs := rendered w in
  let w := set_loop
             {| loopState := gs; loopUi := renderedUi w;
                player := Player.new (GAME_WIDTH / 2) (GAME_HEIGHT - 50);
                bullets := []; powerUps := []; particles := [];
                explosions := []; lastShot := 0;
                isGameOverSoundPlayed := false; animationFrameId := false |} w in
  let w := match waveTimeoutRef (refs w) with
           | Some id => upd_refs (set_waveTimeoutRef None) (clearTimeout id w)
           | None => w
           end in
  let w := upd_refs (set_enemiesRef []) w in
  let w := upd_refs (set_gameJustStartedRef true) w in
  let initialLevel := level gs in
  let w := initializeLevel now initialLevel w in
  let '(id, w) := setTimeout CbEnableProgression 3000 now w in
  let w := upd_refs (set_enableProgressionTimerRef (Some id)) w in
  let w := gameLoop now w in
  initializeLevel now (level gs) w.

(** The cleanup of the main effect, lines 1292-1324. *)
Definition mainEffectCleanup (w : World) : World :=
  let w := upd_loop (set_animationFrameId false) w in
  let w := match enableProgressionTimerRef (refs w) with
           | Some id =>
               upd_refs (set_enableProgressionTimerRef None) (clearTimeout id w)
           | None => w
           end in
  let w := match waveTimeoutRef (refs w) with
           | Some id => upd_refs (set_waveTimeoutRef None) (clearTimeout id w)
           | None => w
           end in
  match levelProgressTimeoutRef (refs w) with
  | Some id => upd_refs (set_levelProgressTimeoutRef None) (clearTimeout id w)
  | None => w
  end.

(** The game-over effect, lines 1552-1573. *)
Definition gameOverEffect (now : Z) (w : World) : World :=
  if isGameOver (rendered w) then
    let w := match gameOverTimeoutRef (refs w) with
             | Some id => clearTimeout id w
             | None => w
             end in
    let '(id, w) := setTimeout CbGameOverFade 2000 now w in
    upd_refs (set_gameOverTimeoutRef (Some id)) w
  else upd_ui (set_gameOverFadeIn false) w.

Definition gameOverEffectCleanup (w : World) : World :=
  match gameOverTimeoutRef (refs w) with
  | Some id => clearTimeout id w
  | None => w
  end.

Definition Ui_inputs_eqb (a b : Ui) : bool :=
  Bool.eqb (isMobile a) (isMobile b)
  && Bool.eqb (isMovingLeft a) (isMovingLeft b)
  && Bool.eqb (isMovingRight a) (isMovingRight b)
  && Bool.eqb (isMovingUp a) (isMovingUp b)
  && Bool.eqb (isMovingDown a) (isMovingDown b)
  && Bool.eqb (isShooting a) (isShooting b).

(** A render of the component followed by its effects.  An effect runs when
    one of its dependencies differs from the previous render: first the
    cleanups, then the effect bodies, in the order of declaration. *)
Definition render (now : Z) (w : World) : World :=
  let old := rendered w in
  let oldUi := renderedUi w in
  let new := gameState w in
  let newUi := ui w in
  let w := set_renderedUi newUi (set_rendered new w) in
  let levelChanged := negb (level old =? level new)%Z in
  let pausedChanged := negb (Bool.eqb (isPaused old) (isPaused new)) in
  let gameOverChanged := negb (Bool.eqb (isGameOver old) (isGameOver new)) in
  let victoryChanged := negb (Bool.eqb (victory old) (victory new)) in
  let mainChanged := levelChanged || pausedChanged || gameOverChanged
                     || negb (Ui_inputs_eqb oldUi newUi) in
  let observerChanged := levelChanged || pausedChanged || gameOverChanged
                         || victoryChanged in
  let w := if mainChanged then mainEffectCleanup w else w in
  let w := if gameOverChanged then gameOverEffectCleanup w else w in
  let w := if levelChanged then difficultyEffect w else w in
  let w := if mainChanged then mainEffect now w else w in
  let w := if observerChanged then set_observerState new w else w in
  if gameOverChanged then gameOverEffect now w else w.

(** The first render and its effects (lines 184-248, 638, 1479, 1552). *)
Definition mount (now : Z) : World :=
  let noUi := {| showLevelText := false; gameOverFadeIn := false;
                 isMobile := false; isShooting := false;
                 isMovingLeft := false; isMovingRight := false;
                 isMovingUp := false; isMovingDown := false |} in
  let w :=
    {| gameState := initialGameState; ui := noUi;
       refs := {| enemiesRef := []; keysPressed := []; waveTimeoutRef := None;
                  currentWaveRef := 0;
                  difficultyConfigRef := getDifficultyConfig 1;
                  gameJustStartedRef := true;
                  enableProgressionTimerRef := None;
                  prevDirectionRef := None; gameOverTimeoutRef := None;
                  levelProgressTimeoutRef := None |};
       loop := {| loopState := initialGameState; loopUi := noUi;
                  player := Player.new (GAME_WIDTH / 2) (GAME_HEIGHT - 50);
                  bullets := []; powerUps := []; particles := [];
                  explosions := []; lastShot := 0;
                  isGameOverSoundPlayed := false; animationFrameId := false |};
       rendered := initialGameState; renderedUi := noUi;
       observerState := initialGameState;
       timers := []; nextTimer := 1%positive; savedLevel := None;
       rng := 0%nat; nextObject := 0%nat |} in
  let w := difficultyEffect w in
  (* lines 189-228 *)
  let w := clearGameProgress w in
  let w := setGameState (fun prevState =>
                           if negb (level prevState =? 1)%Z
                           then set_level 1 prevState else prevState) w in
  let w := upd_refs (set_gameJustStartedRef true) w in
  let '(id, w) := setTimeout CbEnableProgression 3000 now w in
  let w := upd_refs (set_enableProgressionTimerRef (Some id)) w in
  (* lines 231-248 *)
  let w := clearGameProgress w in
  let w := setGameState (fun prev => set_level 1 prev) w in
  let w := upd_refs (set_currentWaveRef 0%Z) w in
  let w := mainEffect now w in
  let w := set_observerState (rendered w) w in
  gameOverEffect now w.

(** *** Events *)

Inductive Event :=
| EvFrame (now : Z)
| EvTimer (now : Z) (id : positive)
| EvObserver (now : Z)
| EvKeyDown (code : string)
| EvKeyUp (code : string)
| EvPauseButton
| EvTryAgain (now : Z)
| EvRender (now : Z).

Definition togglePause (w : World) : World :=
  setGameState (fun prev => set_isPaused (negb (isPaused prev)) prev) w.

Definition step (ev : Event) (w : World) : World :=
  match ev with
  | EvFrame now =>
      if animationFrameId (loop w)
      then gameLoop now (upd_loop (set_animationFrameId false) w)
      else w
  | EvTimer now id => fireTimer now id w
  | EvObserver now => observerTick now w
  | EvKeyDown code =>
      if String.eqb code "Escape" then togglePause w
      else if keyDown code w then w
      else upd_refs (fun r => set_keysPressed (keysPressed r ++ [code]) r) w
  | EvKeyUp code =>
      upd_refs (fun r => set_keysPressed
                           (List.filter (fun k => negb (String.eqb k code))
                                        (keysPressed r)) r) w
  | EvPauseButton => togglePause w
  | EvTryAgain now =>
      if isGameOver (rendered w) then startNewGame now w else w
  | EvRender now => render now w
  end.

Definition run (evs : list Event) (w : World) : World :=
  fold_left (fun w ev => step ev w) evs w.

End React.

(** ** The star field (src/game/Star.ts) *)

Module Star.

Record t := mk {
  x : Q;
  y : Q;
  width : Q;
  height : Q;
  speed : Q;
  brightness : Q
}.

Definition set_x (v : Q) (r : t) : t :=
  {| x := v; y := y r; width := width r; height := height r;
     speed := speed r; brightness := brightness r |}.

Definition set_y (v : Q) (r : t) : t :=
  {| x := x r; y := v; width := width r; height := height r;
     speed := speed r; brightness := brightness r |}.

(** The constructor draws the speed and then the brightness. *)
Definition new {rt : Runtime} (x0 y0 : Q) (rng : nat) : t * nat :=
  ({| x := x0; y := y0; width := 2; height := 2;
      speed := Math_random rng * 0.5 + 0.1;
      brightness := Math_random (S rng) * 0.5 + 0.5 |}, S (S rng)).

(** [update]: the star falls and re-enters at the top, in a new column. *)
Definition update {rt : Runtime} (rng : nat) (s : t) : t * nat :=
  let s := set_y (y s + speed s) s in
  if Qgtb (y s) 600 then
    let s := set_y 0 s in
    (set_x (Math_random rng * 800) s, S rng)
  else (s, rng).

End Star.

Definition STAR_COUNT : nat := 50.

(** The body of the loop that fills the star field when the main effect
    starts (Game.tsx lines 660-665): the two coordinates are drawn before the
    constructor runs. *)
Definition createStar {rt : Runtime} (rng : nat) : Star.t * nat :=
  let x0 := Math_random rng * GAME_WIDTH in
  let y0 := Math_random (S rng) * GAME_HEIGHT in
  Star.new x0 y0 (S (S rng)).

(** [stars.forEach(star => star.update())], Game.tsx lines 834-837: the
    array keeps its length, so the pass is a left-to-right map that threads
    the cursor of the generator. *)
Fixpoint updateStars {rt : Runtime} (rng : nat) (stars : list Star.t)
    : list Star.t * nat :=
  match stars with
  | [] => ([], rng)
  | s :: rest =>
      let '(s', rng) := Star.update rng s in
      let '(rest', rng) := updateStars rng rest in
      (s' :: rest', rng)
  end.

(** ** The audio manager (src/game/AudioManager.ts) *)

(** What the manager reads and writes of an audio element.  [paused] is
    [false] once [play()] has been called on the element and [true] again
    after [pause()]. *)
Module HTMLAudioElement.

Record t := mk {
  src : string;
  preload : string;
  loop : bool;
  volume : Q;
  paused : bool
}.

Definition set_loop (v : bool) (r : t) : t :=
  {| src := src r; preload := preload r; loop := v; volume := volume r;
     paused := paused r |}.

Definition set_volume (v : Q) (r : t) : t :=
  {| src := src r; preload := preload r; loop := loop r; volume := v;
     paused := paused r |}.

Definition set_paused (v : bool) (r : t) : t :=
  {| src := src r; preload := preload r; loop := loop r; volume := volume r;
     paused := v |}.

(** [new Audio()] followed by the assignments of [src] and [preload], or
    [new Audio(url)]. *)
Definition new (url : string) : t :=
  {| src := url; preload := "auto"; loop := false; volume := 1;
     paused := true |}.

Definition play (e : t) : t := set_paused false e.
Definition pause (e : t) : t := set_paused true e.

(** [cloneNode()] copies the attributes; the copy is a fresh element, at
    rest and at full volume. *)
Definition cloneNode (e : t) : t :=
  {| src := src e; preload := preload e; loop := loop e; volume := 1;
     paused := true |}.

End HTMLAudioElement.

Module AudioManager.

(** A value of the [sounds] map: one element, or an array of elements from
    which [play] picks at random. *)
Inductive Sound :=
| One (sound : HTMLAudioElement.t)
| Several (sounds : list HTMLAudioElement.t).

(** The private fields; [started] lists the clones that [play] has started,
    the latest last. *)
Record t := mk {
  sounds : gmap string Sound;
  backgroundMusic : option HTMLAudioElement.t;
  loaded : bool;
  muted : bool;
  musicMuted : bool;
  soundEffectsVolume : Q;
  musicVolume : Q;
  started : list HTMLAudioElement.t
}.

Definition set_sounds (v : gmap string Sound) (r : t) : t :=
  {| sounds := v; backgroundMusic := backgroundMusic r; loaded := loaded r;
     muted := muted r; musicMuted := musicMuted r;
     soundEffectsVolume := soundEffectsVolume r;
     musicVolume := musicVolume r; started := started r |}.

Definition set_backgroundMusic (v : option HTMLAudioElement.t) (r : t) : t :=
  {| sounds := sounds r; backgroundMusic := v; loaded := loaded r;
     muted := muted r; musicMuted := musicMuted r;
     soundEffectsVolume := soundEffectsVolume r;
     musicVolume := musicVolume r; started := started r |}.

Definition set_muted (v : bool) (r : t) : t :=
  {| sounds := sounds r; backgroundMusic := backgroundMusic r;
     loaded := loaded r; muted := v; musicMuted := musicMuted r;
     soundEffectsVolume := soundEffectsVolume r;
     musicVolume := musicVolume r; started := started r |}.

Definition set_musicMuted (v : bool) (r : t) : t :=
  {| sounds := sounds r; backgroundMusic := backgroundMusic r;
     loaded := loaded r; muted := muted r; musicMuted := v;
     soundEffectsVolume := soundEffectsVolume r;
     musicVolume := musicVolume r; started := started r |}.

Definition set_soundEffectsVolume (v : Q) (r : t) : t :=
  {| sounds := sounds r; backgroundMusic := backgroundMusic r;
     loaded := loaded r; muted := muted r; musicMuted := musicMuted r;
     soundEffectsVolume := v; musicVolume := musicVolume r;
     started := started r |}.

Definition set_musicVolume (v : Q) (r : t) : t :=
  {| sounds := sounds r; backgroundMusic := backgroundMusic r;
     loaded := loaded r; muted := muted r; musicMuted := musicMuted r;
     soundEffectsVolume := soundEffectsVolume r; musicVolume := v;
     started := started r |}.

Definition set_started (v : list HTMLAudioElement.t) (r : t) : t :=
  {| sounds := sounds r; backgroundMusic := backgroundMusic r;
     loaded := loaded r; muted := muted r; musicMuted := musicMuted r;
     soundEffectsVolume := soundEffectsVolume r;
     musicVolume := musicVolume r; started := v |}.

Definition loadSound (name path : string) (a : t) : t :=
  set_sounds (<[name := One (HTMLAudioElement.new path)]> (sounds a)) a.

Definition loadSoundArray (name : string) (paths : list string) (a : t) : t :=
  set_sounds (<[name := Several (map HTMLAudioElement.new paths)]> (sounds a)) a.

Definition loadSounds (a : t) : t :=
  let a := loadSound "playerShoot"
    "https://media.veefriends.com/video/upload/v1741707898/test/heart-trooper-game/player-shoot-1.ogg" a in
  let a := loadSoundArray "enemyExplode"
    [ "https://media.veefriends.com/video/upload/v1741707899/test/heart-trooper-game/enemy-explosion-1.ogg";
      "https://media.veefriends.com/video/upload/v1741707899/test/heart-trooper-game/enemy-explosion-2.ogg";
      "https://media.veefriends.com/video/upload/v1741707899/test/heart-trooper-game/enemy-explosion-3.ogg";
      "https://media.veefriends.com/video/upload/v1741707899/test/heart-trooper-game/enemy-explosion-4.ogg" ]%string a in
  let a := loadSound "playerDamage"
    "https://media.veefriends.com/video/upload/v1741707900/test/heart-trooper-game/enemy-hit-sound.ogg" a in
  let a := loadSound "gameOver"
    "https://media.veefriends.com/video/upload/v1741707900/test/heart-trooper-game/enemy-hit-sound.ogg" a in
  let a := loadSound "gameStart"
    "https://media.veefriends.com/video/upload/v1741707900/test/heart-trooper-game/enemy-hit-sound.ogg" a in
  loadSound "navigationChange"
    "https://media.veefriends.com/video/upload/v1741707898/test/heart-trooper-game/navigation-change-sound.ogg" a.

Definition loadBackgroundMusic (a : t) : t :=
  let m := HTMLAudioElement.new
    "https://media.veefriends.com/video/upload/v1741707899/test/heart-trooper-game/background-music-gameplay.ogg" in
  let m := HTMLAudioElement.set_loop true m in
  let m := HTMLAudioElement.set_volume (musicVolume a) m in
  set_backgroundMusic (Some m) a.

(** The field initialisers and the constructor. *)
Definition new : t :=
  let a := {| sounds := ∅; backgroundMusic := None; loaded := false;
              muted := false; musicMuted := false;
              soundEffectsVolume := 0.5; musicVolume := 0.3;
              started := [] |} in
  loadBackgroundMusic (loadSounds a).

(** [getInstance]: the static field holds the one instance once it has been
    asked for. *)
Definition getInstance (instance : option t) : t * option t :=
  match instance with
  | Some a => (a, Some a)
  | None => (new, Some new)
  end.

(** The clone of [sound] that [play] starts. *)
Definition startClone (sound : HTMLAudioElement.t) (a : t) : t :=
  let soundClone := HTMLAudioElement.cloneNode sound in
  let soundClone := HTMLAudioElement.set_volume (soundEffectsVolume a) soundClone in
  set_started (started a ++ [HTMLAudioElement.play soundClone]) a.

(** [play].  [None] is the [TypeError] raised when the index drawn for an
    array of sounds falls outside the array ([undefined.cloneNode]). *)
Definition play {rt : Runtime} (name : string) (rng : nat) (a : t)
    : option (t * nat) :=
  if muted a then Some (a, rng)
  else
    match sounds a !! name with
    | None => Some (a, rng)
    | Some (Several sound) =>
        let randomIndex :=
          Qfloor (Math_random rng * inject_Z (Z.of_nat (length sound))) in
        match jsIndex sound randomIndex with
        | Some randomSound => Some (startClone randomSound a, S rng)
        | None => None
        end
    | Some (One sound) => Some (startClone sound a, rng)
    end.

Definition playBackgroundMusic (a : t) : t :=
  match backgroundMusic a with
  | Some m =>
      if negb (musicMuted a) then
        let m := HTMLAudioElement.set_volume (musicVolume a) m in
        set_backgroundMusic (Some (HTMLAudioElement.play m)) a
      else a
  | None => a
  end.

Definition pauseBackgroundMusic (a : t) : t :=
  match backgroundMusic a with
  | Some m => set_backgroundMusic (Some (HTMLAudioElement.pause m)) a
  | None => a
  end.

Definition resumeBackgroundMusic (a : t) : t :=
  match backgroundMusic a with
  | Some m =>
      if negb (musicMuted a)
      then set_backgroundMusic (Some (HTMLAudioElement.play m)) a
      else a
  | None => a
  end.

(** The setters return the value they have stored. *)
Definition toggleMute (a : t) : bool * t :=
  let a := set_muted (negb (muted a)) a in
  (muted a, a).

Definition setMute (muted0 : bool) (a : t) : bool * t :=
  let a := set_muted muted0 a in
  (muted a, a).

Definition toggleMusicMute (a : t) : bool * t :=
  let a := set_musicMuted (negb (musicMuted a)) a in
  let a := if musicMuted a then pauseBackgroundMusic a
           else resumeBackgroundMusic a in
  (musicMuted a, a).

Definition setMusicMute (muted0 : bool) (a : t) : bool * t :=
  let a := set_musicMuted muted0 a in
  let a := if musicMuted a then pauseBackgroundMusic a
           else resumeBackgroundMusic a in
  (musicMuted a, a).

Definition setSoundEffectsVolume (volume : Q) (a : t) : Q * t :=
  let a := set_soundEffectsVolume (Qmax 0 (Qmin 1 volume)) a in
  (soundEffectsVolume a, a).

Definition getSoundEffectsVolume (a : t) : Q := soundEffectsVolume a.

Definition setMusicVolume (volume : Q) (a : t) : Q * t :=
  let a := set_musicVolume (Qmax 0 (Qmin 1 volume)) a in
  let a := match backgroundMusic a with
           | Some m =>
               set_backgroundMusic
                 (Some (HTMLAudioElement.set_volume (musicVolume a) m)) a
           | None => a
           end in
  (musicVolume a, a).

Definition getMusicVolume (a : t) : Q := musicVolume a.

End AudioManager.

(** *** The volume controls of the component (Game.tsx lines 613-636) *)

(** The four [useState] cells behind the sliders and the mute buttons. *)
Module AudioPanel.

Record t := mk {
  soundVolume : Z;
  musicVolume : Z;
  isSoundMuted : bool;
  isMusicMuted : bool
}.

Definition set_soundVolume (v : Z) (r : t) : t :=
  {| soundVolume := v; musicVolume := musicVolume r;
     isSoundMuted := isSoundMuted r; isMusicMuted := isMusicMuted r |}.

Definition set_musicVolume (v : Z) (r : t) : t :=
  {| soundVolume := soundVolume r; musicVolume := v;
     isSoundMuted := isSoundMuted r; isMusicMuted := isMusicMuted r |}.

Definition set_isSoundMuted (v : bool) (r : t) : t :=
  {| soundVolume := soundVolume r; musicVolume := musicVolume r;
     isSoundMuted := v; isMusicMuted := isMusicMuted r |}.

Definition set_isMusicMuted (v : bool) (r : t) : t :=
  {| soundVolume := soundVolume r; musicVolume := musicVolume r;
     isSoundMuted := isSoundMuted r; isMusicMuted := v |}.

(** The initial values of the cells (Game.tsx lines 163-166). *)
Definition initial : t :=
  {| soundVolume := 50; musicVolume := 30;
     isSoundMuted := false; isMusicMuted := false |}.

End AudioPanel.

(** The handlers act on the cells and on the manager.  [newVolume] is the
    integer that [parseInt] reads from the slider; [closure] is the panel of
    the render that created the handler, which is where a toggle reads the
    flag it negates. *)
Definition handleSoundVolumeChange (newVolume : Z)
    (s : AudioPanel.t * AudioManager.t) : AudioPanel.t * AudioManager.t :=
  let '(p, a) := s in
  (AudioPanel.set_soundVolume newVolume p,
   snd (AudioManager.setSoundEffectsVolume (inject_Z newVolume / 100) a)).

Definition handleMusicVolumeChange (newVolume : Z)
    (s : AudioPanel.t * AudioManager.t) : AudioPanel.t * AudioManager.t :=
  let '(p, a) := s in
  (AudioPanel.set_musicVolume newVolume p,
   snd (AudioManager.setMusicVolume (inject_Z newVolume / 100) a)).

Definition toggleSoundMute (closure : AudioPanel.t)
    (s : AudioPanel.t * AudioManager.t) : AudioPanel.t * AudioManager.t :=
  let '(p, a) := s in
  let newMuted := negb (AudioPanel.isSoundMuted closure) in
  (AudioPanel.set_isSoundMuted newMuted p,
   snd (AudioManager.setMute newMuted a)).

Definition toggleMusicMute (closure : AudioPanel.t)
    (s : AudioPanel.t * AudioManager.t) : AudioPanel.t * AudioManager.t :=
  let '(p, a) := s in
  let newMuted := negb (AudioPanel.isMusicMuted closure) in
  (AudioPanel.set_isMusicMuted newMuted p,
   snd (AudioManager.setMusicMute newMuted a)).

(** ** Touch controls and the canvas scale (Game.tsx) *)

Definition MOBILE_CONTROL_HEIGHT : Q := 120.

(** A touch point, in client coordinates. *)
Record Touch := mkTouch {
  clientX : Q;
  clientY : Q
}.

Record TouchEvent := mkTouchEvent {
  touches : list Touch;
  changedTouches : list Touch
}.

(** What the handlers read from the canvas element: the corner of its
    bounding rectangle and its offsets. *)
Record Canvas := mkCanvas {
  rect_left : Q;
  rect_top : Q;
  offsetLeft : Q;
  offsetTop : Q
}.

(** The [canvasScale] cell. *)
Record CanvasScale := mkCanvasScale {
  scale_x : Q;
  scale_y : Q
}.


(** The position of a touch in game coordinates, as the three handlers
    compute it.  The division by a zero scale, which gives an infinity or a
    NaN in the program, is outside the model. *)
Definition touchPosition (canvas : Canvas) (canvasScale : CanvasScale)
    (touch : Touch) : Q * Q :=
  let touchX := clientX touch - rect_left canvas in
  let touchY := clientY touch - rect_top canvas in
  let x := (touchX - offsetLeft canvas) / scale_x canvasScale in
  let y := (touchY - offsetTop canvas) / scale_y canvasScale in
  (x, y).

(** The [switch] on the control touched: the strip at the bottom of the
    field is cut into five buttons; [v] is [true] in [handleTouchStart] and
    [false] in the two other handlers. *)
Definition setControl (v : bool) (x y : Q) (w : World) : World :=
  if Qgtb y (GAME_HEIGHT - MOBILE_CONTROL_HEIGHT) then
    let controlWidth := GAME_WIDTH / 5 in
    let controlIndex := Qfloor (x / controlWidth) in
    match controlIndex with
    | 0%Z => upd_ui (set_isMovingLeft v) w
    | 1%Z => upd_ui (set_isMovingUp v) w
    | 2%Z => upd_ui (set_isMovingDown v) w
    | 3%Z => upd_ui (set_isMovingRight v) w
    | 4%Z => upd_ui (set_isShooting v) w
    | _ => w
    end
  else w.

Definition touchControl (v : bool) (canvas : Canvas) (canvasScale : CanvasScale)
    (w : World) (touch : Touch) : World :=
  let '(x, y) := touchPosition canvas canvasScale touch in
  setControl v x y w.

(** [handleTouchStart], lines 1148-1190. *)
Definition handleTouchStart (canvas : Canvas) (canvasScale : CanvasScale)
    (e : TouchEvent) (w : World) : World :=
  fold_left (touchControl true canvas canvasScale) (changedTouches e) w.

(** [handleTouchMove], lines 1192-1232: only the first touch is read, and the
    control under it is switched off. *)
Definition handleTouchMove (canvas : Canvas) (canvasScale : CanvasScale)
    (e : TouchEvent) (w : World) : World :=
  match touches e with
  | touch :: _ => touchControl false canvas canvasScale w touch
  | [] => w
  end.

(** [handleTouchEnd], lines 1234-1274; it also serves [touchcancel]. *)
Definition handleTouchEnd (canvas : Canvas) (canvasScale : CanvasScale)
    (e : TouchEvent) (w : World) : World :=
  fold_left (touchControl false canvas canvasScale) (changedTouches e) w.

(** ** Vocabulary of the properties *)

(** A runtime whose generator returns the same value at every call and whose
    trigonometry is that of the angle zero; it serves to run the model on
    concrete states. *)
Definition constantRuntime (r : Q) : Runtime :=
  {| Math_sin := fun _ => 0; Math_cos := fun _ => 1;
     Math_sqrt := fun q => q; Math_PI := 3.14159;
     Math_random := fun _ => r |}.


(** The fields that grow with the level, from one configuration to the
    next. *)
Definition growingFieldsNondecreasing (a b : DifficultyConfig) : Prop :=
  (baseEnemiesPerWave a <= baseEnemiesPerWave b)%Z /\
  (maxWaves a <= maxWaves b)%Z /\
  (enemyHealthMultiplier a <= enemyHealthMultiplier b)%Z /\
  enemySpeedMultiplier a <= enemySpeedMultiplier b /\
  shooterProbability a <= shooterProbability b /\
  tankProbability a <= tankProbability b /\
  fastProbability a <= fastProbability b /\
  Difficulty.bulletSpeedMultiplier a <= Difficulty.bulletSpeedMultiplier b /\
  (spreadShotLevel a <= spreadShotLevel b)%Z /\
  fireRateMultiplier a <= fireRateMultiplier b /\
  Bool.le (divingEnemies a) (divingEnemies b) /\
  Bool.le (enemiesShootAngled a) (enemiesShootAngled b) /\
  (formationComplexity a <= formationComplexity b)%Z.

(** The two fields that shrink as the level grows. *)
Definition shrinkingFieldsNonincreasing (a b : DifficultyConfig) : Prop :=
  (waveDelay b <= waveDelay a)%Z /\ powerUpChance b <= powerUpChance a.

(** The clamps written in [getDifficultyConfig]: a maximum for seven
    fields, a minimum for the two shrinking ones. *)
Definition withinClamps (c : DifficultyConfig) : Prop :=
  (baseEnemiesPerWave c <= 15)%Z /\
  (maxWaves c <= 6)%Z /\
  (enemyHealthMultiplier c <= 3)%Z /\
  shooterProbability c <= 0.4 /\
  tankProbability c <= 0.3 /\
  fastProbability c <= 0.3 /\
  (formationComplexity c <= 5)%Z /\
  (2000 <= waveDelay c)%Z /\
  0.1 <= powerUpChance c.

(** Two intervals [a, a + wa] and [b, b + wb] that share an end point and
    nothing else: the boxes touch along an edge on that axis. *)
Definition endsMeet (a wa b wb : Q) : Prop :=
  a + wa == b \/ b + wb == a.

(** A bullet's box touches the box of [o] along an edge. *)
Definition bulletTouches {A : Type} {go : GameObject A} (b : Bullet.t) (o : A)
    : Prop :=
  endsMeet (Bullet.x b) (Bullet.width b) (obj_x o) (obj_width o)
  \/ endsMeet (Bullet.y b) (Bullet.height b) (obj_y o) (obj_height o).

(** The box that [PowerUp.checkCollision] gives the power-up, centred on its
    position, touches the box of [o] along an edge. *)
Definition powerUpTouches {A : Type} {go : GameObject A} (p : PowerUp.t) (o : A)
    : Prop :=
  endsMeet (PowerUp.x p - PowerUp.width p / 2) (PowerUp.width p)
           (obj_x o) (obj_width o)
  \/ endsMeet (PowerUp.y p - PowerUp.height p / 2) (PowerUp.height p)
              (obj_y o) (obj_height o).

(** The enemy after [n] calls of [hit]. *)
Fixpoint hitTimes (n : nat) (e : Enemy.t) : Enemy.t :=
  match n with
  | O => e
  | S k => snd (Enemy.hit (hitTimes k e))
  end.

(** The three steps of [spawnEnemy], named: the roll of the type (lines
    431-438), the level adjustments (lines 448-451), the [push]. *)
Definition rollType (c : DifficultyConfig) (r : Q) : EnemyType :=
  if Qltb r (shooterProbability c) then SHOOTER
  else if Qltb r (shooterProbability c + tankProbability c) then TANK
  else if Qltb r (shooterProbability c + tankProbability c + fastProbability c)
  then FAST
  else BASIC.

Definition levelAdjusted (c : DifficultyConfig) (e : Enemy.t) : Enemy.t :=
  let e := Enemy.set_health (Enemy.health e * enemyHealthMultiplier c)%Z e in
  let e := Enemy.set_speed (Enemy.speed e * enemySpeedMultiplier c) e in
  let e := Enemy.set_shootProbability
             (Enemy.shootProbability e * fireRateMultiplier c) e in
  Enemy.set_dropPowerUpChance (powerUpChance c) e.

Definition pushEnemy (e : Enemy.t) (w : World) : World :=
  upd_refs (fun r => set_enemiesRef (enemiesRef r ++ [e]) r) w.

(** The enemy that [spawnEnemy col row level total] pushes in state [w]. *)
Definition spawnedEnemy {rt : Runtime} (col row : Q) (level total : Z)
    (w : World) : Enemy.t :=
  let c := difficultyConfigRef (refs w) in
  let e := levelAdjusted c
             (Enemy.new (80 + col * (GAME_WIDTH - 160) / (inject_Z total - 1))
                        (60 + row * 60)
                        (rollType c (Math_random (rng w))) level) in
  if divingEnemies c && Qltb (Math_random (S (rng w))) 0.2
  then Enemy.set_diveAtPlayer true e
  else e.

(** [w'] differs from [w] at most in the particles and in the cursor of the
    random generator. *)
Definition onlyParticlesAdded (w w' : World) : Prop :=
  gameState w' = gameState w
  /\ ui w' = ui w
  /\ refs w' = refs w
  /\ timers w' = timers w
  /\ savedLevel w' = savedLevel w
  /\ player (loop w') = player (loop w)
  /\ bullets (loop w') = bullets (loop w)
  /\ powerUps (loop w') = powerUps (loop w)
  /\ explosions (loop w') = explosions (loop w)
  /\ exists ps, particles (loop w') = particles (loop w) ++ ps.

(** What a level-completion transition changes first: the level, the victory
    flag, the wave counter and the enemy collection. *)
Definition completionView (w : World)
    : Z * bool * Z * list Enemy.t :=
  (level (gameState w), victory (gameState w),
   currentWaveRef (refs w), enemiesRef (refs w)).

(** The number of pending timers that will start the next level. *)
Definition pendingLevelInits (w : World) : nat :=
  length (List.filter (fun t => match callback t with
                                | CbLevelInit _ => true
                                | _ => false
                                end) (timers w)).

(** A game in its second level: the last wave (index 1 of 2) has been
    spawned and cleared, the grace flag is off, and two of the redundant
    completion triggers are due, the confirmation armed by the 500 ms
    observer and the settle timer armed when the last wave was spawned.
    The wave ref still holds the handle (39) of the wave timer that has
    fired, and the closure of the loop still has the victory flag of the
    render in which the level changed. *)
Definition lastWaveCleared {rt : Runtime} : World :=
  let gs := {| score := 1700; isGameOver := false; isPaused := false;
               health := 3; victory := false; level := 2 |} in
  let w := mount 0 in
  let w := set_observerState gs (set_rendered gs (set_gameState gs w)) in
  let w := upd_loop (set_loopState (set_victory true gs)) w in
  let w := upd_refs (set_difficultyConfigRef (getDifficultyConfig 2)) w in
  let w := upd_refs (set_currentWaveRef 1%Z) w in
  let w := upd_refs (set_gameJustStartedRef false) w in
  let w := upd_refs (set_enableProgressionTimerRef None) w in
  let w := upd_refs (set_waveTimeoutRef (Some 39%positive)) w in
  set_nextTimer 42%positive
    (set_timers
       [ {| handle := 40%positive; due := 21000%Z;
            callback := CbCheckLastWave 2 |};
         {| handle := 41%positive; due := 21000%Z;
            callback := CbObserverConfirm gs |} ] w).

(** Two bullets about to meet in a freshly mounted game: an enemy bullet
    (as a basic enemy of level 1 shoots it) and, after it in the array, a
    player bullet just below it. *)
Definition enemyBulletAbove : Bullet.t :=
  Bullet.new 425 300 true 0 (Some 0.6) (Some BASIC).

Definition playerBulletBelow : Bullet.t :=
  Bullet.new 425 310 false 0 None None.

Definition enemyBulletFirst {rt : Runtime} : World :=
  upd_loop (set_bullets [enemyBulletAbove; playerBulletBelow]) (mount 0).

Definition playerBulletFirst {rt : Runtime} : World :=
  upd_loop (set_bullets [playerBulletBelow; enemyBulletAbove]) (mount 0).


(** A game lost at level 4 while the transition from level 3 is still under
    way: the timer armed by [handleLevelComplete] (handle 60) has not fired
    yet.  The grace timer (59), the wave timer (61) and the game-over fade
    (62) are the timers that the refs track. *)
Definition lostDuringTransition {rt : Runtime} : World :=
  let gs := {| score := 2500; isGameOver := true; isPaused := false;
               health := 0; victory := false; level := 4 |} in
  let w := mount 0 in
  let w := set_observerState gs (set_rendered gs (set_gameState gs w)) in
  let w := upd_loop (set_loopState gs) w in
  let w := upd_refs (set_difficultyConfigRef (getDifficultyConfig 4)) w in
  let w := upd_refs (set_enemiesRef [Enemy.new 100 200 BASIC 4]) w in
  let w := upd_refs (set_enableProgressionTimerRef (Some 59%positive)) w in
  let w := upd_refs (set_waveTimeoutRef (Some 61%positive)) w in
  let w := upd_refs (set_gameOverTimeoutRef (Some 62%positive)) w in
  let w := set_savedLevel (Some 4%Z) w in
  set_nextTimer 63%positive
    (set_timers
       [ {| handle := 59%positive; due := 32400%Z; callback := CbEnableProgression |};
         {| handle := 60%positive; due := 32000%Z; callback := CbLevelInit 4 |};
         {| handle := 61%positive; due := 34000%Z; callback := CbNextWave 4 1 |};
         {| handle := 62%positive; due := 32500%Z; callback := CbGameOverFade |} ]
       w).


(** *** Vocabulary for the player, the enemies and the frame *)

(** The player's box lies within the field, and the player's speeds are not
    negative. *)
Definition inField (p : Player.t) : Prop :=
  0 <= Player.x p /\ Player.x p <= 800 - Player.width p
  /\ 0 <= Player.y p /\ Player.y p <= 600 - Player.height p.

Definition playerOk (p : Player.t) : Prop :=
  inField p
  /\ 0 <= Player.speed p /\ 0 <= Player.baseSpeed p
  /\ Player.width p <= 800 /\ Player.height p <= 600.

(** The effect of a power-up of type [ty] is on. *)
Definition powerUpOn (ty : PowerUpType) (p : Player.t) : bool :=
  match ty with
  | SHIELD => Player.hasShield p
  | SPREAD_SHOT => Player.hasSpreadShot p
  | SPEED => Qeq_bool (Player.speed p) (Player.baseSpeed p * 1.5)
  | HEALTH => false
  end.

(** The four moves of [handlePlayerMovement], each made when its control is
    held, in the order left, right, up, down. *)
Definition playerMoves (l r u d : bool) (p : Player.t) : Player.t :=
  let p := if l then Player.moveLeft p else p in
  let p := if r then Player.moveRight p else p in
  let p := if u then Player.moveUp p else p in
  if d then Player.moveDown p else p.

(** The controls as [handlePlayerMovement] reads them: the touch flags on a
    mobile device, the keys otherwise. *)
Definition wantsLeft (w : World) : bool :=
  if isMobile (loopUi (loop w)) then isMovingLeft (loopUi (loop w))
  else keyDown "ArrowLeft" w || keyDown "KeyA" w.

Definition wantsRight (w : World) : bool :=
  if isMobile (loopUi (loop w)) then isMovingRight (loopUi (loop w))
  else keyDown "ArrowRight" w || keyDown "KeyD" w.

Definition wantsUp (w : World) : bool :=
  if isMobile (loopUi (loop w)) then isMovingUp (loopUi (loop w))
  else keyDown "ArrowUp" w || keyDown "KeyW" w.

Definition wantsDown (w : World) : bool :=
  if isMobile (loopUi (loop w)) then isMovingDown (loopUi (loop w))
  else keyDown "ArrowDown" w || keyDown "KeyS" w.

Definition wantsFire (w : World) : bool :=
  if isMobile (loopUi (loop w)) then isShooting (loopUi (loop w))
  else keyDown "Space" w.

(** An enemy on horizontal patrol between the two walls (30 pixels from
    either side): it is not a diver, it moves no more than 30 pixels a
    frame, and it is either strictly between the walls or has just turned
    at one of them, one step away from where it was. *)
Definition patrolling (e : Enemy.t) : Prop :=
  Enemy.diveAtPlayer e = false
  /\ 0 <= Enemy.speed e /\ Enemy.speed e <= Enemy.BOUNDARY_PADDING
  /\ 0 <= Enemy.width e
  /\ ((Enemy.direction e == 1 \/ Enemy.direction e == -1)
      /\ Enemy.BOUNDARY_PADDING < Enemy.x e
      /\ Enemy.x e + Enemy.width e < GAME_WIDTH - Enemy.BOUNDARY_PADDING
      \/ Enemy.direction e == 1
         /\ Enemy.x e <= Enemy.BOUNDARY_PADDING
         /\ Enemy.BOUNDARY_PADDING < Enemy.x e + Enemy.speed e
         /\ Enemy.x e + Enemy.speed e + Enemy.width e
            < GAME_WIDTH - Enemy.BOUNDARY_PADDING
      \/ Enemy.direction e == -1
         /\ GAME_WIDTH - Enemy.BOUNDARY_PADDING <= Enemy.x e + Enemy.width e
         /\ Enemy.x e - Enemy.speed e + Enemy.width e
            < GAME_WIDTH - Enemy.BOUNDARY_PADDING
         /\ Enemy.BOUNDARY_PADDING < Enemy.x e - Enemy.speed e).

(** An enemy whose box reaches over the right wall by at least one step:
    wherever it moves, its right edge is at or beyond the wall. *)
Definition pinnedRight (e : Enemy.t) : Prop :=
  Enemy.diveAtPlayer e = false
  /\ 0 <= Enemy.speed e
  /\ 0 <= Enemy.width e
  /\ (Enemy.direction e == 1
      /\ GAME_WIDTH - Enemy.BOUNDARY_PADDING <= Enemy.x e + Enemy.width e
      /\ Enemy.x e + Enemy.speed e <= GAME_WIDTH
      \/ Enemy.direction e == -1
         /\ GAME_WIDTH - Enemy.BOUNDARY_PADDING
            <= Enemy.x e + Enemy.width e - Enemy.speed e
         /\ Enemy.x e <= GAME_WIDTH).

(** The height at which [Enemy.update] finds the enemy once the entry move
    is made. *)
Definition entered (e : Enemy.t) : Q :=
  if Qltb (Enemy.y e) (Enemy.targetY e)
  then Enemy.y e + Enemy.verticalSpeed e else Enemy.y e.

(** *** Vocabulary for the waves *)

(** An enemy as [spawnEnemy] places it for [level]: in a column between
    x = 80 and x = 720, 100 pixels above the row it will settle on. *)
Definition placedFor (level : Z) (e : Enemy.t) : Prop :=
  80 <= Enemy.x e /\ Enemy.x e <= 720
  /\ Enemy.currentLevel e = level
  /\ Enemy.y e == Enemy.targetY e - 100.

(** [w] holds the enemies of [w0] followed by [n] more, each of which
    satisfies [P], under the same difficulty configuration. *)
Definition enemiesAdded (P : Enemy.t -> Prop) (w0 : World) (n : nat)
    (w : World) : Prop :=
  difficultyConfigRef (refs w) = difficultyConfigRef (refs w0)
  /\ currentWaveRef (refs w) = currentWaveRef (refs w0)
  /\ exists es : list Enemy.t,
       enemiesRef (refs w) = enemiesRef (refs w0) ++ es
       /\ length es = n
       /\ Forall P es.

(** *** Vocabulary for the touch controls *)

(** The five touch controls, in the order of their buttons. *)
Inductive Control := CLeft | CUp | CDown | CRight | CFire.

Definition controlFlag (c : Control) (u : Ui) : bool :=
  match c with
  | CLeft => isMovingLeft u
  | CUp => isMovingUp u
  | CDown => isMovingDown u
  | CRight => isMovingRight u
  | CFire => isShooting u
  end.

(** The number of the button of a control, from the left. *)
Definition controlNumber (c : Control) : Z :=
  match c with
  | CLeft => 0 | CUp => 1 | CDown => 2 | CRight => 3 | CFire => 4
  end.

(** No control is held. *)
Definition controlsOff (u : Ui) : Prop :=
  forall c : Control, controlFlag c u = false.

(** What a change of the control flags leaves alone. *)
Definition sameButControls (w w' : World) : Prop :=
  gameState w' = gameState w
  /\ refs w' = refs w
  /\ loop w' = loop w
  /\ timers w' = timers w
  /\ showLevelText (ui w') = showLevelText (ui w)
  /\ gameOverFadeIn (ui w') = gameOverFadeIn (ui w)
  /\ isMobile (ui w') = isMobile (ui w).

Definition setControlFlag (c : Control) (v : bool) (u : Ui) : Ui :=
  match c with
  | CLeft => set_isMovingLeft v u
  | CUp => set_isMovingUp v u
  | CDown => set_isMovingDown v u
  | CRight => set_isMovingRight v u
  | CFire => set_isShooting v u
  end.

Definition Control_eqb (a b : Control) : bool :=
  (controlNumber a =? controlNumber b)%Z.

(** The button that a touch is on, if any. *)
Definition touchedControl (canvas : Canvas) (canvasScale : CanvasScale)
    (touch : Touch) : option Control :=
  let '(x, y) := touchPosition canvas canvasScale touch in
  if Qgtb y (GAME_HEIGHT - MOBILE_CONTROL_HEIGHT) then
    match Qfloor (x / (GAME_WIDTH / 5)) with
    | 0%Z => Some CLeft
    | 1%Z => Some CUp
    | 2%Z => Some CDown
    | 3%Z => Some CRight
    | 4%Z => Some CFire
    | _ => None
    end
  else None.

(** *** Vocabulary for the audio manager *)

(** A call of a public method of the manager. *)
Inductive AudioCall :=
| CallPlay (name : string) (rng : nat)
| CallPlayBackgroundMusic
| CallPauseBackgroundMusic
| CallResumeBackgroundMusic
| CallToggleMute
| CallSetMute (muted : bool)
| CallToggleMusicMute
| CallSetMusicMute (muted : bool)
| CallSetSoundEffectsVolume (volume : Q)
| CallSetMusicVolume (volume : Q).

(** The manager after a call; a call of [play] that raises leaves it as it
    was. *)
Definition afterCall {rt : Runtime} (a : AudioManager.t) (c : AudioCall)
    : AudioManager.t :=
  match c with
  | CallPlay name rng =>
      match AudioManager.play name rng a with
      | Some (a', _) => a'
      | None => a
      end
  | CallPlayBackgroundMusic => AudioManager.playBackgroundMusic a
  | CallPauseBackgroundMusic => AudioManager.pauseBackgroundMusic a
  | CallResumeBackgroundMusic => AudioManager.resumeBackgroundMusic a
  | CallToggleMute => snd (AudioManager.toggleMute a)
  | CallSetMute m => snd (AudioManager.setMute m a)
  | CallToggleMusicMute => snd (AudioManager.toggleMusicMute a)
  | CallSetMusicMute m => snd (AudioManager.setMusicMute m a)
  | CallSetSoundEffectsVolume v => snd (AudioManager.setSoundEffectsVolume v a)
  | CallSetMusicVolume v => snd (AudioManager.setMusicVolume v a)
  end.

(** What holds of the manager at all times: the two volumes are between 0
    and 1; the music element exists, plays at the music volume, and is at
    rest whenever the music is muted; every clone started so far plays at a
    volume between 0 and 1; the map of sounds is the one the constructor
    loaded. *)
Definition audioOk (a : AudioManager.t) : Prop :=
  (0 <= AudioManager.soundEffectsVolume a
   /\ AudioManager.soundEffectsVolume a <= 1)
  /\ (0 <= AudioManager.musicVolume a /\ AudioManager.musicVolume a <= 1)
  /\ (exists m : HTMLAudioElement.t,
        AudioManager.backgroundMusic a = Some m
        /\ HTMLAudioElement.volume m = AudioManager.musicVolume a
        /\ (AudioManager.musicMuted a = true -> HTMLAudioElement.paused m = true))
  /\ Forall (fun e => 0 <= HTMLAudioElement.volume e
                      /\ HTMLAudioElement.volume e <= 1
                      /\ HTMLAudioElement.paused e = false)
            (AudioManager.started a)
  /\ AudioManager.sounds a = AudioManager.sounds AudioManager.new.

(** A call of one of the four handlers of the volume controls; a toggle
    carries the panel that its closure captured. *)
Inductive PanelCall :=
| SoundVolumeChange (newVolume : Z)
| MusicVolumeChange (newVolume : Z)
| ToggleSoundMute (closure : AudioPanel.t)
| ToggleMusicMute (closure : AudioPanel.t).

Definition afterPanelCall (s : AudioPanel.t * AudioManager.t) (c : PanelCall)
    : AudioPanel.t * AudioManager.t :=
  match c with
  | SoundVolumeChange v => handleSoundVolumeChange v s
  | MusicVolumeChange v => handleMusicVolumeChange v s
  | ToggleSoundMute closure => toggleSoundMute closure s
  | ToggleMusicMute closure => toggleMusicMute closure s
  end.

(** The panel shows what the manager does. *)
Definition panelAgrees (s : AudioPanel.t * AudioManager.t) : Prop :=
  AudioManager.muted (snd s) = AudioPanel.isSoundMuted (fst s)
  /\ AudioManager.musicMuted (snd s) = AudioPanel.isMusicMuted (fst s)
  /\ AudioManager.soundEffectsVolume (snd s)
     == Qmax 0 (Qmin 1 (inject_Z (AudioPanel.soundVolume (fst s)) / 100))
  /\ AudioManager.musicVolume (snd s)
     == Qmax 0 (Qmin 1 (inject_Z (AudioPanel.musicVolume (fst s)) / 100)).

(** *** Vocabulary for the star field *)

(** A star inside the field, falling at a speed that the constructor can
    give it. *)
Definition starOk (s : Star.t) : Prop :=
  0 <= Star.x s /\ Star.x s <= 800
  /\ 0 <= Star.y s /\ Star.y s <= 600
  /\ 0.1 <= Star.speed s /\ Star.speed s <= 0.6.

(** *** Vocabulary for the frame *)

(** The score, with 100 points counted for every enemy still alive. *)
Definition tally (w : World) : Z :=
  (score (gameState w) + 100 * Z.of_nat (length (enemiesRef (refs w))))%Z.

(** From [w0] to [w] the tally has grown by a multiple of 10 (every enemy
    that is gone has been paid 100 points, every bonus is of 10 points), no
    enemy has been added and no health has been gained. *)
Definition accounted (w0 w : World) : Prop :=
  (exists k : Z, (0 <= k)%Z /\ tally w = (tally w0 + 10 * k)%Z)
  /\ (length (enemiesRef (refs w)) <= length (enemiesRef (refs w0)))%nat
  /\ (health (gameState w) <= health (gameState w0))%Z.

(** *** Vocabulary for the states that the component reaches *)

Definition isNextWave (cb : Callback) : bool :=
  match cb with
  | CbNextWave _ _ => true
  | _ => false
  end.


(** The score is a multiple of 10 that is not negative, and the health is at
    most the initial one. *)
Definition stateOk (g : GameState) : Prop :=
  (0 <= score g)%Z /\ (10 | score g)%Z /\ (health g <= INITIAL_HEALTH)%Z.

(** The pending timers have distinct handles, all of them handed out
    already, and a timer that will spawn a later wave is the one that
    [waveTimeoutRef] holds. *)
Definition timersOk (w : World) : Prop :=
  NoDup (map handle (timers w))
  /\ Forall (fun t => (handle t < nextTimer w)%positive) (timers w)
  /\ Forall (fun t => isNextWave (callback t) = true ->
                      waveTimeoutRef (refs w) = Some (handle t))
            (timers w).

Definition wellFormed (w : World) : Prop :=
  stateOk (gameState w) /\ playerOk (player (loop w)) /\ timersOk w.

(** *** Vocabulary for the divers *)

(** The order of the phases of a dive. *)
Definition nextPhase (p : DivePhase) : DivePhase :=
  match p with
  | ready => diving
  | diving => returning
  | returning => ready
  end.

(** A diver that stands in the column of its place in the formation, with
    its box at least partly above the field. *)
Definition diverInColumn (e : Enemy.t) : Prop :=
  Enemy.diveAtPlayer e = true
  /\ Enemy.x e == Enemy.originalX e
  /\ 0 <= Enemy.x e + Enemy.width e
  /\ Enemy.x e <= GAME_WIDTH.

(** * Properties *)

(** A conjunction of closed equations, each settled by evaluation. *)
Ltac conj_compute :=
  lazymatch goal with
  | |- _ /\ _ => split; [vm_compute; reflexivity | conj_compute]
  | |- _ => vm_compute; reflexivity
  end.

(** ** Comparisons *)

Lemma Qltb_true (a b : Q) : Qltb a b = true <-> a < b.
Proof.
  unfold Qltb. rewrite negb_true_iff.
  split; intros H.
  - apply Qnot_le_lt. intros Hle. apply Qle_bool_iff in Hle. congruence.
  - apply not_true_is_false. intros Hle. apply Qle_bool_iff in Hle.
    apply (Qlt_not_le _ _ H Hle).
Qed.

Lemma Qltb_false (a b : Q) : Qltb a b = false <-> b <= a.
Proof.
  unfold Qltb. rewrite negb_false_iff. apply Qle_bool_iff.
Qed.

Lemma Qgtb_true (a b : Q) : Qgtb a b = true <-> b < a.
Proof. unfold Qgtb. apply Qltb_true. Qed.

Lemma Qgtb_false (a b : Q) : Qgtb a b = false <-> a <= b.
Proof. unfold Qgtb. apply Qltb_false. Qed.

Lemma inject_Z_ge_1 (l : Z) : (1 <= l)%Z -> 1 <= inject_Z l.
Proof. intros H. change 1 with (inject_Z 1). rewrite <- Zle_Qle. exact H. Qed.

Lemma inject_Z_succ (l : Z) : inject_Z (l + 1) == inject_Z l + 1.
Proof. rewrite inject_Z_plus. reflexivity. Qed.

(** ** The difficulty configuration *)

Module DifficultyProps.

(** The [Math.floor] expressions of [getDifficultyConfig] as integer
    divisions. *)
Lemma floor_times_1_2 (l : Z) : Qfloor (inject_Z l * 1.2) = (l * 12 / 10)%Z.
Proof. reflexivity. Qed.

Lemma floor_div_1_5 (l : Z) : Qfloor (inject_Z l / 1.5) = (l * 10 / 15)%Z.
Proof. reflexivity. Qed.

Lemma floor_div_3 (l : Z) : Qfloor (inject_Z l / 3) = (l / 3)%Z.
Proof.
  unfold Qfloor, Qdiv, Qmult, Qinv, inject_Z. simpl. f_equal. lia.
Qed.

Lemma floor_pred_div_2 (l : Z) : Qfloor ((inject_Z l - 1) / 2) = ((l - 1) / 2)%Z.
Proof.
  unfold Qfloor, Qdiv, Qmult, Qinv, Qminus, Qplus, Qopp, inject_Z. simpl.
  f_equal. lia.
Qed.

Section Step.
Variable L : Z.
Hypothesis HL : (1 <= L)%Z.

Lemma baseEnemiesPerWave_step :
  (baseEnemiesPerWave (getDifficultyConfig L)
   <= baseEnemiesPerWave (getDifficultyConfig (L + 1)) <= 15)%Z.
Proof.
  unfold getDifficultyConfig; cbn [baseEnemiesPerWave].
  rewrite !floor_times_1_2.
  destruct (Z.eqb_spec (L + 1) 1); [lia |].
  destruct (Z.eqb_spec L 1); Z.div_mod_to_equations; lia.
Qed.

Lemma maxWaves_step :
  (maxWaves (getDifficultyConfig L)
   <= maxWaves (getDifficultyConfig (L + 1)) <= 6)%Z.
Proof.
  unfold getDifficultyConfig; cbn [maxWaves].
  rewrite !floor_div_1_5. Z.div_mod_to_equations. lia.
Qed.

Lemma enemyHealthMultiplier_step :
  (enemyHealthMultiplier (getDifficultyConfig L)
   <= enemyHealthMultiplier (getDifficultyConfig (L + 1)) <= 3)%Z.
Proof.
  unfold getDifficultyConfig; cbn [enemyHealthMultiplier].
  rewrite !floor_div_3. Z.div_mod_to_equations. lia.
Qed.

Lemma spreadShotLevel_step :
  (spreadShotLevel (getDifficultyConfig L)
   <= spreadShotLevel (getDifficultyConfig (L + 1)))%Z.
Proof.
  unfold getDifficultyConfig; cbn [spreadShotLevel].
  rewrite !floor_div_3. Z.div_mod_to_equations. lia.
Qed.

Lemma formationComplexity_step :
  (formationComplexity (getDifficultyConfig L)
   <= formationComplexity (getDifficultyConfig (L + 1)) <= 5)%Z.
Proof.
  unfold getDifficultyConfig; cbn [formationComplexity].
  rewrite !floor_pred_div_2. Z.div_mod_to_equations. lia.
Qed.

Lemma waveDelay_step :
  (2000 <= waveDelay (getDifficultyConfig (L + 1))
   <= waveDelay (getDifficultyConfig L))%Z.
Proof. unfold getDifficultyConfig; cbn [waveDelay]. lia. Qed.

Lemma linear_multiplier_step (k : Q) :
  0 <= k -> 1 + (inject_Z L - 1) * k <= 1 + (inject_Z (L + 1) - 1) * k.
Proof.
  intros Hk. rewrite inject_Z_succ. nra.
Qed.

Lemma shooterProbability_step :
  shooterProbability (getDifficultyConfig L)
  <= shooterProbability (getDifficultyConfig (L + 1))
  /\ shooterProbability (getDifficultyConfig (L + 1)) <= 0.4.
Proof.
  pose proof (inject_Z_ge_1 L HL) as HQ.
  unfold getDifficultyConfig; cbn [shooterProbability].
  split; [| apply Q.le_min_l].
  apply Q.min_le_compat_l.
  destruct (Z.eqb_spec (L + 1) 1); [lia |].
  destruct (Z.eqb_spec L 1); rewrite inject_Z_succ; lra.
Qed.

Lemma fastProbability_step :
  fastProbability (getDifficultyConfig L)
  <= fastProbability (getDifficultyConfig (L + 1))
  /\ fastProbability (getDifficultyConfig (L + 1)) <= 0.3.
Proof.
  pose proof (inject_Z_ge_1 L HL) as HQ.
  unfold getDifficultyConfig; cbn [fastProbability].
  split; [| apply Q.le_min_l].
  apply Q.min_le_compat_l.
  destruct (Z.eqb_spec (L + 1) 1); [lia |].
  destruct (Z.eqb_spec L 1); rewrite inject_Z_succ; lra.
Qed.

Lemma tankProbability_step :
  tankProbability (getDifficultyConfig L)
  <= tankProbability (getDifficultyConfig (L + 1))
  /\ tankProbability (getDifficultyConfig (L + 1)) <= 0.3.
Proof.
  pose proof (inject_Z_ge_1 L HL) as HQ.
  unfold getDifficultyConfig; cbn [tankProbability].
  split; [| apply Q.le_min_l].
  apply Q.min_le_compat_l.
  assert (HL2 : (2 <= L)%Z -> 2 <= inject_Z L).
  { intros H. change 2 with (inject_Z 2). rewrite <- Zle_Qle. exact H. }
  destruct (Z.leb_spec (L + 1) 2) as [H1 | H1];
    destruct (Z.leb_spec L 2) as [H2 | H2]; try lia.
  - lra.
  - rewrite inject_Z_succ. specialize (HL2 ltac:(lia)). lra.
  - rewrite inject_Z_succ. specialize (HL2 ltac:(lia)). lra.
Qed.

Lemma powerUpChance_step :
  0.1 <= powerUpChance (getDifficultyConfig (L + 1))
  /\ powerUpChance (getDifficultyConfig (L + 1))
     <= powerUpChance (getDifficultyConfig L).
Proof.
  pose proof (inject_Z_ge_1 L HL) as HQ.
  unfold getDifficultyConfig; cbn [powerUpChance].
  destruct (Z.eqb_spec (L + 1) 1); [lia |].
  split; [apply Q.le_max_l |].
  destruct (Z.eqb_spec L 1) as [-> | Hne].
  - apply Q.max_lub; compute; discriminate.
  - apply Q.max_le_compat_l. rewrite inject_Z_succ. lra.
Qed.

Lemma flags_step :
  Bool.le (divingEnemies (getDifficultyConfig L))
          (divingEnemies (getDifficultyConfig (L + 1)))
  /\ Bool.le (enemiesShootAngled (getDifficultyConfig L))
             (enemiesShootAngled (getDifficultyConfig (L + 1))).
Proof.
  unfold getDifficultyConfig; cbn [divingEnemies enemiesShootAngled]. split.
  - destruct (Z.ltb_spec 2 L); destruct (Z.ltb_spec 2 (L + 1)); simpl; auto; lia.
  - destruct (Z.ltb_spec 3 L); destruct (Z.ltb_spec 3 (L + 1)); simpl; auto; lia.
Qed.

End Step.


(** One step of the level, field by field. *)
Lemma config_step_fields (L : Z) :
  (1 <= L)%Z ->
  growingFieldsNondecreasing (getDifficultyConfig L) (getDifficultyConfig (L + 1))
  /\ shrinkingFieldsNonincreasing (getDifficultyConfig L) (getDifficultyConfig (L + 1))
  /\ withinClamps (getDifficultyConfig L)
  /\ withinClamps (getDifficultyConfig (L + 1))
  /\ (enemyHealthMultiplier (getDifficultyConfig L)
      <= enemyHealthMultiplier (getDifficultyConfig (L + 1)) <= 3)%Z.
Proof.
  intros HL.
  pose proof (baseEnemiesPerWave_step L HL) as [B1 B2].
  pose proof (maxWaves_step L) as [M1 M2].
  pose proof (enemyHealthMultiplier_step L) as [E1 E2].
  pose proof (spreadShotLevel_step L) as S1.
  pose proof (formationComplexity_step L) as [F1 F2].
  pose proof (waveDelay_step L) as [W1 W2].
  pose proof (shooterProbability_step L HL) as [P1 P2].
  pose proof (fastProbability_step L HL) as [Q1 Q2].
  pose proof (tankProbability_step L HL) as [T1 T2].
  pose proof (powerUpChance_step L HL) as [U1 U2].
  pose proof (flags_step L) as [D1 D2].
  assert (K1 : enemySpeedMultiplier (getDifficultyConfig L)
               <= enemySpeedMultiplier (getDifficultyConfig (L + 1))).
  { apply linear_multiplier_step. compute; discriminate. }
  assert (K2 : Difficulty.bulletSpeedMultiplier (getDifficultyConfig L)
               <= Difficulty.bulletSpeedMultiplier (getDifficultyConfig (L + 1))).
  { apply linear_multiplier_step. compute; discriminate. }
  assert (K3 : fireRateMultiplier (getDifficultyConfig L)
               <= fireRateMultiplier (getDifficultyConfig (L + 1))).
  { apply linear_multiplier_step. compute; discriminate. }
  unfold growingFieldsNondecreasing, shrinkingFieldsNonincreasing, withinClamps.
  repeat split; try assumption; try lia;
    eapply Qle_trans; eassumption.
Qed.

Lemma Bool_le_trans (a b c : bool) : Bool.le a b -> Bool.le b c -> Bool.le a c.
Proof. destruct a, b, c; simpl; auto. Qed.

Lemma growing_refl (a : DifficultyConfig) : growingFieldsNondecreasing a a.
Proof.
  unfold growingFieldsNondecreasing.
  repeat split; try apply Z.le_refl; try apply Qle_refl;
    match goal with |- Bool.le ?b ?b => destruct b; simpl; auto end.
Qed.

Lemma growing_trans (a b c : DifficultyConfig) :
  growingFieldsNondecreasing a b -> growingFieldsNondecreasing b c ->
  growingFieldsNondecreasing a c.
Proof.
  unfold growingFieldsNondecreasing.
  intros (A1 & A2 & A3 & A4 & A5 & A6 & A7 & A8 & A9 & A10 & A11 & A12 & A13)
         (B1 & B2 & B3 & B4 & B5 & B6 & B7 & B8 & B9 & B10 & B11 & B12 & B13).
  repeat split;
    first [ lia
          | eapply Qle_trans; eassumption
          | eapply Bool_le_trans; eassumption ].
Qed.

Lemma shrinking_trans (a b c : DifficultyConfig) :
  shrinkingFieldsNonincreasing a b -> shrinkingFieldsNonincreasing b c ->
  shrinkingFieldsNonincreasing a c.
Proof.
  unfold shrinkingFieldsNonincreasing. intros [A1 A2] [B1 B2].
  split; [lia | eapply Qle_trans; eassumption].
Qed.

(** Across any number of levels. *)
Lemma config_monotone (L1 L2 : Z) :
  (1 <= L1)%Z -> (L1 <= L2)%Z ->
  growingFieldsNondecreasing (getDifficultyConfig L1) (getDifficultyConfig L2)
  /\ shrinkingFieldsNonincreasing (getDifficultyConfig L1) (getDifficultyConfig L2).
Proof.
  intros H1 H12. revert L2 H12.
  apply (Z.le_ind (fun m =>
    growingFieldsNondecreasing (getDifficultyConfig L1) (getDifficultyConfig m)
    /\ shrinkingFieldsNonincreasing (getDifficultyConfig L1) (getDifficultyConfig m))).
  - intros x y ->. reflexivity.
  - split; [apply growing_refl |].
    split; [apply Z.le_refl | apply Qle_refl].
  - intros m Hm [IHg IHs]. unfold Z.succ.
    destruct (config_step_fields m ltac:(lia)) as (Sg & Ss & _).
    split; [eapply growing_trans | eapply shrinking_trans]; eassumption.
Qed.



End DifficultyProps.

(** ** Collision tests *)

Module CollisionProps.

Lemma andb4_false_l (a b c d : bool) : a = false -> a && b && c && d = false.
Proof. intros ->. reflexivity. Qed.

Lemma andb4_false_2 (a b c d : bool) : b = false -> a && b && c && d = false.
Proof. intros ->. now rewrite andb_false_r. Qed.

Lemma andb4_false_3 (a b c d : bool) : c = false -> a && b && c && d = false.
Proof. intros ->. now rewrite andb_false_r. Qed.

Lemma andb4_false_4 (a b c d : bool) : d = false -> a && b && c && d = false.
Proof. intros ->. now rewrite andb_false_r. Qed.

(** The corner-anchored test compares the same two pairs of edges whichever
    bullet is asked. *)
Lemma bullet_checkCollision_sym (a b : Bullet.t) :
  Bullet.checkCollision a b = Bullet.checkCollision b a.
Proof.
  unfold Bullet.checkCollision, Qgtb. cbn [obj_x obj_y obj_width obj_height
    Bullet_GameObject].
  destruct (Qltb (Bullet.x a) (Bullet.x b + Bullet.width b)),
           (Qltb (Bullet.x b) (Bullet.x a + Bullet.width a)),
           (Qltb (Bullet.y a) (Bullet.y b + Bullet.height b)),
           (Qltb (Bullet.y b) (Bullet.y a + Bullet.height a)); reflexivity.
Qed.

Lemma bullet_edge_touch {A : Type} {go : GameObject A} (b : Bullet.t) (o : A) :
  bulletTouches b o -> Bullet.checkCollision b o = false.
Proof.
  unfold bulletTouches, endsMeet, Bullet.checkCollision.
  intros [[H | H] | [H | H]].
  - apply andb4_false_2. apply Qgtb_false. rewrite H. apply Qle_refl.
  - apply andb4_false_l. apply Qltb_false. rewrite H. apply Qle_refl.
  - apply andb4_false_4. apply Qgtb_false. rewrite H. apply Qle_refl.
  - apply andb4_false_3. apply Qltb_false. rewrite H. apply Qle_refl.
Qed.

Lemma powerUp_edge_touch {A : Type} {go : GameObject A} (p : PowerUp.t) (o : A) :
  powerUpTouches p o -> PowerUp.checkCollision p o = false.
Proof.
  unfold powerUpTouches, endsMeet, PowerUp.checkCollision.
  intros [[H | H] | [H | H]].
  - apply andb4_false_2. apply Qgtb_false. rewrite <- H.
    unfold Qdiv. change (/ 2) with (1 # 2). lra.
  - apply andb4_false_l. apply Qltb_false. rewrite H. apply Qle_refl.
  - apply andb4_false_4. apply Qgtb_false. rewrite <- H.
    unfold Qdiv. change (/ 2) with (1 # 2). lra.
  - apply andb4_false_3. apply Qltb_false. rewrite H. apply Qle_refl.
Qed.

(** C5, counterexample: a power-up at (0, 0) and a bullet at (20, 0).  The
    bullet's test takes the power-up's box to start at its position and
    reports a collision; the power-up's test takes its own box to be centred
    there and reports none. *)
Lemma powerUp_vs_bullet_not_symmetric :
  Bullet.checkCollision (Bullet.new 20 0 false 0 None None)
                        (PowerUp.new 0 0 HEALTH) = true
  /\ PowerUp.checkCollision (PowerUp.new 0 0 HEALTH)
                            (Bullet.new 20 0 false 0 None None) = false.
Proof. split; vm_compute; reflexivity. Qed.

(** C5, as amended: [Bullet.checkCollision] gives the same answer whichever
    of two bullets is asked; and for each of the two methods, two boxes that
    only touch along an edge do not collide (for [PowerUp.checkCollision]
    the power-up's box is the one centred on its position). *)
Theorem checkCollision_symmetric_strict :
  (forall a b : Bullet.t,
      Bullet.checkCollision a b = Bullet.checkCollision b a)
  /\ (forall (A : Type) (go : GameObject A) (b : Bullet.t) (o : A),
         bulletTouches b o -> Bullet.checkCollision b o = false)
  /\ (forall (A : Type) (go : GameObject A) (p : PowerUp.t) (o : A),
         powerUpTouches p o -> PowerUp.checkCollision p o = false).
Proof.
  split; [exact bullet_checkCollision_sym |].
  split.
  - intros A go b o. apply bullet_edge_touch.
  - intros A go p o. apply powerUp_edge_touch.
Qed.

(** The theorem on a bullet whose right edge lies on the left edge of the
    player, and on a power-up whose lower edge lies on the player's upper
    edge. *)
Lemma checkCollision_symmetric_strict_witness :
  Bullet.checkCollision (Bullet.new 388 550 true 0 None None)
                        (Player.new 400 550) = false
  /\ PowerUp.checkCollision (PowerUp.new 410 535 SHIELD)
                            (Player.new 400 550) = false.
Proof.
  destruct checkCollision_symmetric_strict as (_ & Hb & Hp).
  split.
  - apply Hb. left. left. vm_compute. reflexivity.
  - apply Hp. right. left. vm_compute. reflexivity.
Defined.

End CollisionProps.

(** ** Enemies as spawned, and the hits a tank takes *)

Module EnemyProps.

Lemma new_type x y ty l : Enemy.type (Enemy.new x y ty l) = ty.
Proof. destruct ty; reflexivity. Qed.

Lemma new_health x y ty l :
  Enemy.health (Enemy.new x y ty l)
  = match ty with TANK => 3%Z | _ => 1%Z end.
Proof. destruct ty; reflexivity. Qed.

Lemma new_initialSize x y ty l : Enemy.initialSize (Enemy.new x y ty l) == 1.
Proof. destruct ty; reflexivity. Qed.

Lemma hit_type (e : Enemy.t) : Enemy.type (snd (Enemy.hit e)) = Enemy.type e.
Proof.
  unfold Enemy.hit. cbn [snd Enemy.type Enemy.set_health].
  destruct (EnemyType_eqb (Enemy.type e) TANK); reflexivity.
Qed.

Lemma hit_health (e : Enemy.t) :
  Enemy.health (snd (Enemy.hit e)) = (Enemy.health e - 1)%Z.
Proof.
  unfold Enemy.hit. cbn [snd Enemy.type Enemy.set_health].
  destruct (EnemyType_eqb (Enemy.type e) TANK); reflexivity.
Qed.

Lemma hit_result (e : Enemy.t) :
  fst (Enemy.hit e) = (Enemy.health e - 1 <=? 0)%Z.
Proof.
  unfold Enemy.hit. cbn [fst Enemy.type Enemy.set_health].
  destruct (EnemyType_eqb (Enemy.type e) TANK); reflexivity.
Qed.

Lemma hit_initialSize_tank (e : Enemy.t) :
  Enemy.type e = TANK ->
  Enemy.initialSize (snd (Enemy.hit e)) = Enemy.initialSize e - 0.2.
Proof.
  intros H. unfold Enemy.hit. cbn [snd Enemy.type Enemy.set_health].
  rewrite H. reflexivity.
Qed.

Lemma hitTimes_type (n : nat) (e : Enemy.t) :
  Enemy.type (hitTimes n e) = Enemy.type e.
Proof.
  induction n as [| n IH]; [reflexivity |].
  cbn [hitTimes]. rewrite hit_type. exact IH.
Qed.

Lemma hitTimes_health (n : nat) (e : Enemy.t) :
  Enemy.health (hitTimes n e) = (Enemy.health e - Z.of_nat n)%Z.
Proof.
  induction n as [| n IH]; cbn [hitTimes].
  - lia.
  - rewrite hit_health, IH. lia.
Qed.

Section Spawn.
Context {rt : Runtime}.

(** [spawnEnemy] in terms of its three steps. *)
Lemma spawnEnemy_unfold col row level total w :
  spawnEnemy col row level total w
  = pushEnemy (spawnedEnemy col row level total w)
      (set_rng (if divingEnemies (difficultyConfigRef (refs w))
                then S (S (rng w)) else S (rng w)) w).
Proof.
  unfold spawnEnemy, spawnedEnemy, pushEnemy, random.
  destruct (divingEnemies (difficultyConfigRef (refs w))); cbn [andb].
  - destruct (Qltb (Math_random (S (rng w))) 0.2) eqn:E;
      cbv zeta; cbn [rng set_rng]; rewrite E; reflexivity.
  - reflexivity.
Qed.

Lemma spawnEnemy_enemies col row level total w :
  enemiesRef (refs (spawnEnemy col row level total w))
  = enemiesRef (refs w) ++ [spawnedEnemy col row level total w].
Proof. rewrite spawnEnemy_unfold. reflexivity. Qed.

Lemma spawnEnemy_config col row level total w :
  difficultyConfigRef (refs (spawnEnemy col row level total w))
  = difficultyConfigRef (refs w).
Proof. rewrite spawnEnemy_unfold. reflexivity. Qed.

Lemma spawnedEnemy_type col row level total w :
  Enemy.type (spawnedEnemy col row level total w)
  = rollType (difficultyConfigRef (refs w)) (Math_random (rng w)).
Proof.
  unfold spawnedEnemy.
  destruct (divingEnemies _ && Qltb _ _);
    cbn [Enemy.type Enemy.set_diveAtPlayer levelAdjusted
         Enemy.set_dropPowerUpChance Enemy.set_shootProbability
         Enemy.set_speed Enemy.set_health];
    apply new_type.
Qed.

Lemma spawnedEnemy_health col row level total w :
  Enemy.health (spawnedEnemy col row level total w)
  = (match rollType (difficultyConfigRef (refs w)) (Math_random (rng w)) with
     | TANK => 3
     | _ => 1
     end * enemyHealthMultiplier (difficultyConfigRef (refs w)))%Z.
Proof.
  unfold spawnedEnemy.
  destruct (divingEnemies _ && Qltb _ _);
    cbn [Enemy.health Enemy.set_diveAtPlayer levelAdjusted
         Enemy.set_dropPowerUpChance Enemy.set_shootProbability
         Enemy.set_speed Enemy.set_health];
    rewrite new_health; reflexivity.
Qed.

(** A tank is rolled only when the tank probability is positive. *)
Lemma rollType_tank (c : DifficultyConfig) (r : Q) :
  rollType c r = TANK -> 0 < tankProbability c.
Proof.
  unfold rollType.
  destruct (Qltb r (shooterProbability c)) eqn:Hs; [intros [=] |].
  destruct (Qltb r (shooterProbability c + tankProbability c)) eqn:Ht.
  - intros _. apply Qltb_false in Hs. apply Qltb_true in Ht. lra.
  - destruct (Qltb r (shooterProbability c + tankProbability c
                      + fastProbability c)); intros [=].
Qed.

(** With all three probabilities at zero the roll gives a basic enemy,
    whatever non-negative number is drawn. *)
Lemma rollType_basic (c : DifficultyConfig) (r : Q) :
  shooterProbability c == 0 -> tankProbability c == 0 ->
  fastProbability c == 0 -> 0 <= r ->
  rollType c r = BASIC.
Proof.
  intros Hs Ht Hf Hr. unfold rollType.
  assert (E1 : Qltb r (shooterProbability c) = false).
  { apply Qltb_false. lra. }
  assert (E2 : Qltb r (shooterProbability c + tankProbability c) = false).
  { apply Qltb_false. lra. }
  assert (E3 : Qltb r (shooterProbability c + tankProbability c
                       + fastProbability c) = false).
  { apply Qltb_false. lra. }
  rewrite E1, E2, E3. reflexivity.
Qed.

End Spawn.

Lemma tankProbability_positive (L : Z) :
  0 < tankProbability (getDifficultyConfig L) -> (3 <= L)%Z.
Proof.
  unfold getDifficultyConfig; cbn [tankProbability].
  destruct (Z.leb_spec L 2) as [H | H]; [| lia].
  intros Hp. exfalso. revert Hp. apply Qle_not_lt.
  apply (Qle_trans _ 0.0); [apply Q.le_min_r | compute; discriminate].
Qed.

Lemma enemyHealthMultiplier_from_3 (L : Z) :
  (3 <= L)%Z ->
  enemyHealthMultiplier (getDifficultyConfig L) = if (L <? 6)%Z then 2%Z else 3%Z.
Proof.
  intros H. unfold getDifficultyConfig; cbn [enemyHealthMultiplier].
  rewrite DifficultyProps.floor_div_3.
  destruct (Z.ltb_spec L 6); Z.div_mod_to_equations; lia.
Qed.

(** C4, counterexample: a tank spawned under the configuration of level 3
    (the generator returning 0.2 selects the tank) has its health doubled to
    6, and the third call of [hit] still returns [false]. *)
Lemma tank_of_level_3_survives_three_hits :
  let rt := constantRuntime 0.2 in
  let w := upd_refs (set_difficultyConfigRef (getDifficultyConfig 3)) (mount 0) in
  exists e : Enemy.t,
    enemiesRef (refs (spawnEnemy 0 0 3 8 w)) = [e]
    /\ Enemy.type e = TANK
    /\ fst (Enemy.hit (hitTimes 2 e)) = false.
Proof.
  cbv zeta. eexists. split; [vm_compute; reflexivity |].
  split; vm_compute; reflexivity.
Qed.

(** C4, as amended: a tank pushed by [spawnEnemy] under the configuration of
    level [L] exists only from level 3 on and carries [3 * m] health points,
    where [m] is the health multiplier of the level (2 at levels 3 to 5, 3
    from level 6 on); [hit] returns [false] on each of the first [3 * m - 1]
    calls and [true] on call number [3 * m]; every call lowers [initialSize]
    by 0.2. *)
Theorem spawned_tank_hits {rt : Runtime} (col row : Q) (level total L : Z)
    (w : World) :
  difficultyConfigRef (refs w) = getDifficultyConfig L ->
  Enemy.type (spawnedEnemy col row level total w) = TANK ->
  let e := spawnedEnemy col row level total w in
  let n := (3 * enemyHealthMultiplier (getDifficultyConfig L))%Z in
  enemiesRef (refs (spawnEnemy col row level total w)) = enemiesRef (refs w) ++ [e]
  /\ (3 <= L)%Z
  /\ n = (if (L <? 6)%Z then 6 else 9)%Z
  /\ (forall k : nat, (Z.of_nat k < n - 1)%Z ->
        fst (Enemy.hit (hitTimes k e)) = false)
  /\ fst (Enemy.hit (hitTimes (Z.to_nat (n - 1)) e)) = true
  /\ (forall k : nat,
        Enemy.initialSize (hitTimes (S k) e)
        = Enemy.initialSize (hitTimes k e) - 0.2).
Proof.
  intros Hc Ht e n.
  assert (Hroll : rollType (getDifficultyConfig L) (Math_random (rng w)) = TANK).
  { rewrite <- Hc, <- (spawnedEnemy_type col row level total w). exact Ht. }
  assert (HL : (3 <= L)%Z).
  { apply tankProbability_positive. eapply rollType_tank. exact Hroll. }
  assert (Hh : Enemy.health e = n).
  { subst e n. rewrite spawnedEnemy_health, Hc, Hroll. reflexivity. }
  assert (Hn : n = (if (L <? 6)%Z then 6 else 9)%Z).
  { subst n. rewrite (enemyHealthMultiplier_from_3 L HL).
    destruct (L <? 6)%Z; reflexivity. }
  split; [apply spawnEnemy_enemies |].
  split; [exact HL |].
  split; [exact Hn |].
  split; [| split].
  - intros k Hk. rewrite hit_result, hitTimes_health, Hh.
    apply Z.leb_gt. lia.
  - rewrite hit_result, hitTimes_health, Hh.
    apply Z.leb_le. destruct (L <? 6)%Z; lia.
  - intros k. cbn [hitTimes]. apply hit_initialSize_tank.
    rewrite hitTimes_type. exact Ht.
Qed.

(** The theorem on the tank of level 3 that the generator returning 0.2
    selects: six hits. *)
Lemma spawned_tank_hits_witness :
  let rt := constantRuntime 0.2 in
  let w := upd_refs (set_difficultyConfigRef (getDifficultyConfig 3)) (mount 0) in
  fst (Enemy.hit (hitTimes 5 (spawnedEnemy 0 0 3 8 w))) = true.
Proof.
  cbv zeta.
  pose proof (spawned_tank_hits (rt := constantRuntime 0.2) 0 0 3 8 3
                (upd_refs (set_difficultyConfigRef (getDifficultyConfig 3))
                          (mount (rt := constantRuntime 0.2) 0))
                eq_refl) as H.
  cbv zeta in H.
  destruct (H ltac:(vm_compute; reflexivity)) as (_ & _ & _ & _ & H5 & _).
  exact H5.
Defined.

(** The rendered size is another matter.  [draw] scales the hexagon by
    [sizeMultiplier], which multiplies [initialSize] by the health; for the
    nine-point tank of level 6 (the generator returning 0.4 selects it)
    [initialSize] is negative from the sixth hit on, and the eighth hit makes
    the hexagon larger than the seventh left it. *)
Lemma tank_of_level_6_grows_on_eighth_hit :
  let rt := constantRuntime 0.4 in
  let w := upd_refs (set_difficultyConfigRef (getDifficultyConfig 6)) (mount 0) in
  let e := spawnedEnemy 0 0 6 12 w in
  Enemy.type e = TANK
  /\ Enemy.health e = 9%Z
  /\ Enemy.sizeMultiplier (hitTimes 7 e) < Enemy.sizeMultiplier (hitTimes 8 e).
Proof.
  cbv zeta. conj_compute.
Qed.

End EnemyProps.

(** ** Iteration *)

Lemma forEachFrom_preserves {S A B : Type} (get : S -> list A)
    (f : A -> nat -> S -> S) (proj : S -> B) :
  (forall a i s, proj (f a i s) = proj s) ->
  forall count index s, proj (forEachFrom get f count index s) = proj s.
Proof.
  intros Hf count. induction count as [| count IH]; intros index s.
  - reflexivity.
  - cbn [forEachFrom]. rewrite IH.
    destruct (get s !! index); [apply Hf | reflexivity].
Qed.

Lemma forEach_preserves {S A B : Type} (get : S -> list A)
    (f : A -> nat -> S -> S) (proj : S -> B) :
  (forall a i s, proj (f a i s) = proj s) ->
  forall s, proj (forEach get f s) = proj s.
Proof. intros Hf s. apply forEachFrom_preserves. exact Hf. Qed.

Lemma forUpFrom_preserves {S B : Type} (body : nat -> S -> S) (proj : S -> B) :
  (forall i s, proj (body i s) = proj s) ->
  forall count index s, proj (forUpFrom body count index s) = proj s.
Proof.
  intros Hf count. induction count as [| count IH]; intros index s.
  - reflexivity.
  - cbn [forUpFrom]. rewrite IH. apply Hf.
Qed.

Lemma forUp_preserves {S B : Type} (body : nat -> S -> S) (proj : S -> B) :
  (forall i s, proj (body i s) = proj s) ->
  forall n s, proj (forUp body n s) = proj s.
Proof. intros Hf n s. apply forUpFrom_preserves. exact Hf. Qed.

(** ** Power-ups *)

Module PowerUpProps.

Section WithRuntime.
Context {rt : Runtime}.

Lemma pushParticle_particles x y c w :
  particles (loop (pushParticle x y c w))
  = particles (loop w) ++ [fst (Particle.new x y c (rng w))].
Proof. reflexivity. Qed.

Lemma onlyParticlesAdded_refl w : onlyParticlesAdded w w.
Proof.
  unfold onlyParticlesAdded. repeat split. exists []. now rewrite app_nil_r.
Qed.

Lemma onlyParticlesAdded_trans w1 w2 w3 :
  onlyParticlesAdded w1 w2 -> onlyParticlesAdded w2 w3 ->
  onlyParticlesAdded w1 w3.
Proof.
  unfold onlyParticlesAdded.
  intros (A1 & A2 & A3 & A4 & A5 & A6 & A7 & A8 & A9 & ps & A10)
         (B1 & B2 & B3 & B4 & B5 & B6 & B7 & B8 & B9 & qs & B10).
  repeat split; try congruence.
  exists (ps ++ qs). rewrite B10, A10. now rewrite app_assoc.
Qed.

Lemma pushParticle_only x y c w : onlyParticlesAdded w (pushParticle x y c w).
Proof.
  unfold onlyParticlesAdded. repeat split.
  eexists. apply pushParticle_particles.
Qed.

Lemma pushParticles_only x y c n :
  forall index w,
    onlyParticlesAdded w (forUpFrom (fun _ w => pushParticle x y c w) n index w).
Proof.
  induction n as [| n IH]; intros index w; cbn [forUpFrom].
  - apply onlyParticlesAdded_refl.
  - eapply onlyParticlesAdded_trans; [apply pushParticle_only | apply IH].
Qed.

Lemma pushParticles_length x y c n :
  forall index w,
    length (particles (loop (forUpFrom (fun _ w => pushParticle x y c w) n index w)))
    = (length (particles (loop w)) + n)%nat.
Proof.
  induction n as [| n IH]; intros index w; cbn [forUpFrom].
  - lia.
  - rewrite IH, pushParticle_particles, length_app. cbn [length]. lia.
Qed.

Lemma createExplosion_only x y c w :
  onlyParticlesAdded w (createExplosion x y c w).
Proof. apply pushParticles_only. Qed.

Lemma createExplosion_length x y c w :
  length (particles (loop (createExplosion x y c w)))
  = (length (particles (loop w)) + 10)%nat.
Proof. apply pushParticles_length. Qed.

Lemma createExplosion_gameState x y c w :
  gameState (createExplosion x y c w) = gameState w.
Proof. apply (createExplosion_only x y c w). Qed.

(** A step of the power-up loop leaves [gameState] alone, whatever the type
    of the power-up. *)
Lemma powerUpStep_gameState now p index w :
  gameState (powerUpStep now p index w) = gameState w.
Proof.
  unfold powerUpStep.
  destruct (Qgtb _ GAME_HEIGHT); [reflexivity |].
  destruct (PowerUp.checkCollision _ _); [| reflexivity].
  rewrite createExplosion_gameState. reflexivity.
Qed.

(** C10: activating a HEALTH power-up changes no field of the player; the
    power-up loop of a frame never changes [gameState], hence never its
    [health], whatever the types of the power-ups; and collecting a HEALTH
    power-up only removes it from the array and adds ten particles (the
    game state, the refs, the timers, the player, the bullets and the
    explosions are as before). *)
Theorem health_powerUp_restores_nothing :
  (forall (now : Z) (p : Player.t), Player.activatePowerUp now HEALTH p = p)
  /\ (forall (now : Z) (w : World),
         gameState (forEach (fun w => powerUps (loop w)) (powerUpStep now) w)
         = gameState w)
  /\ (forall (now : Z) (powerUp : PowerUp.t) (index : nat) (w : World),
         PowerUp.type powerUp = HEALTH ->
         Qgtb (PowerUp.y (PowerUp.update powerUp)) GAME_HEIGHT = false ->
         PowerUp.checkCollision (PowerUp.update powerUp) (player (loop w)) = true ->
         let w' := powerUpStep now powerUp index w in
         gameState w' = gameState w
         /\ refs w' = refs w
         /\ timers w' = timers w
         /\ player (loop w') = player (loop w)
         /\ bullets (loop w') = bullets (loop w)
         /\ explosions (loop w') = explosions (loop w)
         /\ powerUps (loop w')
            = delete index (<[index := PowerUp.update powerUp]> (powerUps (loop w)))
         /\ length (particles (loop w')) = (length (particles (loop w)) + 10)%nat).
Proof.
  split; [reflexivity |].
  split.
  - intros now w. apply forEach_preserves. intros p i s.
    apply powerUpStep_gameState.
  - intros now powerUp index w Hty Hy Hc w'. subst w'.
    assert (Hty' : PowerUp.type (PowerUp.update powerUp) = HEALTH).
    { unfold PowerUp.update. cbv zeta.
      destruct (Qgeb _ 1); [exact Hty |].
      destruct (Qleb _ 0); exact Hty. }
    unfold powerUpStep. cbv zeta.
    rewrite Hy.
    change (player (loop (upd_loop _ w))) with (player (loop w)).
    rewrite Hc, Hty'.
    match goal with
    | |- context [createExplosion ?x ?y ?c ?v] =>
        pose proof (createExplosion_only x y c v)
          as (G1 & _ & G3 & G4 & _ & G6 & G7 & G8 & G9 & _);
        pose proof (createExplosion_length x y c v) as G10
    end.
    rewrite G1, G3, G4, G6, G7, G8, G9, G10.
    repeat split; reflexivity.
Qed.

End WithRuntime.

(** The theorem on a HEALTH power-up that reaches the player of a freshly
    mounted game: the player is as before. *)
Lemma health_powerUp_restores_nothing_witness :
  let rt := constantRuntime 0.5 in
  let w := upd_loop (set_powerUps [PowerUp.new 420 540 HEALTH]) (mount 0) in
  player (loop (powerUpStep 16 (PowerUp.new 420 540 HEALTH) 0 w))
  = player (loop w).
Proof.
  cbv zeta.
  destruct (health_powerUp_restores_nothing (rt := constantRuntime 0.5))
    as (_ & _ & H).
  apply (H 16%Z (PowerUp.new 420 540 HEALTH) 0%nat
           (upd_loop (set_powerUps [PowerUp.new 420 540 HEALTH])
                     (mount (rt := constantRuntime 0.5) 0))).
  - reflexivity.
  - vm_compute. reflexivity.
  - vm_compute. reflexivity.
Defined.

End PowerUpProps.

(** ** The first wave of level 1 *)

Module SpawnProps.

Section WithRuntime.
Context {rt : Runtime}.

#[local] Opaque spawnEnemy.

Lemma setTimeout_refs cb delay now w :
  refs (snd (setTimeout cb delay now w)) = refs w.
Proof. reflexivity. Qed.

Lemma createFormation_linear enemyCount startRow level w :
  refs (createFormation linear enemyCount startRow level w)
  = refs (forUpFrom (fun col w => spawnEnemy (colQ col) (inject_Z startRow)
                                             level enemyCount w)
                    (Z.to_nat enemyCount) 0 w).
Proof. reflexivity. Qed.

Lemma level1_probabilities :
  shooterProbability (getDifficultyConfig 1) == 0
  /\ tankProbability (getDifficultyConfig 1) == 0
  /\ fastProbability (getDifficultyConfig 1) == 0.
Proof. repeat split; vm_compute; reflexivity. Qed.

(** A row of [n] calls of [spawnEnemy] under the configuration of level 1
    appends [n] basic enemies. *)
Lemma spawn_row_level1 (row : Q) (level total : Z) (n : nat) :
  (forall k : nat, 0 <= Math_random k) ->
  forall (index : nat) (w : World),
    difficultyConfigRef (refs w) = getDifficultyConfig 1 ->
    exists es : list Enemy.t,
      enemiesRef (refs (forUpFrom
                          (fun col w => spawnEnemy (colQ col) row level total w)
                          n index w))
      = enemiesRef (refs w) ++ es
      /\ length es = n
      /\ Forall (fun e => Enemy.type e = BASIC) es.
Proof.
  intros Hr. induction n as [| n IH]; intros index w Hc; cbn [forUpFrom].
  - exists []. rewrite app_nil_r. repeat split. constructor.
  - destruct (IH (S index) (spawnEnemy (colQ index) row level total w))
      as (es & He & Hl & Hf).
    { rewrite EnemyProps.spawnEnemy_config. exact Hc. }
    exists (spawnedEnemy (colQ index) row level total w :: es).
    split; [| split].
    + rewrite He, EnemyProps.spawnEnemy_enemies, <- app_assoc. reflexivity.
    + cbn [length]. now rewrite Hl.
    + constructor; [| exact Hf].
      rewrite EnemyProps.spawnedEnemy_type, Hc.
      destruct level1_probabilities as (Hs & Ht & Hq).
      apply EnemyProps.rollType_basic; try assumption. apply Hr.
Qed.

(** The path that [spawnEnemyWave 1 0] takes under the configuration of
    level 1: the wave counter is set, the linear formation of five is
    created and, the wave being the last, the settle timer is armed. *)
Lemma spawnEnemyWave_level1_wave0 (now : Z) (w : World) :
  difficultyConfigRef (refs w) = getDifficultyConfig 1 ->
  spawnEnemyWave now 1 0 w
  = snd (setTimeout (CbCheckLastWave 1) 2000 now
           (createFormation linear 5 0 1
              (upd_refs (set_currentWaveRef 0%Z) w))).
Proof.
  intros Hc. unfold spawnEnemyWave. rewrite Hc.
  change (maxWaves (getDifficultyConfig 1)) with 1%Z.
  change (baseEnemiesPerWave (getDifficultyConfig 1)) with 5%Z.
  reflexivity.
Qed.

(** C7: under the configuration of level 1, [spawnEnemyWave 1 0] chooses the
    linear formation and appends exactly five enemies to the collection, all
    of them basic, whatever values the random generator returns. *)
Theorem level1_wave0_five_basic (now : Z) (w : World) :
  RandomInRange rt ->
  difficultyConfigRef (refs w) = getDifficultyConfig 1 ->
  fst (chooseFormation 1 (upd_refs (set_currentWaveRef 0%Z) w)) = linear
  /\ exists e0 e1 e2 e3 e4 : Enemy.t,
       enemiesRef (refs (spawnEnemyWave now 1 0 w))
       = enemiesRef (refs w) ++ [e0; e1; e2; e3; e4]
       /\ Forall (fun e => Enemy.type e = BASIC) [e0; e1; e2; e3; e4].
Proof.
  intros Hr Hc. split; [reflexivity |].
  destruct (spawn_row_level1 (inject_Z 0) 1 5 5
              (fun k => proj1 (Hr k)) 0%nat
              (upd_refs (set_currentWaveRef 0%Z) w) Hc)
    as (es & He & Hl & Hf).
  destruct es as [| e0 [| e1 [| e2 [| e3 [| e4 [| e5 es]]]]]];
    try discriminate Hl.
  exists e0, e1, e2, e3, e4. split; [| exact Hf].
  change (enemiesRef (refs w))
    with (enemiesRef (refs (upd_refs (set_currentWaveRef 0%Z) w))).
  rewrite <- He.
  rewrite (spawnEnemyWave_level1_wave0 now w Hc).
  rewrite setTimeout_refs, createFormation_linear.
  reflexivity.
Qed.

End WithRuntime.

(** The theorem on the freshly mounted game with a generator that always
    returns one half. *)
Lemma level1_wave0_five_basic_witness :
  let rt := constantRuntime 0.5 in
  exists e0 e1 e2 e3 e4 : Enemy.t,
    enemiesRef (refs (spawnEnemyWave 0 1 0 (mount 0)))
    = enemiesRef (refs (mount 0)) ++ [e0; e1; e2; e3; e4]
    /\ Forall (fun e => Enemy.type e = BASIC) [e0; e1; e2; e3; e4].
Proof.
  cbv zeta.
  apply (proj2 (level1_wave0_five_basic (rt := constantRuntime 0.5) 0
                  (mount (rt := constantRuntime 0.5) 0)
                  ltac:(intros n; split; vm_compute;
                        [discriminate | reflexivity])
                  ltac:(vm_compute; reflexivity))).
Defined.

End SpawnProps.

(** ** Level completion *)

Module ProgressionProps.

Section WithRuntime.
Context {rt : Runtime}.

Lemma handleLevelComplete_blocked now nextLevel w :
  gameJustStartedRef (refs w) = true ->
  handleLevelComplete now nextLevel w = w.
Proof. intros H. unfold handleLevelComplete. now rewrite H. Qed.

(** C2: while [gameJustStartedRef] is set, every way into the level
    completion is without effect: [handleLevelComplete] itself, the check
    made by the game loop, the 500 ms observer and its confirmation, the
    settle timer of the last wave and the call of [spawnEnemyWave] past the
    last wave return the state unchanged, and the one-second progression
    timer changes neither the level, the victory flag, the wave counter nor
    the enemy collection. *)
Theorem grace_window_blocks_completion (now : Z) (w : World) :
  gameJustStartedRef (refs w) = true ->
  (forall nextLevel : Z, handleLevelComplete now nextLevel w = w)
  /\ checkForLevelCompletion now w = w
  /\ observerTick now w = w
  /\ (forall closure : GameState,
         runCallback now (CbObserverConfirm closure) w = w)
  /\ (forall level : Z, runCallback now (CbCheckLastWave level) w = w)
  /\ (forall level waveNumber : Z,
         (maxWaves (difficultyConfigRef (refs w)) <= waveNumber)%Z ->
         spawnEnemyWave now level waveNumber w = w)
  /\ (forall closure : GameState,
         completionView (runCallback now (CbLevelProgress closure) w)
         = completionView w).
Proof.
  intros H.
  split; [intros nextLevel; now apply handleLevelComplete_blocked |].
  split; [unfold checkForLevelCompletion; now rewrite H |].
  split.
  { unfold observerTick. rewrite H, !orb_true_r. reflexivity. }
  split.
  { intros closure. cbn [runCallback]. rewrite H.
    cbn [negb]. rewrite !andb_false_r. reflexivity. }
  split.
  { intros level. cbn [runCallback].
    destruct (noEnemies w && negb (victory mountState));
      [now apply handleLevelComplete_blocked | reflexivity]. }
  split.
  { intros level waveNumber Hmax. unfold spawnEnemyWave.
    apply Z.leb_le in Hmax. rewrite Hmax, H.
    cbn [negb]. rewrite !andb_false_r. reflexivity. }
  intros closure. cbn [runCallback]. rewrite H.
  cbn [negb]. rewrite andb_false_r. reflexivity.
Qed.

(** Outside the grace window [handleLevelComplete] always runs: its second
    guard reads the victory flag of [mountState], which is never set. *)
Lemma handleLevelComplete_runs now nextLevel w :
  gameJustStartedRef (refs w) = false ->
  let w' := handleLevelComplete now nextLevel w in
  level (gameState w') = nextLevel
  /\ victory (gameState w') = true
  /\ savedLevel w' = Some nextLevel
  /\ gameJustStartedRef (refs w') = false
  /\ waveTimeoutRef (refs w') = None
  /\ levelProgressTimeoutRef (refs w') = None
  /\ List.In {| handle := nextTimer w; due := (now + 2500)%Z;
                callback := CbLevelInit nextLevel |} (timers w').
Proof.
  destruct w as [gs u [en ks wt cw dc gj ep pd go lp] lo rd ru os ts nt sl rg no].
  cbn [refs gameJustStartedRef]. intros ->.
  unfold handleLevelComplete.
  cbn [refs gameJustStartedRef mountState initialGameState victory].
  destruct lp as [lp |]; destruct wt as [wt |];
    cbn -[Z.add filter];
    (repeat split; try reflexivity);
    apply in_or_app; right; left; reflexivity.
Qed.

(** Once the two timer refs are clear, a call outside the grace window adds
    one timer and removes none. *)
Lemma handleLevelComplete_timers now nextLevel w :
  gameJustStartedRef (refs w) = false ->
  waveTimeoutRef (refs w) = None ->
  levelProgressTimeoutRef (refs w) = None ->
  timers (handleLevelComplete now nextLevel w)
  = timers w ++ [ {| handle := nextTimer w; due := (now + 2500)%Z;
                     callback := CbLevelInit nextLevel |} ].
Proof.
  destruct w as [gs u [en ks wt cw dc gj ep pd go lp] lo rd ru os ts nt sl rg no].
  cbn [refs gameJustStartedRef waveTimeoutRef levelProgressTimeoutRef].
  intros -> -> ->. reflexivity.
Qed.

Lemma pendingLevelInits_app (w : World) (t : Timer) (ts : list Timer) :
  timers w = ts ++ [t] ->
  (exists l, callback t = CbLevelInit l) ->
  pendingLevelInits w
  = S (length (List.filter (fun t => match callback t with
                                     | CbLevelInit _ => true
                                     | _ => false
                                     end) ts)).
Proof.
  intros E [l Hl]. unfold pendingLevelInits.
  rewrite E, List.filter_app, length_app. cbn [List.filter].
  rewrite Hl. cbn [length]. lia.
Qed.

(** C1, the code at the failing input: outside the grace window a second
    call of [handleLevelComplete] for the same level, made while the victory
    flag set by the first call is up, is not ignored: it arms a second
    timer that will initialise the next level (and, as the first call did,
    saves the progress and raises the flags). *)
Theorem handleLevelComplete_not_idempotent (now1 now2 nextLevel : Z) (w : World) :
  gameJustStartedRef (refs w) = false ->
  let w1 := handleLevelComplete now1 nextLevel w in
  let w2 := handleLevelComplete now2 nextLevel w1 in
  victory (gameState w1) = true
  /\ timers w2
     = timers w1 ++ [ {| handle := nextTimer w1; due := (now2 + 2500)%Z;
                         callback := CbLevelInit nextLevel |} ]
  /\ pendingLevelInits w2 = S (pendingLevelInits w1).
Proof.
  intros H w1 w2.
  destruct (handleLevelComplete_runs now1 nextLevel w H)
    as (_ & Hv & _ & Hg & Hw & Hl & _).
  fold w1 in Hv, Hg, Hw, Hl.
  pose proof (handleLevelComplete_timers now2 nextLevel w1 Hg Hw Hl) as Ht.
  fold w2 in Ht.
  split; [exact Hv |]. split; [exact Ht |].
  rewrite (pendingLevelInits_app w2 _ _ Ht); [reflexivity | eauto].
Qed.

End WithRuntime.

(** The grace-window theorem on the freshly mounted game, whose flag is
    set. *)
Lemma grace_window_blocks_completion_witness :
  let rt := constantRuntime 0.5 in
  checkForLevelCompletion 16 (mount 0) = mount 0
  /\ observerTick 500 (mount 0) = mount 0.
Proof.
  cbv zeta.
  destruct (grace_window_blocks_completion (rt := constantRuntime 0.5) 16
              (mount (rt := constantRuntime 0.5) 0) eq_refl)
    as (_ & H1 & _).
  destruct (grace_window_blocks_completion (rt := constantRuntime 0.5) 500
              (mount (rt := constantRuntime 0.5) 0) eq_refl)
    as (_ & _ & H2 & _).
  split; assumption.
Defined.

(** The failing input of C1 run on the state [lastWaveCleared]: the settle
    timer of the last wave and the confirmation of the observer both call
    [handleLevelComplete] for level 3, and both calls take effect. *)
Lemma handleLevelComplete_not_idempotent_witness :
  let rt := constantRuntime 0.5 in
  let w1 := handleLevelComplete 21000 3 lastWaveCleared in
  let w2 := handleLevelComplete 21001 3 w1 in
  victory (gameState w1) = true
  /\ timers w2
     = timers w1 ++ [ {| handle := nextTimer w1; due := (21001 + 2500)%Z;
                         callback := CbLevelInit 3 |} ]
  /\ pendingLevelInits w2 = S (pendingLevelInits w1).
Proof.
  cbv zeta.
  apply (handleLevelComplete_not_idempotent
           21000 21001 3 (lastWaveCleared (rt := constantRuntime 0.5))).
  vm_compute. reflexivity.
Defined.

(** What the two calls lead to: each of the two initialisation timers clears
    the enemies and arms a spawn, and the two spawns put two copies of
    wave 0 of level 3 on the field, sixteen enemies where one completion
    gives eight. *)
Lemma double_completion_doubles_wave :
  let rt := constantRuntime 0.5 in
  let once := run [EvTimer 21000 40; EvTimer 23500 42; EvTimer 23600 43]
                  lastWaveCleared in
  let twice := run [EvTimer 21000 40; EvTimer 21001 41;
                    EvTimer 23500 42; EvTimer 23501 43;
                    EvTimer 23600 44; EvTimer 23601 46]
                   lastWaveCleared in
  level (gameState once) = 3%Z
  /\ length (enemiesRef (refs once)) = 8%nat
  /\ level (gameState twice) = 3%Z
  /\ length (enemiesRef (refs twice)) = 16%nat.
Proof.
  cbv zeta. conj_compute.
Qed.

End ProgressionProps.

(** ** Bullets *)

Module BulletProps.

(** Removing index [j] and then index [k] of an array, with [j < k], leaves
    the element that was at [k] in place, at index [k - 1]. *)
Lemma delete_delete_keeps {A : Type} (l : list A) (j k : nat) :
  (j < k)%nat ->
  delete k (delete j l) !! (k - 1)%nat = l !! k.
Proof.
  intros Hjk.
  rewrite list_lookup_delete_lt by lia.
  rewrite list_lookup_delete_ge by lia.
  f_equal. lia.
Qed.

Section WithRuntime.
Context {rt : Runtime}.

Lemma pushParticles_bullets x y c n :
  forall index w,
    bullets (loop (forUpFrom (fun _ w => pushParticle x y c w) n index w))
    = bullets (loop w).
Proof.
  intros index w. apply (PowerUpProps.pushParticles_only x y c n index w).
Qed.

(** What [bulletHitsBullet] leaves in the array. *)
Lemma bulletHitsBullet_bullets pb k eb j w :
  bullets (loop (bulletHitsBullet pb k eb j w))
  = delete k (delete j (bullets (loop w))).
Proof.
  unfold bulletHitsBullet. cbv zeta.
  cbn [setGameState set_gameState loop spliceBullet upd_loop set_loop
       bullets set_bullets].
  unfold forUp. rewrite pushParticles_bullets. reflexivity.
Qed.

(** When the enemy bullet comes first in the array, the player bullet is
    still in the array after the two [splice] calls. *)
Lemma bulletHitsBullet_player_bullet_stays pb k eb j w :
  (j < k)%nat ->
  bullets (loop (bulletHitsBullet pb k eb j w)) !! (k - 1)%nat
  = bullets (loop w) !! k.
Proof.
  intros Hjk. rewrite bulletHitsBullet_bullets.
  now apply delete_delete_keeps.
Qed.

End WithRuntime.

(** C6, the code at the failing input: the array holds the enemy bullet at
    index 0 and the player bullet at index 1, and the two overlap.  The loop
    over the bullets removes the enemy bullet and adds 10 to the score, but
    the second [splice] uses the index that the player bullet had before
    the first one, so the player bullet stays in the array. *)
Theorem player_bullet_survives_bullet_collision :
  let rt := constantRuntime 0.5 in
  let w := forEach (fun w => bullets (loop w)) (bulletStep 16) enemyBulletFirst in
  checkBulletCollision (Bullet.update playerBulletBelow)
                       (Bullet.update enemyBulletAbove) = true
  /\ bullets (loop w) = [Bullet.update playerBulletBelow]
  /\ score (gameState w) = (score (gameState enemyBulletFirst) + 10)%Z
  /\ enemiesRef (refs w) = enemiesRef (refs enemyBulletFirst).
Proof.
  cbv zeta. conj_compute.
Qed.

(** The same two bullets in the other order: both are removed. *)
Lemma both_bullets_removed_when_player_bullet_first :
  let rt := constantRuntime 0.5 in
  let w := forEach (fun w => bullets (loop w)) (bulletStep 16) playerBulletFirst in
  bullets (loop w) = []
  /\ score (gameState w) = (score (gameState playerBulletFirst) + 10)%Z.
Proof.
  cbv zeta. conj_compute.
Qed.

End BulletProps.

(** ** The hit that ends the game *)

Module GameOverProps.

Section WithRuntime.
Context {rt : Runtime}.





Lemma update_isEnemyBullet (b : Bullet.t) :
  Bullet.isEnemyBullet (Bullet.update b) = Bullet.isEnemyBullet b.
Proof.
  unfold Bullet.update. destruct (negb (Qeq_bool (Bullet.angle b) 0)); reflexivity.
Qed.

Lemma player_upd_bullets (bs : list Bullet.t -> list Bullet.t) (w : World) :
  player (loop (upd_loop (fun l => set_bullets (bs (bullets l)) l) w))
  = player (loop w).
Proof. reflexivity. Qed.




End WithRuntime.



End GameOverProps.

(** ** Starting a new game *)

Module NewGameProps.

(** What [startNewGame] does reset: the game state, the enemy collection,
    the wave counter, the configuration, the saved level, and the three
    timers that are tracked by a ref. *)
Lemma startNewGame_resets (now : Z) (w : World) :
  let w' := startNewGame now w in
  gameState w' = initialGameState
  /\ enemiesRef (refs w') = []
  /\ currentWaveRef (refs w') = 0%Z
  /\ difficultyConfigRef (refs w') = getDifficultyConfig 1
  /\ gameJustStartedRef (refs w') = true
  /\ waveTimeoutRef (refs w') = None
  /\ levelProgressTimeoutRef (refs w') = None
  /\ gameOverTimeoutRef (refs w') = None
  /\ savedLevel w' = None.
Proof.
  destruct w as [gs u [en ks wt cw dc gj ep pd go lp] lo rd ru os ts nt sl rg no].
  destruct wt, lp, go; cbv zeta;
    repeat (split; [reflexivity |]); reflexivity.
Qed.

(** The timers pending after [startNewGame]: those pending before, minus the
    three tracked ones, plus the timer that will spawn the first wave. *)
Lemma startNewGame_timers (now : Z) (w : World) :
  let drop (h : option positive) (ts : list Timer) :=
    match h with
    | Some id => filter (fun t => handle t <> id) ts
    | None => ts
    end in
  timers (startNewGame now w)
  = drop (gameOverTimeoutRef (refs w))
      (drop (levelProgressTimeoutRef (refs w))
         (drop (waveTimeoutRef (refs w)) (timers w)))
    ++ [ {| handle := nextTimer w; due := (now + 100)%Z;
            callback := CbNewGameStart (rendered w) |} ].
Proof.
  destruct w as [gs u [en ks wt cw dc gj ep pd go lp] lo rd ru os ts nt sl rg no].
  destruct wt, lp, go; reflexivity.
Qed.

(** A timer whose handle is in none of the three refs is still pending after
    [startNewGame]. *)
Lemma startNewGame_keeps_untracked (now : Z) (w : World) (t : Timer) :
  List.In t (timers w) ->
  waveTimeoutRef (refs w) <> Some (handle t) ->
  levelProgressTimeoutRef (refs w) <> Some (handle t) ->
  gameOverTimeoutRef (refs w) <> Some (handle t) ->
  List.In t (timers (startNewGame now w)).
Proof.
  intros Hin Hw Hl Hg. rewrite startNewGame_timers. cbv zeta.
  apply in_or_app. left.
  apply list_elem_of_In. apply list_elem_of_In in Hin.
  destruct (gameOverTimeoutRef (refs w)) as [g |];
    destruct (levelProgressTimeoutRef (refs w)) as [l |];
    destruct (waveTimeoutRef (refs w)) as [v |];
    repeat (apply list_elem_of_filter; split; [congruence |]);
    exact Hin.
Qed.

(** C9, the code at the failing input: in [lostDuringTransition] the timer
    armed by [handleLevelComplete] for level 4 is pending.  [startNewGame]
    resets the game state to level 1 and empties the enemy collection, but
    that timer is not cancelled (nor is the grace timer, which the cleanup
    of the main effect removes at the next render); when it fires during the new game it empties
    the enemy collection again and installs the configuration of level 4, and
    the wave it then spawns is a wave of level 4, while the level shown is
    1. *)
Theorem startNewGame_leaves_level_timer :
  let rt := constantRuntime 0.5 in
  let stale := {| handle := 60%positive; due := 32000%Z;
                  callback := CbLevelInit 4 |} in
  let w := step (EvTryAgain 30000) lostDuringTransition in
  let w1 := run [EvRender 30001; EvTimer 30001 64; EvTimer 30001 66;
                 EvTimer 30100 63] w in
  let w2 := run [EvTimer 32000 60; EvTimer 32100 71] w1 in
  gameState w = initialGameState
  /\ enemiesRef (refs w) = []
  /\ timers w = [ {| handle := 59%positive; due := 32400%Z;
                     callback := CbEnableProgression |};
                  stale;
                  {| handle := 63%positive; due := 30100%Z;
                     callback := CbNewGameStart (rendered lostDuringTransition) |} ]
  /\ level (gameState w1) = 1%Z
  /\ difficultyConfigRef (refs w1) = getDifficultyConfig 1
  /\ length (enemiesRef (refs w1)) = 15%nat
  /\ level (gameState w2) = 1%Z
  /\ difficultyConfigRef (refs w2) = getDifficultyConfig 4
  /\ map Enemy.currentLevel (enemiesRef (refs w2)) = repeat 4%Z 9.
Proof.
  cbv zeta. conj_compute.
Qed.

End NewGameProps.

(** ** Comparisons, floors and loops: lemmas shared by the properties below *)

Lemma Qleb_true (a b : Q) : Qleb a b = true <-> a <= b.
Proof. unfold Qleb. apply Qle_bool_iff. Qed.

Lemma Qleb_false (a b : Q) : Qleb a b = false <-> b < a.
Proof.
  unfold Qleb. split; intros H.
  - apply Qnot_le_lt. intros Hle. apply Qle_bool_iff in Hle. congruence.
  - apply not_true_is_false. intros Hle. apply Qle_bool_iff in Hle.
    apply (Qlt_not_le _ _ H Hle).
Qed.

Lemma Qgeb_true (a b : Q) : Qgeb a b = true <-> b <= a.
Proof. unfold Qgeb. apply Qle_bool_iff. Qed.

Lemma Qgeb_false (a b : Q) : Qgeb a b = false <-> a < b.
Proof. unfold Qgeb. apply (Qleb_false b a). Qed.

(** The facts about one comparison, whichever way it went. *)
Ltac compare_spec c H :=
  destruct c eqn:H;
  [ first [ apply Qltb_true in H | apply Qgtb_true in H
          | apply Qleb_true in H | apply Qgeb_true in H ]
  | first [ apply Qltb_false in H | apply Qgtb_false in H
          | apply Qleb_false in H | apply Qgeb_false in H ] ].

(** [Math.floor] of a number in [0, n) is one of [0 .. n - 1]. *)
Lemma Qfloor_bounds (q : Q) (n : Z) :
  0 <= q -> q < inject_Z n -> (0 <= Qfloor q < n)%Z.
Proof.
  intros H0 Hn. split.
  - change 0%Z with (Qfloor 0). apply Qfloor_resp_le. exact H0.
  - rewrite Zlt_Qlt. eapply Qle_lt_trans; [apply Qfloor_le | exact Hn].
Qed.

(** An index drawn as [Math.floor(Math.random() * a.length)] falls inside
    the array. *)
Lemma random_index_in_range {A : Type} (a : list A) (r : Q) :
  0 <= r -> r < 1 -> a <> [] ->
  exists v : A,
    jsIndex a (Qfloor (r * inject_Z (Z.of_nat (length a)))) = Some v.
Proof.
  intros H0 H1 Hne.
  assert (Hlen : (0 < Z.of_nat (length a))%Z).
  { destruct a; [congruence | cbn [length]; lia]. }
  assert (HlenQ : 0 < inject_Z (Z.of_nat (length a))).
  { change 0 with (inject_Z 0). rewrite <- Zlt_Qlt. exact Hlen. }
  destruct (Qfloor_bounds (r * inject_Z (Z.of_nat (length a)))
              (Z.of_nat (length a))) as (Hlo & Hhi).
  - apply Qmult_le_0_compat; [exact H0 | apply Qlt_le_weak; exact HlenQ].
  - rewrite <- (Qmult_1_l (inject_Z (Z.of_nat (length a)))) at 2.
    apply Qmult_lt_compat_r; assumption.
  - unfold jsIndex.
    destruct (Z.ltb_spec (Qfloor (r * inject_Z (Z.of_nat (length a)))) 0);
      [lia |].
    apply lookup_lt_is_Some_2. lia.
Qed.

(** *** Invariants of the loops *)

Lemma forEachFrom_invariant {S A : Type} (get : S -> list A)
    (f : A -> nat -> S -> S) (P : S -> Prop) :
  (forall a i s, P s -> P (f a i s)) ->
  forall count index s, P s -> P (forEachFrom get f count index s).
Proof.
  intros Hf count. induction count as [| count IH]; intros index s Hs.
  - exact Hs.
  - cbn [forEachFrom]. apply IH.
    destruct (get s !! index); [apply Hf |]; exact Hs.
Qed.

Lemma forEach_invariant {S A : Type} (get : S -> list A)
    (f : A -> nat -> S -> S) (P : S -> Prop) :
  (forall a i s, P s -> P (f a i s)) ->
  forall s, P s -> P (forEach get f s).
Proof. intros Hf s. apply forEachFrom_invariant. exact Hf. Qed.

Lemma forUpFrom_invariant {S : Type} (body : nat -> S -> S) (P : S -> Prop) :
  (forall i s, P s -> P (body i s)) ->
  forall count index s, P s -> P (forUpFrom body count index s).
Proof.
  intros Hf count. induction count as [| count IH]; intros index s Hs.
  - exact Hs.
  - cbn [forUpFrom]. apply IH, Hf, Hs.
Qed.

Lemma forUp_invariant {S : Type} (body : nat -> S -> S) (P : S -> Prop) :
  (forall i s, P s -> P (body i s)) ->
  forall n s, P s -> P (forUp body n s).
Proof. intros Hf n s. apply forUpFrom_invariant. exact Hf. Qed.

Lemma forDown_invariant {S : Type} (body : nat -> S -> bool * S) (P : S -> Prop) :
  (forall i s, P s -> P (snd (body i s))) ->
  forall n s, P s -> P (forDown body n s).
Proof.
  intros Hf n. induction n as [| n IH]; intros s Hs.
  - exact Hs.
  - cbn [forDown]. specialize (Hf n s Hs).
    destruct (body n s) as [stop s']. cbn [snd] in Hf.
    destruct stop; [exact Hf | apply IH, Hf].
Qed.

(** ** The player *)

Module PlayerProps.

Lemma inField_moveLeft p : playerOk p -> playerOk (Player.moveLeft p).
Proof.
  unfold playerOk, inField, Player.moveLeft. cbn.
  intros ((Hx0 & Hx1 & Hy0 & Hy1) & Hs & Hb & Hw & Hh).
  repeat split; try assumption.
  - apply Q.le_max_l.
  - apply Q.max_lub; lra.
Qed.

Lemma inField_moveRight p : playerOk p -> playerOk (Player.moveRight p).
Proof.
  unfold playerOk, inField, Player.moveRight. cbn.
  intros ((Hx0 & Hx1 & Hy0 & Hy1) & Hs & Hb & Hw & Hh).
  repeat split; try assumption.
  - apply Q.min_glb; lra.
  - apply Q.le_min_l.
Qed.

Lemma inField_moveUp p : playerOk p -> playerOk (Player.moveUp p).
Proof.
  unfold playerOk, inField, Player.moveUp. cbn.
  intros ((Hx0 & Hx1 & Hy0 & Hy1) & Hs & Hb & Hw & Hh).
  repeat split; try assumption.
  - apply Q.le_max_l.
  - apply Q.max_lub; lra.
Qed.

Lemma inField_moveDown p : playerOk p -> playerOk (Player.moveDown p).
Proof.
  unfold playerOk, inField, Player.moveDown. cbn.
  intros ((Hx0 & Hx1 & Hy0 & Hy1) & Hs & Hb & Hw & Hh).
  repeat split; try assumption.
  - apply Q.min_glb; lra.
  - apply Q.le_min_l.
Qed.

Lemma playerOk_update now p : playerOk p -> playerOk (Player.update now p).
Proof.
  unfold playerOk, inField.
  intros ((Hx0 & Hx1 & Hy0 & Hy1) & Hs & Hb & Hw & Hh).
  unfold Player.update.
  destruct (_ && _); destruct (_ && _); destruct (_ && _); destruct (_ && _);
    cbn; repeat split; assumption.
Qed.

Lemma playerOk_activatePowerUp now ty p :
  playerOk p -> playerOk (Player.activatePowerUp now ty p).
Proof.
  unfold playerOk, inField.
  intros ((Hx0 & Hx1 & Hy0 & Hy1) & Hs & Hb & Hw & Hh).
  destruct ty; cbn; repeat split; try assumption.
  lra.
Qed.

Lemma playerOk_makeInvulnerable now p :
  playerOk p -> playerOk (Player.makeInvulnerable now p).
Proof. intros H. exact H. Qed.

Lemma playerOk_new : playerOk (Player.new (GAME_WIDTH / 2) (GAME_HEIGHT - 50)).
Proof.
  unfold playerOk, inField. cbn.
  repeat split; vm_compute; discriminate.
Qed.

(** What [update] does to each of the four effects. *)
Lemma update_hasShield t p :
  Player.hasShield (Player.update t p)
  = if (0 <? Player.shieldTimer p)%Z && (Player.shieldTimer p <? t)%Z
    then false else Player.hasShield p.
Proof.
  unfold Player.update.
  destruct (_ && _); destruct (_ && _); destruct (_ && _); destruct (_ && _);
    reflexivity.
Qed.

Lemma update_hasSpreadShot t p :
  Player.hasSpreadShot (Player.update t p)
  = if (0 <? Player.spreadShotTimer p)%Z && (Player.spreadShotTimer p <? t)%Z
    then false else Player.hasSpreadShot p.
Proof.
  unfold Player.update.
  destruct ((0 <? Player.shieldTimer p)%Z && _); cbn;
    destruct ((0 <? Player.spreadShotTimer p)%Z && _); cbn;
    destruct ((0 <? Player.speedTimer p)%Z && _); cbn;
    destruct ((0 <? Player.invulnerableTimer p)%Z && _); reflexivity.
Qed.

Lemma update_speed t p :
  Player.speed (Player.update t p)
  = if (0 <? Player.speedTimer p)%Z && (Player.speedTimer p <? t)%Z
    then Player.baseSpeed p else Player.speed p.
Proof.
  unfold Player.update.
  destruct ((0 <? Player.shieldTimer p)%Z && _); cbn;
    destruct ((0 <? Player.spreadShotTimer p)%Z && _); cbn;
    destruct ((0 <? Player.speedTimer p)%Z && _); cbn;
    destruct ((0 <? Player.invulnerableTimer p)%Z && _); reflexivity.
Qed.

Lemma update_baseSpeed t p :
  Player.baseSpeed (Player.update t p) = Player.baseSpeed p.
Proof.
  unfold Player.update.
  destruct ((0 <? Player.shieldTimer p)%Z && _); cbn;
    destruct ((0 <? Player.spreadShotTimer p)%Z && _); cbn;
    destruct ((0 <? Player.speedTimer p)%Z && _); cbn;
    destruct ((0 <? Player.invulnerableTimer p)%Z && _); reflexivity.
Qed.

Lemma update_invulnerable t p :
  Player.invulnerable (Player.update t p)
  = if (0 <? Player.invulnerableTimer p)%Z && (Player.invulnerableTimer p <? t)%Z
    then false else Player.invulnerable p.
Proof.
  unfold Player.update.
  destruct ((0 <? Player.shieldTimer p)%Z && _); cbn;
    destruct ((0 <? Player.spreadShotTimer p)%Z && _); cbn;
    destruct ((0 <? Player.speedTimer p)%Z && _); cbn;
    destruct ((0 <? Player.invulnerableTimer p)%Z && _); reflexivity.
Qed.

(** A timer set to [now + d] has run out at time [t] exactly when
    [now + d < t]. *)
Lemma window_open (now d t : Z) :
  (0 <= now)%Z -> (0 < d)%Z ->
  (if (0 <? now + d)%Z && (now + d <? t)%Z then false else true)
  = (t <=? now + d)%Z.
Proof.
  intros Hn Hd.
  destruct (Z.ltb_spec 0 (now + d)); [| lia]. cbn [andb].
  destruct (Z.ltb_spec (now + d) t), (Z.leb_spec t (now + d)); try lia;
    reflexivity.
Qed.

(** X1: the window of a power-up.  A shield, a spread shot or a speed boost
    collected at time [now] is on at the update of time [t] exactly when
    [t <= now + 5000]; collecting the same type again at [now2] replaces the
    window by the one that starts at [now2] (the effect does not stack); a
    HEALTH power-up switches nothing on. *)
Theorem powerUp_window (now now2 t : Z) (ty : PowerUpType) (p : Player.t) :
  (0 <= now)%Z ->
  0 < Player.baseSpeed p ->
  powerUpOn ty (Player.update t (Player.activatePowerUp now ty p))
  = match ty with
    | HEALTH => false
    | _ => (t <=? now + 5000)%Z
    end
  /\ Player.activatePowerUp now2 ty (Player.activatePowerUp now ty p)
     = Player.activatePowerUp now2 ty p.
Proof.
  intros Hnow Hb. split; [| destruct ty; reflexivity].
  destruct ty; unfold powerUpOn.
  - rewrite update_hasShield. cbn. apply window_open; lia.
  - rewrite update_hasSpreadShot. cbn. apply window_open; lia.
  - rewrite update_speed, update_baseSpeed. cbn.
    rewrite <- (window_open now 5000 t) by lia.
    destruct (_ && _).
    + apply not_true_is_false. intros Heq. apply Qeq_bool_iff in Heq. lra.
    + apply Qeq_bool_iff. reflexivity.
  - reflexivity.
Qed.

Lemma powerUp_window_witness :
  powerUpOn SPEED (Player.update 4000 (Player.activatePowerUp 1000 SPEED
                                         (Player.new 400 550)))
  = (4000 <=? 1000 + 5000)%Z
  /\ Player.activatePowerUp 3000 SPEED
       (Player.activatePowerUp 1000 SPEED (Player.new 400 550))
     = Player.activatePowerUp 3000 SPEED (Player.new 400 550).
Proof.
  apply (powerUp_window 1000 3000 4000 SPEED (Player.new 400 550)).
  - lia.
  - reflexivity.
Defined.

(** X2: invulnerability.  After a hit at time [now] the player is invulnerable
    at every update up to [now + 2000]; and an enemy bullet that stays on
    the screen does nothing to a player who is invulnerable or shielded: the
    step of the bullet loop only moves the bullet, which stays in the
    array. *)
Theorem protected_player_is_not_hit {rt : Runtime} (now t : Z) (b : Bullet.t)
    (index : nat) (p : Player.t) (w : World) :
  (0 <= now)%Z ->
  Bullet.isEnemyBullet b = true ->
  Qltb (Bullet.y (Bullet.update b)) 0
    || Qgtb (Bullet.y (Bullet.update b)) GAME_HEIGHT = false ->
  Player.invulnerable (player (loop w)) || Player.hasShield (player (loop w))
    = true ->
  Player.invulnerable (Player.update t (Player.makeInvulnerable now p))
  = (t <=? now + 2000)%Z
  /\ bulletStep now b index w
     = upd_loop (fun l => set_bullets (<[index := Bullet.update b]> (bullets l)) l) w.
Proof.
  intros Hnow He Hon Hprot. split.
  - rewrite update_invulnerable. cbn. apply window_open; lia.
  - unfold bulletStep. cbv zeta.
    rewrite Hon, GameOverProps.update_isEnemyBullet, He.
    rewrite (GameOverProps.player_upd_bullets
               (fun bs => <[index := Bullet.update b]> bs)).
    destruct (Player.invulnerable (player (loop w))); [reflexivity |].
    cbn in Hprot. rewrite Hprot. reflexivity.
Qed.

Lemma protected_player_is_not_hit_witness :
  let rt := constantRuntime 0.5 in
  let b := Bullet.new 420 545 true 0 (Some 0.6) (Some BASIC) in
  let w := updPlayer (Player.makeInvulnerable 0)
             (upd_loop (set_bullets [b]) (mount 0)) in
  Player.invulnerable (Player.update 1500 (Player.makeInvulnerable 0 (Player.new 400 550)))
  = (1500 <=? 0 + 2000)%Z
  /\ bulletStep 0 b 0 w
     = upd_loop (fun l => set_bullets (<[0%nat := Bullet.update b]> (bullets l)) l) w.
Proof.
  cbv zeta.
  apply (protected_player_is_not_hit (rt := constantRuntime 0.5) 0 1500
           (Bullet.new 420 545 true 0 (Some 0.6) (Some BASIC)) 0
           (Player.new 400 550)).
  - lia.
  - reflexivity.
  - vm_compute. reflexivity.
  - vm_compute. reflexivity.
Defined.

(** [handlePlayerMovement] as one move of the player followed, when the
    fire control is held and the fire rate allows it, by a shot. *)
Lemma handlePlayerMovement_eq (now : Z) (w : World) :
  handlePlayerMovement now w
  = let w1 := updPlayer (playerMoves (wantsLeft w) (wantsRight w)
                                     (wantsUp w) (wantsDown w)) w in
    if wantsFire w
       && (Player.fireRate (player (loop w1)) <? now - lastShot (loop w))%Z
    then playerShoots now w1 else w1.
Proof.
  destruct w as [gs u rf [ls lu pl bs pus ps es lsh sp af] rd ru os ts nt sl rg no].
  match goal with |- handlePlayerMovement _ ?v = _ => set (w := v) end.
  unfold handlePlayerMovement, wantsLeft, wantsRight, wantsUp, wantsDown,
    wantsFire, playerMoves.
  cbv zeta.
  destruct (isMobile (loopUi (loop w))).
  - destruct (isMovingLeft _), (isMovingRight _), (isMovingUp _),
      (isMovingDown _); reflexivity.
  - destruct (keyDown "ArrowLeft" w || keyDown "KeyA" w);
      repeat match goal with
             | |- context [keyDown ?c (updPlayer ?f ?v)] =>
                 change (keyDown c (updPlayer f v)) with (keyDown c v)
             end;
      destruct (keyDown "ArrowRight" w || keyDown "KeyD" w);
      repeat match goal with
             | |- context [keyDown ?c (updPlayer ?f ?v)] =>
                 change (keyDown c (updPlayer f v)) with (keyDown c v)
             end;
      destruct (keyDown "ArrowUp" w || keyDown "KeyW" w);
      repeat match goal with
             | |- context [keyDown ?c (updPlayer ?f ?v)] =>
                 change (keyDown c (updPlayer f v)) with (keyDown c v)
             end;
      destruct (keyDown "ArrowDown" w || keyDown "KeyS" w);
      repeat match goal with
             | |- context [keyDown ?c (updPlayer ?f ?v)] =>
                 change (keyDown c (updPlayer f v)) with (keyDown c v)
             end;
      reflexivity.
Qed.

Lemma playerMoves_fireRate l r u d p :
  Player.fireRate (playerMoves l r u d p) = Player.fireRate p.
Proof. destruct l, r, u, d; reflexivity. Qed.

Lemma playerMoves_hasSpreadShot l r u d p :
  Player.hasSpreadShot (playerMoves l r u d p) = Player.hasSpreadShot p.
Proof. destruct l, r, u, d; reflexivity. Qed.

Lemma playerOk_playerMoves l r u d p :
  playerOk p -> playerOk (playerMoves l r u d p).
Proof.
  intros H. unfold playerMoves. cbv zeta.
  assert (H1 : playerOk (if l then Player.moveLeft p else p)).
  { destruct l; [apply inField_moveLeft |]; exact H. }
  set (p1 := if l then Player.moveLeft p else p) in *. clearbody p1.
  assert (H2 : playerOk (if r then Player.moveRight p1 else p1)).
  { destruct r; [apply inField_moveRight |]; exact H1. }
  set (p2 := if r then Player.moveRight p1 else p1) in *. clearbody p2.
  assert (H3 : playerOk (if u then Player.moveUp p2 else p2)).
  { destruct u; [apply inField_moveUp |]; exact H2. }
  set (p3 := if u then Player.moveUp p2 else p2) in *. clearbody p3.
  destruct d; [apply inField_moveDown |]; exact H3.
Qed.

(** X3: the fire rate.  A call of [handlePlayerMovement] made no more than
    [fireRate] milliseconds after the last shot fires nothing; and whenever
    a call does add bullets, it records its own time as that of the last
    shot and adds one player bullet, or three when the spread shot is on. *)
Theorem fire_rate_limit {rt : Runtime} (now : Z) (w : World) :
  (now - lastShot (loop w) <= Player.fireRate (player (loop w)))%Z ->
  (bullets (loop (handlePlayerMovement now w)) = bullets (loop w)
   /\ lastShot (loop (handlePlayerMovement now w)) = lastShot (loop w))
  /\ (forall (now' : Z) (w' : World),
        bullets (loop (handlePlayerMovement now' w')) <> bullets (loop w') ->
        lastShot (loop (handlePlayerMovement now' w')) = now'
        /\ exists shot : list Bullet.t,
             bullets (loop (handlePlayerMovement now' w'))
             = bullets (loop w') ++ shot
             /\ length shot
                = (if Player.hasSpreadShot (player (loop w')) then 3 else 1)%nat
             /\ Forall (fun b => Bullet.isEnemyBullet b = false) shot).
Proof.
  intros Hrate. split.
  - rewrite handlePlayerMovement_eq. cbv zeta.
    change (player (loop (updPlayer ?f w))) with (f (player (loop w))).
    rewrite playerMoves_fireRate.
    replace (Player.fireRate (player (loop w)) <? now - lastShot (loop w))%Z
      with false by (symmetry; apply Z.ltb_ge; exact Hrate).
    rewrite andb_false_r. split; reflexivity.
  - intros now' w' Hne. rewrite handlePlayerMovement_eq in Hne |- *.
    cbv zeta in Hne |- *.
    destruct (wantsFire w' && _).
    + split; [reflexivity |].
      exists (Player.shoot (playerMoves (wantsLeft w') (wantsRight w')
                              (wantsUp w') (wantsDown w') (player (loop w')))).
      split; [reflexivity |].
      unfold Player.shoot. rewrite playerMoves_hasSpreadShot.
      destruct (Player.hasSpreadShot (player (loop w'))).
      * split; [reflexivity |]. repeat constructor.
      * split; [reflexivity |]. repeat constructor.
    + exfalso. apply Hne. reflexivity.
Qed.

Lemma fire_rate_limit_witness :
  let rt := constantRuntime 0.5 in
  let w := upd_loop (set_lastShot 1000) (mount 0) in
  bullets (loop (handlePlayerMovement 1200 w)) = bullets (loop w)
  /\ lastShot (loop (handlePlayerMovement 1200 w)) = lastShot (loop w).
Proof.
  cbv zeta.
  apply (fire_rate_limit (rt := constantRuntime 0.5) 1200
           (upd_loop (set_lastShot 1000) (mount (rt := constantRuntime 0.5) 0))).
  vm_compute. discriminate.
Defined.

End PlayerProps.

(** ** Enemies in motion *)

Module EnemyMotionProps.

Section WithRuntime.
Context {rt : Runtime}.

(** [update] on an enemy that is not a diver and that the horizontal move
    leaves on the screen: the position, the direction and the fields that
    stay. *)
Lemma update_patrol (now : Z) (rng : nat) (e : Enemy.t) :
  Enemy.diveAtPlayer e = false ->
  let x1 := Enemy.x e + Enemy.speed e * Enemy.direction e in
  let turn := Qleb x1 Enemy.BOUNDARY_PADDING
              || Qgeb (x1 + Enemy.width e) (GAME_WIDTH - Enemy.BOUNDARY_PADDING) in
  Qltb (x1 + Enemy.width e) 0 = false ->
  Qgtb x1 GAME_WIDTH = false ->
  let e' := fst (Enemy.update now rng e) in
  Enemy.x e' = x1
  /\ Enemy.direction e' = (if turn then Enemy.direction e * -1 else Enemy.direction e)
  /\ Enemy.speed e' = Enemy.speed e
  /\ Enemy.width e' = Enemy.width e
  /\ Enemy.diveAtPlayer e' = false
  /\ (Enemy.y e' = (if turn then entered e + 10 else entered e)
      \/ Enemy.y e' = 50
         /\ Qgtb (if turn then entered e + 10 else entered e) (GAME_HEIGHT + 100) = true).
Proof.
  intros Hd x1 turn Hl Hr e'. subst e'.
  unfold Enemy.update, entered. cbv zeta.
  destruct (Qltb (Enemy.y e) (Enemy.targetY e));
    cbn [Enemy.diveAtPlayer Enemy.set_y]; rewrite Hd;
    cbn [Enemy.x Enemy.y Enemy.speed Enemy.direction Enemy.width Enemy.height
         Enemy.set_x Enemy.set_y Enemy.set_direction];
    fold x1; fold turn.
  all: destruct turn;
    cbn [Enemy.x Enemy.y Enemy.speed Enemy.direction Enemy.width Enemy.height
         Enemy.set_x Enemy.set_y Enemy.set_direction Enemy.timeOffScreen
         Enemy.set_timeOffScreen fst];
    rewrite Hl, Hr; cbn [orb].
  all: match goal with
       | |- context [?a || ?b] => destruct (a || b)
       end;
    cbn [fst Enemy.x Enemy.y Enemy.speed Enemy.direction Enemy.width Enemy.height
         Enemy.diveAtPlayer Enemy.set_timeOffScreen Enemy.timeOffScreen].
  all: try (repeat split; try reflexivity; try exact Hd; left; reflexivity).
  all: match goal with
       | |- context [(120 <? ?t)%Z] => destruct (120 <? t)%Z
       end;
    cbn [fst Enemy.x Enemy.y Enemy.speed Enemy.direction Enemy.width Enemy.height
         Enemy.diveAtPlayer Enemy.set_timeOffScreen Enemy.timeOffScreen
         Enemy.set_x Enemy.set_y Enemy.set_direction].
  all: try (repeat split; try reflexivity; try exact Hd; left; reflexivity).
  all: rewrite ?Hl, ?Hr.
  all: match goal with
       | |- context [Qgtb ?a (GAME_HEIGHT + 100)] =>
           destruct (Qgtb a (GAME_HEIGHT + 100)) eqn:Hy
       end;
    cbn [fst Enemy.x Enemy.y Enemy.speed Enemy.direction Enemy.width Enemy.height
         Enemy.diveAtPlayer Enemy.set_timeOffScreen Enemy.timeOffScreen
         Enemy.set_x Enemy.set_y Enemy.set_direction].
  all: repeat split; try reflexivity; try exact Hd.
  all: first [ left; reflexivity | right; split; reflexivity ].
Qed.

(** X4: the horizontal patrol.  An enemy on patrol is still on patrol after
    [update], and its box never leaves the band between the two walls by
    more than the one step that makes it turn. *)
Theorem patrol_invariant (now : Z) (rng : nat) (e : Enemy.t) :
  patrolling e ->
  let e' := fst (Enemy.update now rng e) in
  patrolling e'
  /\ Enemy.BOUNDARY_PADDING - Enemy.speed e < Enemy.x e'
  /\ Enemy.x e' + Enemy.width e' < GAME_WIDTH - Enemy.BOUNDARY_PADDING + Enemy.speed e.
Proof.
  intros (Hd & Hs0 & Hs1 & Hw & Hst) e'.
  unfold Enemy.BOUNDARY_PADDING, GAME_WIDTH in *.
  set (x1 := Enemy.x e + Enemy.speed e * Enemy.direction e).
  assert (Hx1 : x1 == Enemy.x e + Enemy.speed e /\ Enemy.direction e == 1
                \/ x1 == Enemy.x e - Enemy.speed e /\ Enemy.direction e == -1).
  { destruct Hst as [([Hdir | Hdir] & _) | [(Hdir & _) | (Hdir & _)]];
      [left | right | left | right]; (split; [| exact Hdir]);
      unfold x1; rewrite Hdir; ring. }
  assert (Hl : Qltb (x1 + Enemy.width e) 0 = false).
  { apply Qltb_false.
    destruct Hx1 as [(Hx1 & Hdir) | (Hx1 & Hdir)];
      destruct Hst as [(_ & A & B) | [(D & A & B & C) | (D & A & B & C)]];
      lra. }
  assert (Hr : Qgtb x1 800 = false).
  { apply Qgtb_false.
    destruct Hx1 as [(Hx1 & Hdir) | (Hx1 & Hdir)];
      destruct Hst as [(_ & A & B) | [(D & A & B & C) | (D & A & B & C)]];
      lra. }
  destruct (update_patrol now rng e Hd Hl Hr) as (Ex & Ed & Es & Ew & Edv & _).
  fold e' in Ex, Ed, Es, Ew, Edv. fold x1 in Ex, Ed.
  unfold Enemy.BOUNDARY_PADDING, GAME_WIDTH in Ed.
  unfold patrolling.
  unfold Enemy.BOUNDARY_PADDING, GAME_WIDTH.
  rewrite Ex, Es, Ew, Edv, Ed.
  compare_spec (Qleb x1 30) Hle; compare_spec (Qgeb (x1 + Enemy.width e) (800 - 30)) Hge;
    cbn [orb].
  all: destruct Hx1 as [(Hx1 & Hdir) | (Hx1 & Hdir)];
    destruct Hst as [(_ & A & B) | [(D & A & B & C) | (D & A & B & C)]];
    try (exfalso; lra).
  all: assert (Hneg : Enemy.direction e * -1 == - Enemy.direction e) by ring.
  all: (split; [repeat split; try assumption | split; lra]).
  all: try rewrite Hneg; try rewrite Hdir.
  all: first
    [ left; split; [first [left; reflexivity | right; reflexivity] | split; lra]
    | right; left; split; [reflexivity | repeat split; lra]
    | right; right; split; [reflexivity | repeat split; lra] ].
Qed.

(** X5: pinned at the right wall.  An enemy whose box reaches over the right
    wall by a step or more (a tank, 60 wide, spawned in the last column at
    x = 720) turns round at every [update]: its direction flips each frame,
    it stays pinned, and each frame takes it 10 pixels further down, until
    it is wrapped to the top of the field from below. *)
Theorem pinned_enemy_descends (now : Z) (rng : nat) (e : Enemy.t) :
  pinnedRight e ->
  let e' := fst (Enemy.update now rng e) in
  pinnedRight e'
  /\ Enemy.direction e' == - Enemy.direction e
  /\ (Enemy.y e' = entered e + 10
      \/ Enemy.y e' = 50 /\ GAME_HEIGHT + 100 < entered e + 10).
Proof.
  intros (Hd & Hs0 & Hw & Hst) e'.
  unfold Enemy.BOUNDARY_PADDING, GAME_WIDTH, GAME_HEIGHT in *.
  set (x1 := Enemy.x e + Enemy.speed e * Enemy.direction e).
  assert (Hx1 : x1 == Enemy.x e + Enemy.speed e /\ Enemy.direction e == 1
                \/ x1 == Enemy.x e - Enemy.speed e /\ Enemy.direction e == -1).
  { destruct Hst as [(Hdir & _) | (Hdir & _)];
      [left | right]; (split; [| exact Hdir]);
      unfold x1; rewrite Hdir; ring. }
  assert (Hl : Qltb (x1 + Enemy.width e) 0 = false).
  { apply Qltb_false.
    destruct Hx1 as [(Hx1 & Hdir) | (Hx1 & Hdir)];
      destruct Hst as [(D & A & B) | (D & A & B)]; lra. }
  assert (Hr : Qgtb x1 800 = false).
  { apply Qgtb_false.
    destruct Hx1 as [(Hx1 & Hdir) | (Hx1 & Hdir)];
      destruct Hst as [(D & A & B) | (D & A & B)]; lra. }
  destruct (update_patrol now rng e Hd Hl Hr) as (Ex & Ed & Es & Ew & Edv & Ey).
  fold e' in Ex, Ed, Es, Ew, Edv, Ey. fold x1 in Ex, Ed, Ey.
  unfold Enemy.BOUNDARY_PADDING, GAME_WIDTH, GAME_HEIGHT in Ed, Ey.
  assert (Hturn : Qleb x1 30 || Qgeb (x1 + Enemy.width e) (800 - 30) = true).
  { apply orb_true_iff. right. apply Qgeb_true.
    destruct Hx1 as [(Hx1 & Hdir) | (Hx1 & Hdir)];
      destruct Hst as [(D & A & B) | (D & A & B)]; lra. }
  rewrite Hturn in Ed, Ey.
  assert (Hneg : Enemy.direction e * -1 == - Enemy.direction e) by ring.
  split; [| split].
  - unfold pinnedRight. unfold Enemy.BOUNDARY_PADDING, GAME_WIDTH.
    rewrite Ex, Es, Ew, Edv, Ed.
    repeat split; try assumption.
    rewrite Hneg.
    destruct Hx1 as [(Hx1 & Hdir) | (Hx1 & Hdir)];
      destruct Hst as [(D & A & B) | (D & A & B)]; try (exfalso; lra);
      rewrite Hdir; [right | left]; repeat split; lra.
  - rewrite Ed. exact Hneg.
  - destruct Ey as [Ey | (Ey & Hy)]; [left; exact Ey |].
    right. split; [exact Ey |]. apply Qgtb_true in Hy. exact Hy.
Qed.

End WithRuntime.

(** The patrol theorem on a basic enemy of the first column. *)
Lemma patrol_invariant_witness :
  let rt := constantRuntime 0.5 in
  let e := Enemy.new 80 60 BASIC 1 in
  let e' := fst (Enemy.update 0 0 e) in
  patrolling e'
  /\ Enemy.BOUNDARY_PADDING - Enemy.speed e < Enemy.x e'
  /\ Enemy.x e' + Enemy.width e' < GAME_WIDTH - Enemy.BOUNDARY_PADDING + Enemy.speed e.
Proof.
  cbv zeta.
  apply (patrol_invariant (rt := constantRuntime 0.5) 0 0 (Enemy.new 80 60 BASIC 1)).
  unfold patrolling.
  split; [reflexivity |].
  split; [vm_compute; discriminate |].
  split; [vm_compute; discriminate |].
  split; [vm_compute; discriminate |].
  left. split; [left; reflexivity |].
  split; vm_compute; reflexivity.
Defined.

(** The theorem on a tank of level 3 spawned in the last of twelve columns:
    the generator that always returns 0.2 selects a tank and does not make
    it a diver. *)
Lemma pinned_enemy_descends_witness :
  let rt := constantRuntime 0.2 in
  let w := upd_refs (set_difficultyConfigRef (getDifficultyConfig 3)) (mount 0) in
  let e := spawnedEnemy 11 0 3 12 w in
  let e' := fst (Enemy.update 0 0 e) in
  (Enemy.type e = TANK /\ Enemy.x e == 720 /\ Enemy.width e == 60)
  /\ pinnedRight e'
  /\ Enemy.direction e' == - Enemy.direction e
  /\ (Enemy.y e' = entered e + 10
      \/ Enemy.y e' = 50 /\ GAME_HEIGHT + 100 < entered e + 10).
Proof.
  cbv zeta. split.
  - split; [vm_compute; reflexivity |]. split; vm_compute; reflexivity.
  - apply (pinned_enemy_descends (rt := constantRuntime 0.2) 0 0
             (spawnedEnemy (rt := constantRuntime 0.2) 11 0 3 12
                (upd_refs (set_difficultyConfigRef (getDifficultyConfig 3))
                          (mount (rt := constantRuntime 0.2) 0)))).
    unfold pinnedRight.
    split; [vm_compute; reflexivity |].
    split; [vm_compute; discriminate |].
    split; [vm_compute; discriminate |].
    left. split; [vm_compute; reflexivity |].
    split; vm_compute; discriminate.
Defined.

End EnemyMotionProps.

(** ** Divers *)

Module DiverProps.

Section WithRuntime.
Context {rt : Runtime}.

(** X6: a diver never moves sideways.  A diver that stands in the column of
    its place in the formation is still in that column after [update],
    whatever its phase, and its phase is the same or the next one in the
    order ready, diving, returning, ready. *)
Theorem diver_keeps_its_column (now : Z) (rng : nat) (e : Enemy.t) :
  diverInColumn e ->
  diverInColumn (fst (Enemy.update now rng e))
  /\ Enemy.x (fst (Enemy.update now rng e)) == Enemy.x e
  /\ (Enemy.divePhase (fst (Enemy.update now rng e)) = Enemy.divePhase e
      \/ Enemy.divePhase (fst (Enemy.update now rng e))
         = nextPhase (Enemy.divePhase e)).
Proof.
  unfold diverInColumn, GAME_WIDTH.
  destruct e as [x y width height baseSpeed speed verticalSpeed direction
                 lastShot type health shootProbability dropPowerUpChance color
                 targetY diveAtPlayer diverTimer originalX originalY divePhase
                 currentLevel bulletSpeedMultiplier stuckTimer initialSize
                 timeOffScreen].
  cbn [Enemy.diveAtPlayer Enemy.x Enemy.originalX Enemy.width Enemy.divePhase].
  intros (-> & Hx & Hl & Hr).
  unfold Enemy.update, Enemy.handleDiving, GAME_WIDTH, GAME_HEIGHT,
    Enemy.BOUNDARY_PADDING.
  cbv zeta.
  destruct divePhase;
    repeat (cbn -[Qplus Qmult Qminus Qle Qlt Qeq Qltb Qgtb Qleb Qgeb Z.add Z.ltb
                  Math_random Math_sqrt];
            match goal with
            | |- context [if ?c then _ else _] =>
                lazymatch c with
                | context [if _ then _ else _] => fail
                | _ => let E := fresh "E" in
                       first [ compare_spec c E | destruct c eqn:E ]
                end
            end);
    cbn -[Qplus Qmult Qminus Qle Qlt Qeq];
    try lra;
    repeat split; try reflexivity; try lra; auto.
Qed.

End WithRuntime.

(** The theorem on a basic enemy of level 1 made a diver, as [spawnEnemy]
    does. *)
Lemma diver_keeps_its_column_witness :
  let rt := constantRuntime 0.5 in
  let e := Enemy.set_diveAtPlayer true (Enemy.new 400 60 BASIC 1) in
  diverInColumn (fst (Enemy.update 16 0 e))
  /\ Enemy.x (fst (Enemy.update 16 0 e)) == Enemy.x e
  /\ (Enemy.divePhase (fst (Enemy.update 16 0 e)) = Enemy.divePhase e
      \/ Enemy.divePhase (fst (Enemy.update 16 0 e))
         = nextPhase (Enemy.divePhase e)).
Proof.
  cbv zeta.
  apply (diver_keeps_its_column (rt := constantRuntime 0.5) 16 0
           (Enemy.set_diveAtPlayer true (Enemy.new 400 60 BASIC 1))).
  split; [reflexivity | split; [reflexivity |]].
  split; vm_compute; discriminate.
Defined.

End DiverProps.

(** ** Enemies shooting and dropping power-ups *)

Module EnemyFireProps.

Section WithRuntime.
Context {rt : Runtime}.

(** X7: the cooldown of an enemy.  When [canShoot] answers [true] at time
    [now], the enemy is in position (near its row, or diving), its last shot
    is at least 3000 ms old, and [now] is recorded as the time of the last
    shot; from then on [canShoot] answers [false] at every time earlier than
    [now + 3000], whatever the generator returns. *)
Theorem canShoot_cooldown (now : Z) (rng : nat) (e e' : Enemy.t) (rng' : nat) :
  Enemy.canShoot now rng e = (true, e', rng') ->
  Enemy.lastShot e' = now
  /\ (3000 <= now - Enemy.lastShot e)%Z
  /\ (Enemy.targetY e - 20 <= Enemy.y e \/ Enemy.divePhase e = diving)
  /\ forall (now2 : Z) (rng2 : nat) (e2 : Enemy.t),
       Enemy.lastShot e2 = Enemy.lastShot e' ->
       (now2 < now + 3000)%Z ->
       fst (fst (Enemy.canShoot now2 rng2 e2)) = false.
Proof.
  unfold Enemy.canShoot. cbv zeta.
  destruct (Qgeb (Enemy.y e) (Enemy.targetY e - 20)
            || DivePhase_eqb (Enemy.divePhase e) diving) eqn:Hpos;
    [| discriminate].
  destruct (Z.leb_spec 3000 (now - Enemy.lastShot e)) as [Hold | Hold];
    [| discriminate].
  destruct (Qltb (Math_random rng) (Enemy.shootProbability e / 20));
    [| discriminate].
  intros [= <- _].
  split; [reflexivity |]. split; [exact Hold |]. split.
  - apply orb_true_iff in Hpos. destruct Hpos as [Hy | Hdive].
    + left. apply Qle_bool_iff in Hy. exact Hy.
    + right. destruct (Enemy.divePhase e); try discriminate. reflexivity.
  - intros now2 rng2 e2 Hlast Hsoon. cbn [Enemy.lastShot Enemy.set_lastShot] in Hlast.
    destruct (Qgeb (Enemy.y e2) (Enemy.targetY e2 - 20)
              || DivePhase_eqb (Enemy.divePhase e2) diving); [| reflexivity].
    rewrite Hlast.
    destruct (Z.leb_spec 3000 (now2 - now)); [lia | reflexivity].
Qed.




(** X9: dropping a power-up.  With a generator that stays in [0, 1), the
    enemy drops a power-up exactly when the first draw does not exceed its
    drop chance; the type is then one of the four, chosen by the second
    draw (the index never leaves the list), and the power-up appears at the
    centre of the enemy.  Otherwise nothing is dropped and only one number
    is drawn. *)
Theorem dropPowerUp_in_range (rng : nat) (e : Enemy.t) :
  RandomInRange rt ->
  (Math_random rng <= Enemy.dropPowerUpChance e ->
   exists ty : PowerUpType,
     Enemy.powerUpTypes !! Z.to_nat (Qfloor (Math_random (S rng) * 4)) = Some ty
     /\ Enemy.dropPowerUp rng e
        = (Some (PowerUp.new (Enemy.x e + Enemy.width e / 2)
                             (Enemy.y e + Enemy.height e / 2) ty),
           S (S rng)))
  /\ (Enemy.dropPowerUpChance e < Math_random rng ->
      Enemy.dropPowerUp rng e = (None, S rng)).
Proof.
  intros Hr. split.
  - intros Hle. unfold Enemy.dropPowerUp.
    replace (Qgtb (Math_random rng) (Enemy.dropPowerUpChance e)) with false
      by (symmetry; apply Qgtb_false; exact Hle).
    destruct (Hr (S rng)) as (H0 & H1).
    destruct (Qfloor_bounds (Math_random (S rng) * 4) 4) as (Hlo & Hhi).
    { lra. }
    { change (inject_Z 4) with 4. lra. }
    change (inject_Z (Z.of_nat (length Enemy.powerUpTypes))) with 4.
    destruct (Enemy.powerUpTypes !! Z.to_nat (Qfloor (Math_random (S rng) * 4)))
      as [ty |] eqn:Hty.
    + exists ty. split; reflexivity.
    + exfalso. apply lookup_ge_None_1 in Hty. cbn [length Enemy.powerUpTypes] in Hty.
      lia.
  - intros Hgt. unfold Enemy.dropPowerUp.
    replace (Qgtb (Math_random rng) (Enemy.dropPowerUpChance e)) with true
      by (symmetry; apply Qgtb_true; exact Hgt).
    reflexivity.
Qed.

End WithRuntime.

Lemma dropPowerUp_in_range_witness :
  let rt := constantRuntime 0.5 in
  let e := Enemy.new 80 60 BASIC 1 in
  Enemy.dropPowerUp 0 e = (None, 1%nat).
Proof.
  cbv zeta.
  apply (proj2 (dropPowerUp_in_range (rt := constantRuntime 0.5) 0
                  (Enemy.new 80 60 BASIC 1)
                  ltac:(intros n; split; vm_compute;
                        [discriminate | reflexivity]))).
  vm_compute. reflexivity.
Defined.

Lemma canShoot_cooldown_witness :
  let rt := constantRuntime 0 in
  let e := Enemy.set_y 60 (Enemy.new 80 60 BASIC 1) in
  Enemy.lastShot (Enemy.set_lastShot 5000 e) = 5000%Z
  /\ (3000 <= 5000 - Enemy.lastShot e)%Z
  /\ (Enemy.targetY e - 20 <= Enemy.y e \/ Enemy.divePhase e = diving)
  /\ forall (now2 : Z) (rng2 : nat) (e2 : Enemy.t),
       Enemy.lastShot e2 = Enemy.lastShot (Enemy.set_lastShot 5000 e) ->
       (now2 < 5000 + 3000)%Z ->
       fst (fst (Enemy.canShoot now2 rng2 e2)) = false.
Proof.
  cbv zeta.
  apply (canShoot_cooldown (rt := constantRuntime 0) 5000 0
           (Enemy.set_y 60 (Enemy.new 80 60 BASIC 1))
           (Enemy.set_lastShot 5000 (Enemy.set_y 60 (Enemy.new 80 60 BASIC 1)))
           1%nat).
  vm_compute. reflexivity.
Defined.


End EnemyFireProps.

(** ** The collision test of two bullets *)

Module BulletMarginProps.

(** X10: the margin of [checkBulletCollision].  The test of two bullets gives
    the same answer in either order; it reports every pair that the plain
    box test of [Bullet.checkCollision] reports; and it reports nothing once
    the boxes are 10 pixels or more apart on one axis (5 pixels of margin
    around each bullet). *)
Theorem checkBulletCollision_margin (b1 b2 : Bullet.t) :
  checkBulletCollision b1 b2 = checkBulletCollision b2 b1
  /\ (Bullet.checkCollision b1 b2 = true -> checkBulletCollision b1 b2 = true)
  /\ (Bullet.x b1 + Bullet.width b1 + 10 <= Bullet.x b2 ->
      checkBulletCollision b1 b2 = false)
  /\ (Bullet.y b1 + Bullet.height b1 + 10 <= Bullet.y b2 ->
      checkBulletCollision b1 b2 = false).
Proof.
  split; [| split; [| split]].
  - unfold checkBulletCollision, Qgtb. cbv zeta.
    destruct (Qltb (Bullet.x b1 - 5) (Bullet.x b2 + Bullet.width b2 + 5)),
             (Qltb (Bullet.x b2 - 5) (Bullet.x b1 + Bullet.width b1 + 5)),
             (Qltb (Bullet.y b1 - 5) (Bullet.y b2 + Bullet.height b2 + 5)),
             (Qltb (Bullet.y b2 - 5) (Bullet.y b1 + Bullet.height b1 + 5));
      reflexivity.
  - unfold Bullet.checkCollision, checkBulletCollision.
    cbn [obj_x obj_y obj_width obj_height Bullet_GameObject]. cbv zeta.
    intros H.
    apply andb_true_iff in H. destruct H as (H & H4).
    apply andb_true_iff in H. destruct H as (H & H3).
    apply andb_true_iff in H. destruct H as (H1 & H2).
    apply Qltb_true in H1, H3. apply Qgtb_true in H2, H4.
    repeat (apply andb_true_iff; split);
      first [apply Qltb_true | apply Qgtb_true]; lra.
  - intros H. unfold checkBulletCollision. cbv zeta.
    apply CollisionProps.andb4_false_2. apply Qgtb_false. lra.
  - intros H. unfold checkBulletCollision. cbv zeta.
    apply CollisionProps.andb4_false_4. apply Qgtb_false. lra.
Qed.

(** Two bullets side by side, 10 pixels apart, and the same two bullets one
    pixel closer. *)
Lemma checkBulletCollision_margin_witness :
  checkBulletCollision (Bullet.new 0 0 false 0 None None)
                       (Bullet.new 22 0 true 0 None None) = false
  /\ checkBulletCollision (Bullet.new 0 0 false 0 None None)
                          (Bullet.new 21 0 true 0 None None) = true.
Proof.
  split.
  - apply (proj1 (proj2 (proj2
             (checkBulletCollision_margin (Bullet.new 0 0 false 0 None None)
                (Bullet.new 22 0 true 0 None None))))).
    vm_compute. discriminate.
  - vm_compute. reflexivity.
Defined.

End BulletMarginProps.

(** ** The mix of enemy types *)

Module RosterProps.

Lemma inject_Z_le (a b : Z) : (a <= b)%Z -> inject_Z a <= inject_Z b.
Proof. intros H. rewrite <- Zle_Qle. exact H. Qed.

(** The three probabilities of a level, bounded by the formula and by the
    clamp, and equal to the clamp from level 8 on. *)
Lemma probabilities_of_level (L : Z) :
  (1 <= L)%Z ->
  let c := getDifficultyConfig L in
  (0 <= shooterProbability c /\ shooterProbability c <= 0.4
   /\ shooterProbability c <= 0.05 * inject_Z L)
  /\ (0 <= tankProbability c /\ tankProbability c <= 0.3)
  /\ (0 <= fastProbability c /\ fastProbability c <= 0.3)
  /\ ((8 <= L)%Z ->
      shooterProbability c == 0.4 /\ tankProbability c == 0.3
      /\ fastProbability c == 0.3).
Proof.
  intros HL c. subst c.
  pose proof (inject_Z_le 1 L HL) as HQ. change (inject_Z 1) with 1 in HQ.
  unfold getDifficultyConfig.
  cbn [shooterProbability tankProbability fastProbability].
  set (s := if (L =? 1)%Z then 0.0 else 0.05 + (inject_Z L - 1) * 0.05).
  set (t := if (L <=? 2)%Z then 0.0 else 0.05 + (inject_Z L - 2) * 0.05).
  assert (Hs : 0 <= s /\ s <= 0.05 * inject_Z L
               /\ ((8 <= L)%Z -> 0.4 <= s)).
  { subst s. destruct (Z.eqb_spec L 1) as [-> | Hne].
    - repeat split; try (vm_compute; discriminate). intros H; lia.
    - repeat split; try lra. intros H8.
      pose proof (inject_Z_le 8 L H8) as H. change (inject_Z 8) with 8 in H.
      lra. }
  assert (Ht : 0 <= t /\ ((8 <= L)%Z -> 0.3 <= t)).
  { subst t. destruct (Z.leb_spec L 2) as [Hle | Hgt].
    - split; [vm_compute; discriminate | intros H; lia].
    - assert (H3 : (3 <= L)%Z) by lia.
      pose proof (inject_Z_le 3 L H3) as H. change (inject_Z 3) with 3 in H.
      split; [lra |]. intros H8.
      pose proof (inject_Z_le 8 L H8) as H'. change (inject_Z 8) with 8 in H'.
      lra. }
  destruct Hs as (Hs0 & Hs1 & Hs8). destruct Ht as (Ht0 & Ht8).
  pose proof (Q.le_min_l 0.4 s) as A1. pose proof (Q.le_min_r 0.4 s) as A2.
  pose proof (Q.le_min_l 0.3 t) as B1. pose proof (Q.le_min_r 0.3 t) as B2.
  pose proof (Q.le_min_l 0.3 s) as C1. pose proof (Q.le_min_r 0.3 s) as C2.
  assert (A0 : 0 <= Qmin 0.4 s) by (apply Q.min_glb; lra).
  assert (B0 : 0 <= Qmin 0.3 t) by (apply Q.min_glb; lra).
  assert (C0 : 0 <= Qmin 0.3 s) by (apply Q.min_glb; lra).
  repeat split; try assumption; try lra.
  - apply Q.min_l. apply Hs8; assumption.
  - apply Q.min_l. apply Ht8; assumption.
  - apply Q.min_l. specialize (Hs8 H). lra.
Qed.

(** X11: the roster of a level.  The probabilities of the three special
    types never sum to more than 1.  Up to level 7 the sum stays at or below
    0.95, so a draw of 0.95 or more gives a basic enemy; from level 8 on the
    three clamps 0.4, 0.3 and 0.3 fill the whole interval and no draw below
    1 gives a basic enemy any more. *)
Theorem basic_enemies_end_at_level_8 (L : Z) (r : Q) :
  (1 <= L)%Z ->
  let c := getDifficultyConfig L in
  shooterProbability c + tankProbability c + fastProbability c <= 1
  /\ ((L <= 7)%Z -> 0.95 <= r -> rollType c r = BASIC)
  /\ ((8 <= L)%Z -> r < 1 -> rollType c r <> BASIC).
Proof.
  intros HL c.
  destruct (probabilities_of_level L HL)
    as ((S0 & S1 & S2) & (T0 & T1) & (F0 & F1) & H8).
  fold c in S0, S1, S2, T0, T1, F0, F1, H8.
  split; [lra |]. split.
  - intros H7 Hr.
    pose proof (inject_Z_le L 7 H7) as HQ. change (inject_Z 7) with 7 in HQ.
    unfold rollType.
    replace (Qltb r (shooterProbability c)) with false
      by (symmetry; apply Qltb_false; lra).
    replace (Qltb r (shooterProbability c + tankProbability c)) with false
      by (symmetry; apply Qltb_false; lra).
    replace (Qltb r (shooterProbability c + tankProbability c
                     + fastProbability c)) with false
      by (symmetry; apply Qltb_false; lra).
    reflexivity.
  - intros HL8 Hr. destruct (H8 HL8) as (Es & Et & Ef).
    unfold rollType.
    destruct (Qltb r (shooterProbability c)); [discriminate |].
    destruct (Qltb r (shooterProbability c + tankProbability c));
      [discriminate |].
    replace (Qltb r (shooterProbability c + tankProbability c
                     + fastProbability c)) with true
      by (symmetry; apply Qltb_true; lra).
    discriminate.
Qed.

Lemma basic_enemies_end_at_level_8_witness :
  rollType (getDifficultyConfig 7) 0.97 = BASIC
  /\ rollType (getDifficultyConfig 8) 0.97 <> BASIC.
Proof.
  split.
  - apply (basic_enemies_end_at_level_8 7 0.97); [lia | lia |].
    vm_compute. discriminate.
  - apply (basic_enemies_end_at_level_8 8 0.97); [lia | lia |].
    vm_compute. reflexivity.
Defined.

End RosterProps.

(** ** The size of a wave *)

Module WaveProps.

Section WithRuntime.
Context {rt : Runtime}.

#[local] Opaque spawnEnemy.

Lemma new_geometry (x0 y0 : Q) (ty : EnemyType) (level : Z) :
  Enemy.x (Enemy.new x0 y0 ty level) = x0
  /\ Enemy.y (Enemy.new x0 y0 ty level) = y0 - 100
  /\ Enemy.targetY (Enemy.new x0 y0 ty level) = y0
  /\ Enemy.currentLevel (Enemy.new x0 y0 ty level) = level.
Proof. destruct ty; repeat split; reflexivity. Qed.

Lemma spawnedEnemy_geometry (col row : Q) (level total : Z) (w : World) :
  let e := spawnedEnemy col row level total w in
  Enemy.x e = 80 + col * (GAME_WIDTH - 160) / (inject_Z total - 1)
  /\ Enemy.y e = Enemy.targetY e - 100
  /\ Enemy.currentLevel e = level.
Proof.
  unfold spawnedEnemy. cbv zeta.
  match goal with
  | |- context [Enemy.new ?a ?b ?c ?d] =>
      destruct (new_geometry a b c d) as (Hx & Hy & Ht & Hl);
      set (e0 := Enemy.new a b c d) in *
  end.
  destruct (divingEnemies _ && _);
    cbn [Enemy.x Enemy.y Enemy.targetY Enemy.currentLevel
         Enemy.set_diveAtPlayer levelAdjusted
         Enemy.set_dropPowerUpChance Enemy.set_shootProbability
         Enemy.set_speed Enemy.set_health];
    rewrite Hx, Hy, Ht, Hl; repeat split; reflexivity.
Qed.

(** A column between 0 and [total - 1] is placed between x = 80 and
    x = 720. *)
Lemma spawnedEnemy_placed (col row : Q) (level total : Z) (w : World) :
  (2 <= total)%Z -> 0 <= col -> col <= inject_Z total - 1 ->
  placedFor level (spawnedEnemy col row level total w).
Proof.
  intros Ht H0 H1.
  destruct (spawnedEnemy_geometry col row level total w) as (Hx & Hy & Hl).
  assert (Hd : 1 <= inject_Z total - 1).
  { pose proof (RosterProps.inject_Z_le 2 total Ht) as H.
    change (inject_Z 2) with 2 in H. lra. }
  unfold placedFor. rewrite Hx, Hl. unfold GAME_WIDTH.
  set (d := inject_Z total - 1) in *.
  assert (Hlo : 0 <= col * (800 - 160) / d).
  { apply Qle_shift_div_l; lra. }
  assert (Hhi : col * (800 - 160) / d <= 640).
  { apply Qle_shift_div_r; lra. }
  repeat split; try lra. rewrite Hy. reflexivity.
Qed.

Lemma enemiesAdded_refl (P : Enemy.t -> Prop) (w : World) :
  enemiesAdded P w 0 w.
Proof.
  split; [reflexivity |]. split; [reflexivity |].
  exists []. rewrite app_nil_r. repeat split. constructor.
Qed.

Lemma enemiesAdded_refs (P : Enemy.t -> Prop) (w0 : World) (n : nat)
    (w w' : World) :
  refs w' = refs w -> enemiesAdded P w0 n w -> enemiesAdded P w0 n w'.
Proof. unfold enemiesAdded. intros ->. exact id. Qed.

Lemma spawnEnemy_currentWave col row level total w :
  currentWaveRef (refs (spawnEnemy col row level total w))
  = currentWaveRef (refs w).
Proof. rewrite EnemyProps.spawnEnemy_unfold. reflexivity. Qed.

Lemma enemiesAdded_spawn (P : Enemy.t -> Prop) (w0 : World) (n : nat)
    (w : World) (col row : Q) (level total : Z) :
  enemiesAdded P w0 n w ->
  P (spawnedEnemy col row level total w) ->
  enemiesAdded P w0 (S n) (spawnEnemy col row level total w).
Proof.
  intros (Hc & Hw & es & He & Hl & Hf) Hp.
  split; [rewrite EnemyProps.spawnEnemy_config; exact Hc |].
  split; [rewrite spawnEnemy_currentWave; exact Hw |].
  exists (es ++ [spawnedEnemy col row level total w]).
  split; [| split].
  - rewrite EnemyProps.spawnEnemy_enemies, He, <- app_assoc. reflexivity.
  - rewrite length_app. cbn [length]. lia.
  - apply Forall_app. split; [exact Hf |]. constructor; [exact Hp | constructor].
Qed.

(** A loop whose body adds one enemy at each turn adds as many enemies as
    it makes turns. *)
Lemma forUpFrom_enemiesAdded (P : Enemy.t -> Prop) (w0 : World)
    (body : nat -> World -> World) :
  forall (count index k : nat) (w : World),
    (forall i v m, (index <= i < index + count)%nat ->
                   enemiesAdded P w0 m v -> enemiesAdded P w0 (S m) (body i v)) ->
    enemiesAdded P w0 k w ->
    enemiesAdded P w0 (k + count) (forUpFrom body count index w).
Proof.
  induction count as [| count IH]; intros index k w Hb Hw; cbn [forUpFrom].
  - rewrite Nat.add_0_r. exact Hw.
  - replace (k + S count)%nat with (S k + count)%nat by lia.
    apply IH.
    + intros i v m Hi. apply Hb. lia.
    + apply Hb; [lia | exact Hw].
Qed.

Lemma colQ_range (i : nat) (total : Z) :
  (i < Z.to_nat total)%nat ->
  0 <= colQ i /\ colQ i <= inject_Z total - 1.
Proof.
  intros Hi. unfold colQ. split.
  - change 0 with (inject_Z 0). rewrite <- Zle_Qle. lia.
  - assert (H : (Z.of_nat i + 1 <= total)%Z) by lia.
    apply RosterProps.inject_Z_le in H.
    rewrite inject_Z_plus in H. change (inject_Z 1) with 1 in H. lra.
Qed.

(** One turn of the inner loop of the diamond. *)
Lemma diamond_cell_added (level c : Z) (rowQ : Q) (rowWidth : Z) (w0 : World) :
  (7 <= c)%Z -> (1 <= rowWidth <= 4)%Z ->
  forall (count index : nat) (idx : Z) (w : World),
    (Z.of_nat (index + count) <= rowWidth)%Z ->
    (0 <= idx <= c)%Z ->
    enemiesAdded (placedFor level) w0 (Z.to_nat idx) w ->
    let st := forUpFrom
                (fun i '(diamondIndex, w) =>
                   if (diamondIndex <? c)%Z then
                     let xOffset := (colQ i - (inject_Z rowWidth - 1) / 2) * 1.5 in
                     let w := spawnEnemy (inject_Z c / 2 + xOffset) rowQ level c w in
                     ((diamondIndex + 1)%Z, w)
                   else (diamondIndex, w))
                count index (idx, w) in
    fst st = Z.min c (idx + Z.of_nat count)
    /\ enemiesAdded (placedFor level) w0 (Z.to_nat (fst st)) (snd st).
Proof.
  intros Hc Hrw.
  induction count as [| count IH]; intros index idx w Hi Hidx Hw; cbn [forUpFrom].
  - cbn [fst snd]. split; [lia | exact Hw].
  - cbv zeta.
    destruct (Z.ltb_spec idx c) as [Hlt | Hge]; cbv beta iota zeta.
    + destruct (IH (S index) (idx + 1)%Z
                  (spawnEnemy (inject_Z c / 2
                               + (colQ index - (inject_Z rowWidth - 1) / 2) * 1.5)
                              rowQ level c w))
        as (E1 & E2); [lia | lia | |].
      * replace (Z.to_nat (idx + 1)) with (S (Z.to_nat idx)) by lia.
        apply enemiesAdded_spawn; [exact Hw |].
        apply spawnedEnemy_placed; [lia | |].
        -- assert (Hq : 7 <= inject_Z c).
           { change 7 with (inject_Z 7). rewrite <- Zle_Qle. exact Hc. }
           assert (Hr : inject_Z rowWidth <= 4).
           { change 4 with (inject_Z 4). rewrite <- Zle_Qle. lia. }
           assert (Hi0 : 0 <= colQ index).
           { unfold colQ. change 0 with (inject_Z 0). rewrite <- Zle_Qle. lia. }
           unfold Qdiv. change (/ 2) with (1 # 2). lra.
        -- assert (Hq : 7 <= inject_Z c).
           { change 7 with (inject_Z 7). rewrite <- Zle_Qle. exact Hc. }
           assert (Hr : 1 <= inject_Z rowWidth).
           { change 1 with (inject_Z 1). rewrite <- Zle_Qle. lia. }
           assert (Hi1 : colQ index + 1 <= inject_Z rowWidth).
           { unfold colQ. change 1 with (inject_Z 1) at 1.
             rewrite <- inject_Z_plus, <- Zle_Qle. lia. }
           assert (Hr4 : inject_Z rowWidth <= 4).
           { change 4 with (inject_Z 4). rewrite <- Zle_Qle. lia. }
           unfold Qdiv. change (/ 2) with (1 # 2). lra.
      * split; [etransitivity; [exact E1 | lia] | exact E2].
    + destruct (IH (S index) idx w) as (E1 & E2); [lia | lia | exact Hw |].
      split; [etransitivity; [exact E1 | lia] | exact E2].
Qed.

(** A row of the diamond, as [diamondRow] runs it; [rowWidth] is the width
    that the row computes for itself. *)
Lemma diamondRow_added (level c startRow diamondSize : Z) (row : nat)
    (rowWidth : Z) (w0 : World) (st : Z * World) :
  (7 <= c)%Z ->
  (if (Z.of_nat row <? diamondSize)%Z then (Z.of_nat row + 1)%Z
   else (diamondSize * 2 - Z.of_nat row - 1)%Z) = rowWidth ->
  (1 <= rowWidth <= 4)%Z ->
  (0 <= fst st <= c)%Z ->
  enemiesAdded (placedFor level) w0 (Z.to_nat (fst st)) (snd st) ->
  let st' := diamondRow c startRow level diamondSize row st in
  fst st' = Z.min c (fst st + rowWidth)
  /\ enemiesAdded (placedFor level) w0 (Z.to_nat (fst st')) (snd st').
Proof.
  intros Hc Erw Hrw Hidx Hw. destruct st as [idx w]. cbn [fst snd] in *.
  unfold diamondRow. cbv zeta. rewrite Erw. unfold forUp.
  destruct (diamond_cell_added level c
              (inject_Z startRow + inject_Z (Z.of_nat row) * 0.8) rowWidth w0 Hc Hrw
              (Z.to_nat rowWidth) 0%nat idx w) as (E1 & E2);
    [lia | exact Hidx | exact Hw |].
  split; [| exact E2].
  etransitivity; [exact E1 |]. f_equal. lia.
Qed.

(** The diamond of a wave of 12 to 16 enemies (its size is then 4, seven
    rows of 1, 2, 3, 4, 3, 2 and 1 cells) places every enemy of the wave. *)
Lemma diamond_added (level c startRow : Z) (w0 w : World) :
  (12 <= c <= 16)%Z ->
  enemiesAdded (placedFor level) w0 0 w ->
  enemiesAdded (placedFor level) w0 (Z.to_nat c)
    (createFormation diamond c startRow level w).
Proof.
  intros Hc Hw.
  assert (Hsize : Z.min 4 (Qfloor (inject_Z c / 3)) = 4%Z).
  { apply Z.min_l.
    change 4%Z with (Qfloor 4). apply Qfloor_resp_le.
    assert (H : 12 <= inject_Z c).
    { change 12 with (inject_Z 12). rewrite <- Zle_Qle. lia. }
    apply Qle_shift_div_l; lra. }
  unfold createFormation. cbv zeta.
  apply (enemiesAdded_refs _ _ _
           (snd (forUp (diamondRow c startRow level
                          (Z.min 4 (Qfloor (inject_Z c / 3))))
                       (Z.to_nat (Z.min 4 (Qfloor (inject_Z c / 3)) * 2 - 1))
                       (0%Z, w))));
    [reflexivity |].
  rewrite Hsize. change (Z.to_nat (4 * 2 - 1)) with 7%nat.
  unfold forUp. cbn [forUpFrom].
  assert (H7 : (7 <= c)%Z) by lia.
  destruct (diamondRow_added level c startRow 4 0 1 w0 (0%Z, w) H7)
    as (I0 & A0); [reflexivity | lia | cbn [fst]; lia | exact Hw |].
  set (s0 := diamondRow c startRow level 4 0 (0%Z, w)) in *.
  cbn [fst] in I0.
  destruct (diamondRow_added level c startRow 4 1 2 w0 s0 H7)
    as (I1 & A1); [reflexivity | lia | lia | exact A0 |].
  set (s1 := diamondRow c startRow level 4 1 s0) in *.
  destruct (diamondRow_added level c startRow 4 2 3 w0 s1 H7)
    as (I2 & A2); [reflexivity | lia | lia | exact A1 |].
  set (s2 := diamondRow c startRow level 4 2 s1) in *.
  destruct (diamondRow_added level c startRow 4 3 4 w0 s2 H7)
    as (I3 & A3); [reflexivity | lia | lia | exact A2 |].
  set (s3 := diamondRow c startRow level 4 3 s2) in *.
  destruct (diamondRow_added level c startRow 4 4 3 w0 s3 H7)
    as (I4 & A4); [reflexivity | lia | lia | exact A3 |].
  set (s4 := diamondRow c startRow level 4 4 s3) in *.
  destruct (diamondRow_added level c startRow 4 5 2 w0 s4 H7)
    as (I5 & A5); [reflexivity | lia | lia | exact A4 |].
  set (s5 := diamondRow c startRow level 4 5 s4) in *.
  destruct (diamondRow_added level c startRow 4 6 1 w0 s5 H7)
    as (I6 & A6); [reflexivity | lia | lia | exact A5 |].
  set (s6 := diamondRow c startRow level 4 6 s5) in *.
  replace (Z.to_nat c) with (Z.to_nat (fst s6)) by lia.
  exact A6.
Qed.

(** Every formation places the [c] enemies it is asked for; the diamond
    does so for the counts from 12 to 16. *)
Lemma createFormation_added (f : Formation) (level c startRow : Z)
    (w0 w : World) :
  RandomInRange rt ->
  (2 <= c)%Z ->
  (f = diamond -> (12 <= c <= 16)%Z) ->
  enemiesAdded (placedFor level) w0 0 w ->
  enemiesAdded (placedFor level) w0 (Z.to_nat c)
    (createFormation f c startRow level w).
Proof.
  intros Hr Hc Hd Hw.
  destruct f; try (apply diamond_added; [apply Hd; reflexivity | exact Hw]).
  all: unfold createFormation; cbv zeta.
  all: match goal with
       | |- enemiesAdded _ _ _ (setGameState _ ?v) =>
           apply (enemiesAdded_refs _ _ _ v); [reflexivity |]
       end.
  all: unfold forUp.
  all: apply (forUpFrom_enemiesAdded (placedFor level) w0 _
                (Z.to_nat c) 0 0 w); [| exact Hw].
  all: intros i v m Hi Hv.
  - apply enemiesAdded_spawn; [exact Hv |].
    destruct (colQ_range i c) as (H0 & H1); [lia |].
    apply spawnedEnemy_placed; assumption.
  - cbv zeta. apply enemiesAdded_spawn; [exact Hv |].
    destruct (colQ_range i c) as (H0 & H1); [lia |].
    apply spawnedEnemy_placed; assumption.
  - cbv zeta. apply enemiesAdded_spawn; [exact Hv |].
    destruct (colQ_range i c) as (H0 & H1); [lia |].
    apply spawnedEnemy_placed; assumption.
  - cbv zeta. apply enemiesAdded_spawn; [exact Hv |].
    destruct (colQ_range i c) as (H0 & H1); [lia |].
    apply spawnedEnemy_placed; assumption.
  - unfold random. cbv beta iota zeta.
    apply enemiesAdded_spawn.
    + apply (enemiesAdded_refs _ _ _ v); [reflexivity | exact Hv].
    + destruct (Hr (rng v)) as (R0 & R1).
      assert (Hq : 1 <= inject_Z c - 1).
      { pose proof (RosterProps.inject_Z_le 2 c Hc) as H.
        change (inject_Z 2) with 2 in H. lra. }
      apply spawnedEnemy_placed; [exact Hc | |].
      * apply Qmult_le_0_compat; lra.
      * rewrite <- (Qmult_1_l (inject_Z c - 1)) at 2.
        apply Qmult_le_compat_r; lra.
Qed.

(** The formation chosen for a wave is one of those open to the level, and
    choosing it only advances the generator. *)
Lemma chooseFormation_available (level : Z) (w : World) :
  RandomInRange rt ->
  (1 <= level)%Z ->
  refs (snd (chooseFormation level w)) = refs w
  /\ (fst (chooseFormation level w) = diamond -> (8 <= level)%Z).
Proof.
  intros Hr HL.
  assert (Hpick :
    forall v : World,
      let k := Z.to_nat (Z.min (Z.of_nat (length formationTypes))
                               (1 + Qfloor (inject_Z level / 2))) in
      default random_formation
        (jsIndex (take k formationTypes)
           (Qfloor (Math_random (rng v)
                    * inject_Z (Z.of_nat (length (take k formationTypes))))))
      = diamond -> (8 <= level)%Z).
  { intros v k Hd.
    assert (Hfl : (0 <= Qfloor (inject_Z level / 2))%Z).
    { change 0%Z with (Qfloor 0). apply Qfloor_resp_le.
      pose proof (RosterProps.inject_Z_le 1 level HL) as H.
      change (inject_Z 1) with 1 in H.
      apply Qle_shift_div_l; lra. }
    destruct (Z.le_gt_cases 4 (Qfloor (inject_Z level / 2))) as [H4 | H4].
    - rewrite Zle_Qle in H4.
      pose proof (Qfloor_le (inject_Z level / 2)) as Hf.
      assert (H8 : 8 <= inject_Z level).
      { assert (4 <= inject_Z level / 2) as H by (change 4 with (inject_Z 4); lra).
        unfold Qdiv in H. change (/ 2) with (1 # 2) in H. lra. }
      change 8 with (inject_Z 8) in H8. rewrite <- Zle_Qle in H8. exact H8.
    - exfalso.
      assert (Hk : (k <= 4)%nat).
      { subst k. cbn [length formationTypes]. lia. }
      assert (Hk1 : (1 <= k)%nat).
      { subst k. cbn [length formationTypes]. lia. }
      destruct (Hr (rng v)) as (R0 & R1).
      destruct (random_index_in_range (take k formationTypes)
                  (Math_random (rng v)) R0 R1) as (x & Hx).
      { destruct k; [lia | discriminate]. }
      rewrite Hx in Hd. cbn in Hd. subst x.
      unfold jsIndex in Hx.
      destruct (_ <? 0)%Z; [discriminate |].
      apply list_elem_of_lookup_2 in Hx.
      destruct k as [| [| [| [| [| k]]]]]; try lia;
        cbn [take formationTypes] in Hx;
        repeat (apply elem_of_cons in Hx; destruct Hx as [Hx | Hx];
                [discriminate |]);
        apply elem_of_nil in Hx; exact Hx. }
  unfold chooseFormation. cbv zeta. unfold random.
  destruct (currentWaveRef (refs w) =? 0)%Z; [destruct (level =? 1)%Z |];
    cbn [fst snd]; (split; [reflexivity |]);
    first [discriminate | apply Hpick].
Qed.

(** The number of enemies of a wave: between 5 and 15, and 14 or 15 from
    level 8 on, where the diamond becomes available. *)
Lemma baseEnemiesPerWave_bounds (level : Z) :
  (1 <= level)%Z ->
  (5 <= baseEnemiesPerWave (getDifficultyConfig level) <= 15)%Z
  /\ ((8 <= level)%Z ->
      (14 <= baseEnemiesPerWave (getDifficultyConfig level))%Z)
  /\ (if (level =? 1)%Z then 5%Z
      else baseEnemiesPerWave (getDifficultyConfig level))
     = baseEnemiesPerWave (getDifficultyConfig level).
Proof.
  intros HL. unfold getDifficultyConfig. cbn [baseEnemiesPerWave].
  pose proof (RosterProps.inject_Z_le 1 level HL) as HQ.
  change (inject_Z 1) with 1 in HQ.
  assert (H0 : (0 <= Qfloor (inject_Z level * 1.2))%Z).
  { change 0%Z with (Qfloor 0). apply Qfloor_resp_le. lra. }
  destruct (Z.eqb_spec level 1) as [-> | Hne].
  - repeat split; try lia.
  - split; [lia |]. split; [| reflexivity].
    intros H8.
    assert (H9 : (9 <= Qfloor (inject_Z level * 1.2))%Z).
    { change 9%Z with (Qfloor 9.6). apply Qfloor_resp_le.
      pose proof (RosterProps.inject_Z_le 8 level H8) as H.
      change (inject_Z 8) with 8 in H. lra. }
    lia.
Qed.

(** X12: the size of a wave.  Under the configuration of its level, and with
    a generator that stays in [0, 1), [spawnEnemyWave] appends exactly
    [baseEnemiesPerWave] enemies (between 5 and 15) whatever formation it
    draws; each of them is made for the level, in a column between x = 80
    and x = 720, and starts 100 pixels above its row. *)
Theorem wave_size (now level waveNumber : Z) (w : World) :
  RandomInRange rt ->
  (1 <= level)%Z ->
  difficultyConfigRef (refs w) = getDifficultyConfig level ->
  (waveNumber < maxWaves (getDifficultyConfig level))%Z ->
  exists es : list Enemy.t,
    enemiesRef (refs (spawnEnemyWave now level waveNumber w))
    = enemiesRef (refs w) ++ es
    /\ Z.of_nat (length es) = baseEnemiesPerWave (getDifficultyConfig level)
    /\ (5 <= length es <= 15)%nat
    /\ Forall (placedFor level) es.
Proof.
  intros Hr HL Hc Hwave.
  destruct (baseEnemiesPerWave_bounds level HL) as (Hb & Hb8 & Hadj).
  set (c := baseEnemiesPerWave (getDifficultyConfig level)) in *.
  set (w1 := upd_refs (set_currentWaveRef waveNumber) w).
  destruct (chooseFormation_available level w1 Hr HL) as (Hrefs & Hdia).
  assert (Hadd : enemiesAdded (placedFor level) w1 (Z.to_nat c)
                   (createFormation (fst (chooseFormation level w1)) c
                      waveNumber level (snd (chooseFormation level w1)))).
  { apply createFormation_added; [exact Hr | lia | |].
    - intros Hd. specialize (Hb8 (Hdia Hd)). lia.
    - apply (enemiesAdded_refs _ _ _ w1); [exact Hrefs |].
      apply enemiesAdded_refl. }
  destruct Hadd as (_ & _ & es & He & Hl & Hf).
  exists es. split; [| split; [lia | split; [lia | exact Hf]]].
  change (enemiesRef (refs w)) with (enemiesRef (refs w1)).
  rewrite <- He.
  unfold spawnEnemyWave. cbv zeta. rewrite Hc.
  replace (maxWaves (getDifficultyConfig level) <=? waveNumber)%Z with false
    by (symmetry; apply Z.leb_gt; exact Hwave).
  fold w1. fold c.
  destruct (chooseFormation level w1) as [f w2]. cbn [fst snd].
  replace (if (waveNumber =? 0)%Z && (level =? 1)%Z then 5%Z else c) with c.
  2:{ destruct (waveNumber =? 0)%Z; [| reflexivity]. cbn [andb].
      symmetry. exact Hadj. }
  destruct (waveNumber <? maxWaves (getDifficultyConfig level) - 1)%Z.
  - destruct (waveTimeoutRef (refs (createFormation f c waveNumber level w2)));
      reflexivity.
  - reflexivity.
Qed.

End WithRuntime.

(** The theorem on the first wave of level 8 in a freshly mounted game. *)
Lemma wave_size_witness :
  let rt := constantRuntime 0.5 in
  let w := upd_refs (set_difficultyConfigRef (getDifficultyConfig 8)) (mount 0) in
  exists es : list Enemy.t,
    enemiesRef (refs (spawnEnemyWave 0 8 0 w)) = enemiesRef (refs w) ++ es
    /\ Z.of_nat (length es) = baseEnemiesPerWave (getDifficultyConfig 8)
    /\ (5 <= length es <= 15)%nat
    /\ Forall (placedFor 8) es.
Proof.
  cbv zeta.
  apply (wave_size (rt := constantRuntime 0.5) 0 8 0
           (upd_refs (set_difficultyConfigRef (getDifficultyConfig 8))
                     (mount (rt := constantRuntime 0.5) 0))).
  - intros n. split; vm_compute; [discriminate | reflexivity].
  - lia.
  - reflexivity.
  - vm_compute. reflexivity.
Defined.

End WaveProps.

(** ** Touch controls and the canvas scale *)

Module TouchProps.

Lemma Ui_ext (a b : Ui) :
  showLevelText a = showLevelText b ->
  gameOverFadeIn a = gameOverFadeIn b ->
  isMobile a = isMobile b ->
  (forall c, controlFlag c a = controlFlag c b) ->
  a = b.
Proof.
  intros H1 H2 H3 H.
  pose proof (H CLeft) as HL. pose proof (H CUp) as HU.
  pose proof (H CDown) as HD. pose proof (H CRight) as HR.
  pose proof (H CFire) as HF.
  destruct a, b. cbn in *. congruence.
Qed.

(** The button under a point of the strip. *)
Lemma controlIndex_zone (x : Q) (c : Control) :
  Qfloor (x / (GAME_WIDTH / 5)) = controlNumber c
  <-> 160 * inject_Z (controlNumber c) <= x
      /\ x < 160 * (inject_Z (controlNumber c) + 1).
Proof.
  assert (Hx : x / (GAME_WIDTH / 5) == x * (1 # 160)).
  { unfold GAME_WIDTH, Qdiv.
    apply Qmult_comp; reflexivity. }
  rewrite Hx.
  pose proof (Qfloor_le (x * (1 # 160))) as Hle.
  pose proof (Qlt_floor (x * (1 # 160))) as Hlt.
  rewrite inject_Z_plus in Hlt. change (inject_Z 1) with 1 in Hlt.
  split.
  - intros E. rewrite E in Hle, Hlt. split; lra.
  - intros (H0 & H1).
    set (k := controlNumber c) in *.
    assert (A : (Qfloor (x * (1 # 160)) < k + 1)%Z).
    { rewrite Zlt_Qlt. rewrite inject_Z_plus. change (inject_Z 1) with 1. lra. }
    assert (B : (k < Qfloor (x * (1 # 160)) + 1)%Z).
    { rewrite Zlt_Qlt. rewrite inject_Z_plus. change (inject_Z 1) with 1. lra. }
    lia.
Qed.

Lemma touchControl_eq (v : bool) (canvas : Canvas) (canvasScale : CanvasScale)
    (w : World) (touch : Touch) :
  touchControl v canvas canvasScale w touch
  = match touchedControl canvas canvasScale touch with
    | Some c => upd_ui (setControlFlag c v) w
    | None => w
    end.
Proof.
  unfold touchControl, touchedControl, setControl.
  destruct (touchPosition canvas canvasScale touch) as [x y]. cbv zeta.
  destruct (Qgtb y (GAME_HEIGHT - MOBILE_CONTROL_HEIGHT)); [| reflexivity].
  destruct (Qfloor (x / (GAME_WIDTH / 5))) as [| p | p];
    [reflexivity | | reflexivity].
  destruct p as [p | p |]; [| | reflexivity];
    (destruct p as [p | p |]; [| | reflexivity]);
    try reflexivity;
    destruct p; reflexivity.
Qed.

Lemma controlFlag_set (k c : Control) (v : bool) (u : Ui) :
  controlFlag k (setControlFlag c v u)
  = if Control_eqb k c then v else controlFlag k u.
Proof. destruct k, c; reflexivity. Qed.

(** The flags after the touches [ts] have all been handled with the
    value [v]. *)
Lemma fold_touchControl (v : bool) (canvas : Canvas) (canvasScale : CanvasScale)
    (ts : list Touch) :
  forall w : World,
    let w' := fold_left (touchControl v canvas canvasScale) ts w in
    sameButControls w w'
    /\ forall k : Control,
         controlFlag k (ui w')
         = if existsb (fun t => match touchedControl canvas canvasScale t with
                                | Some c => Control_eqb k c
                                | None => false
                                end) ts
           then v else controlFlag k (ui w).
Proof.
  induction ts as [| t ts IH]; intros w; cbn [fold_left existsb].
  - split; [repeat split | reflexivity].
  - cbv zeta. destruct (IH (touchControl v canvas canvasScale w t)) as (S1 & F1).
    rewrite touchControl_eq in S1, F1 |- *.
    destruct (touchedControl canvas canvasScale t) as [c |].
    + split.
      * destruct S1 as (A1 & A2 & A3 & A4 & A5 & A6 & A7).
        unfold sameButControls. rewrite A1, A2, A3, A4, A5, A6, A7.
        destruct c; repeat split.
      * intros k. rewrite F1.
        change (ui (upd_ui (setControlFlag c v) w))
          with (setControlFlag c v (ui w)).
        rewrite controlFlag_set.
        destruct (Control_eqb k c); cbn [orb]; [| reflexivity].
        destruct (existsb _ ts); reflexivity.
    + split; [exact S1 |]. intros k. rewrite F1. reflexivity.
Qed.

(** X13: a touch and its release.  When no control is held, the touches of a
    [touchstart] followed by the [touchend] of the same touches leave the
    control flags exactly as they were, and nothing else of the component is
    changed by either handler. *)
Theorem touch_round_trip (canvas : Canvas) (canvasScale : CanvasScale)
    (e : TouchEvent) (w : World) :
  controlsOff (ui w) ->
  let w' := handleTouchEnd canvas canvasScale e
              (handleTouchStart canvas canvasScale e w) in
  ui w' = ui w /\ sameButControls w w'.
Proof.
  intros Hoff w'. subst w'. unfold handleTouchEnd, handleTouchStart.
  destruct (fold_touchControl true canvas canvasScale (changedTouches e) w)
    as (S1 & F1).
  destruct (fold_touchControl false canvas canvasScale (changedTouches e)
              (fold_left (touchControl true canvas canvasScale)
                         (changedTouches e) w)) as (S2 & F2).
  cbv zeta in S1, F1, S2, F2.
  destruct S1 as (A1 & A2 & A3 & A4 & A5 & A6 & A7).
  destruct S2 as (B1 & B2 & B3 & B4 & B5 & B6 & B7).
  split.
  - apply Ui_ext; try congruence.
    intros k. rewrite F2, F1, (Hoff k).
    destruct (existsb _ _); reflexivity.
  - unfold sameButControls. repeat split; congruence.
Qed.

(** X14: the buttons of the strip.  In game coordinates the strip is the part
    of the field below y = 480; it is cut into five buttons 160 pixels wide,
    in the order left, up, down, right, fire, each owning its left edge.  A
    point of the strip sets the flag of the button it is on and no other;
    a point above the strip, or to the left or to the right of the field,
    changes nothing. *)
Theorem touch_zones (v : bool) (x y : Q) (w : World) (c : Control) :
  (GAME_HEIGHT - MOBILE_CONTROL_HEIGHT < y ->
   160 * inject_Z (controlNumber c) <= x ->
   x < 160 * (inject_Z (controlNumber c) + 1) ->
   setControl v x y w = upd_ui (setControlFlag c v) w)
  /\ (y <= GAME_HEIGHT - MOBILE_CONTROL_HEIGHT \/ x < 0 \/ GAME_WIDTH <= x ->
      setControl v x y w = w).
Proof.
  split.
  - intros Hy H0 H1. unfold setControl. cbv zeta.
    replace (Qgtb y (GAME_HEIGHT - MOBILE_CONTROL_HEIGHT)) with true
      by (symmetry; apply Qgtb_true; exact Hy).
    rewrite (proj2 (controlIndex_zone x c) (conj H0 H1)).
    destruct c; reflexivity.
  - intros H. unfold setControl. cbv zeta.
    destruct (Qgtb y (GAME_HEIGHT - MOBILE_CONTROL_HEIGHT)) eqn:Hy;
      [| reflexivity].
    apply Qgtb_true in Hy.
    destruct H as [H | H]; [exfalso; apply (Qlt_not_le _ _ Hy H) |].
    assert (Hout : forall k, Qfloor (x / (GAME_WIDTH / 5)) <> controlNumber k).
    { intros k E. apply controlIndex_zone in E. destruct E as (E0 & E1).
      unfold GAME_WIDTH in H.
      destruct k; unfold controlNumber, inject_Z in E0, E1; destruct H; lra. }
    pose proof (Hout CLeft) as N0. pose proof (Hout CUp) as N1.
    pose proof (Hout CDown) as N2. pose proof (Hout CRight) as N3.
    pose proof (Hout CFire) as N4. unfold controlNumber in N0, N1, N2, N3, N4.
    destruct (Qfloor (x / (GAME_WIDTH / 5))) as [| p | p];
      [congruence | | reflexivity].
    destruct p as [p | p |]; [| | congruence];
      (destruct p as [p | p |]; [| | congruence]);
      try reflexivity;
      destruct p; congruence || reflexivity.
Qed.

(** X15: sliding a finger.  [handleTouchMove] never switches a control on; and
    when the first touch of the event lies on a button, the flag of that
    button is off afterwards, although the finger is still down. *)
Theorem touch_move_releases (canvas : Canvas) (canvasScale : CanvasScale)
    (e : TouchEvent) (w : World) (touch : Touch) (rest : list Touch)
    (c : Control) :
  touches e = touch :: rest ->
  touchedControl canvas canvasScale touch = Some c ->
  let w' := handleTouchMove canvas canvasScale e w in
  controlFlag c (ui w') = false
  /\ (forall k : Control, controlFlag k (ui w') = true ->
                          controlFlag k (ui w) = true)
  /\ sameButControls w w'.
Proof.
  intros Ht Hc w'. subst w'. unfold handleTouchMove. rewrite Ht.
  rewrite touchControl_eq, Hc.
  change (ui (upd_ui (setControlFlag c false) w))
    with (setControlFlag c false (ui w)).
  split; [| split].
  - rewrite controlFlag_set. destruct c; reflexivity.
  - intros k. rewrite controlFlag_set.
    destruct (Control_eqb k c); [discriminate | exact id].
  - destruct c; repeat split.
Qed.


(** Two fingers, on the left button and on the fire button, put down and
    lifted again in a freshly mounted game. *)
Lemma touch_round_trip_witness :
  let rt := constantRuntime 0.5 in
  let canvas := {| rect_left := 0; rect_top := 0; offsetLeft := 0; offsetTop := 0 |} in
  let canvasScale := {| scale_x := 1; scale_y := 1 |} in
  let e := {| touches := [];
              changedTouches := [ {| clientX := 80; clientY := 550 |};
                                  {| clientX := 700; clientY := 500 |} ] |} in
  let w' := handleTouchEnd canvas canvasScale e
              (handleTouchStart canvas canvasScale e (mount 0)) in
  ui w' = ui (mount 0) /\ sameButControls (mount 0) w'.
Proof.
  cbv zeta.
  apply (touch_round_trip
           {| rect_left := 0; rect_top := 0; offsetLeft := 0; offsetTop := 0 |}
           {| scale_x := 1; scale_y := 1 |}
           {| touches := [];
              changedTouches := [ {| clientX := 80; clientY := 550 |};
                                  {| clientX := 700; clientY := 500 |} ] |}
           (mount (rt := constantRuntime 0.5) 0)).
  intros c. destruct c; reflexivity.
Defined.

Lemma touch_zones_witness :
  let rt := constantRuntime 0.5 in
  setControl true 200 500 (mount 0) = upd_ui (setControlFlag CUp true) (mount 0)
  /\ setControl true 900 500 (mount 0) = mount 0.
Proof.
  cbv zeta. split.
  - apply (proj1 (touch_zones true 200 500
                    (mount (rt := constantRuntime 0.5) 0) CUp));
      vm_compute; reflexivity || discriminate.
  - apply (proj2 (touch_zones true 900 500
                    (mount (rt := constantRuntime 0.5) 0) CUp)).
    right. right. vm_compute. discriminate.
Defined.

(** The left button is held; the finger moves within the button. *)
Lemma touch_move_releases_witness :
  let rt := constantRuntime 0.5 in
  let canvas := {| rect_left := 0; rect_top := 0; offsetLeft := 0; offsetTop := 0 |} in
  let canvasScale := {| scale_x := 1; scale_y := 1 |} in
  let w := upd_ui (set_isMovingLeft true) (mount 0) in
  let e := {| touches := [ {| clientX := 90; clientY := 550 |} ];
              changedTouches := [ {| clientX := 90; clientY := 550 |} ] |} in
  controlFlag CLeft (ui w) = true
  /\ controlFlag CLeft (ui (handleTouchMove canvas canvasScale e w)) = false.
Proof.
  cbv zeta. split; [reflexivity |].
  apply (touch_move_releases
           {| rect_left := 0; rect_top := 0; offsetLeft := 0; offsetTop := 0 |}
           {| scale_x := 1; scale_y := 1 |}
           {| touches := [ {| clientX := 90; clientY := 550 |} ];
              changedTouches := [ {| clientX := 90; clientY := 550 |} ] |}
           (upd_ui (set_isMovingLeft true) (mount (rt := constantRuntime 0.5) 0))
           {| clientX := 90; clientY := 550 |} [] CLeft).
  - reflexivity.
  - vm_compute. reflexivity.
Defined.

End TouchProps.

(** ** The audio manager *)

Module AudioProps.

Lemma clamp_unit (v : Q) : 0 <= Qmax 0 (Qmin 1 v) /\ Qmax 0 (Qmin 1 v) <= 1.
Proof.
  split; [apply Q.le_max_l |].
  apply Q.max_lub; [discriminate | apply Q.le_min_l].
Qed.

Lemma audioOk_new : audioOk AudioManager.new.
Proof.
  unfold audioOk.
  split; [split; discriminate |].
  split; [split; discriminate |].
  split.
  - eexists. split; [reflexivity |]. split; [reflexivity |]. discriminate.
  - split; [constructor | reflexivity].
Qed.

Section WithRuntime.
Context {rt : Runtime}.

(** Every array of sounds that the constructor loads has an element. *)
Lemma loaded_arrays_nonempty (name : string) (sound : list HTMLAudioElement.t) :
  AudioManager.sounds AudioManager.new !! name = Some (AudioManager.Several sound) ->
  sound <> [].
Proof.
  unfold AudioManager.new, AudioManager.loadBackgroundMusic,
    AudioManager.loadSounds, AudioManager.loadSound, AudioManager.loadSoundArray.
  cbn [AudioManager.sounds AudioManager.set_sounds AudioManager.set_backgroundMusic].
  intros H.
  repeat (apply lookup_insert_Some in H;
          destruct H as [(_ & H) | (_ & H)];
          [try discriminate H | ]).
  - injection H as <-. discriminate.
  - rewrite lookup_empty in H. discriminate.
Qed.

Lemma audioOk_startClone (sound : HTMLAudioElement.t) (a : AudioManager.t) :
  audioOk a -> audioOk (AudioManager.startClone sound a).
Proof.
  intros (Hs & Hm & Hb & Hf & Hmap).
  unfold audioOk, AudioManager.startClone. cbn.
  split; [exact Hs |]. split; [exact Hm |]. split; [exact Hb |].
  split; [| exact Hmap].
  apply Forall_app. split; [exact Hf |].
  constructor; [| constructor].
  cbn. destruct Hs. repeat split; assumption.
Qed.

(** The invariant, once its three fixed parts are given. *)
Lemma audioOk_music (a a' : AudioManager.t) (m' : HTMLAudioElement.t) :
  audioOk a ->
  AudioManager.soundEffectsVolume a' = AudioManager.soundEffectsVolume a ->
  AudioManager.musicVolume a' = AudioManager.musicVolume a ->
  AudioManager.started a' = AudioManager.started a ->
  AudioManager.sounds a' = AudioManager.sounds a ->
  AudioManager.backgroundMusic a' = Some m' ->
  HTMLAudioElement.volume m' = AudioManager.musicVolume a ->
  (AudioManager.musicMuted a' = true -> HTMLAudioElement.paused m' = true) ->
  audioOk a'.
Proof.
  intros (Hs & Hm & _ & Hf & Hmap) E1 E2 E3 E4 Eb Ev Ep.
  unfold audioOk. rewrite E1, E2, E3, E4.
  split; [exact Hs |]. split; [exact Hm |].
  split; [| split; [exact Hf | exact Hmap]].
  exists m'. split; [exact Eb |]. split; [exact Ev | exact Ep].
Qed.

Lemma audioOk_afterCall (a : AudioManager.t) (c : AudioCall) :
  audioOk a -> audioOk (afterCall a c).
Proof.
  intros Hok. destruct c; cbn [afterCall].
  - unfold AudioManager.play.
    destruct (AudioManager.muted a); [exact Hok |].
    destruct (AudioManager.sounds a !! name) as [[sound | sound] |];
      [apply audioOk_startClone; exact Hok | | exact Hok].
    destruct (jsIndex sound _); [apply audioOk_startClone |]; exact Hok.
  - pose proof Hok as (_ & _ & (m & Eb & Ev & Ep) & _).
    unfold AudioManager.playBackgroundMusic. rewrite Eb.
    destruct (AudioManager.musicMuted a) eqn:Emu; cbn [negb]; [exact Hok |].
    eapply (audioOk_music a); try reflexivity; try exact Hok;
      try exact Ev; cbn; rewrite Emu; discriminate.
  - pose proof Hok as (_ & _ & (m & Eb & Ev & Ep) & _).
    unfold AudioManager.pauseBackgroundMusic. rewrite Eb.
    eapply (audioOk_music a); try reflexivity; try exact Hok; exact Ev.
  - pose proof Hok as (_ & _ & (m & Eb & Ev & Ep) & _).
    unfold AudioManager.resumeBackgroundMusic. rewrite Eb.
    destruct (AudioManager.musicMuted a) eqn:Emu; cbn [negb]; [exact Hok |].
    eapply (audioOk_music a); try reflexivity; try exact Hok;
      try exact Ev; cbn; rewrite Emu; discriminate.
  - exact Hok.
  - exact Hok.
  - pose proof Hok as (_ & _ & (m & Eb & Ev & Ep) & _).
    unfold AudioManager.toggleMusicMute. cbv zeta. cbn [snd].
    cbn [AudioManager.musicMuted AudioManager.set_musicMuted].
    unfold AudioManager.pauseBackgroundMusic, AudioManager.resumeBackgroundMusic.
    cbn [AudioManager.backgroundMusic AudioManager.set_musicMuted
         AudioManager.musicMuted].
    rewrite Eb.
    destruct (AudioManager.musicMuted a); cbn [negb];
      eapply (audioOk_music a); try reflexivity; try exact Hok;
      first [exact Ev | reflexivity | discriminate].
  - pose proof Hok as (_ & _ & (m & Eb & Ev & Ep) & _).
    unfold AudioManager.setMusicMute. cbv zeta. cbn [snd].
    cbn [AudioManager.musicMuted AudioManager.set_musicMuted].
    unfold AudioManager.pauseBackgroundMusic, AudioManager.resumeBackgroundMusic.
    cbn [AudioManager.backgroundMusic AudioManager.set_musicMuted
         AudioManager.musicMuted].
    rewrite Eb.
    destruct muted; cbn [negb];
      eapply (audioOk_music a); try reflexivity; try exact Hok;
      first [exact Ev | reflexivity | discriminate].
  - destruct Hok as (Hs & Hm & Hb & Hf & Hmap).
    destruct (clamp_unit volume) as (C0 & C1).
    unfold audioOk. cbn.
    split; [split; assumption |]. split; [exact Hm |].
    split; [exact Hb |]. split; [exact Hf | exact Hmap].
  - destruct Hok as (Hs & Hm & (m & Eb & Ev & Ep) & Hf & Hmap).
    destruct (clamp_unit volume) as (C0 & C1).
    unfold AudioManager.setMusicVolume. cbv zeta. cbn [snd].
    cbn [AudioManager.backgroundMusic AudioManager.set_musicVolume
         AudioManager.musicVolume].
    rewrite Eb.
    unfold audioOk. cbn.
    split; [exact Hs |]. split; [split; assumption |].
    split; [| split; [exact Hf | exact Hmap]].
    eexists. split; [reflexivity |]. split; [reflexivity | exact Ep].
Qed.

(** X17: what the audio manager keeps.  After any sequence of calls of its
    public methods on a new manager, the two volumes are between 0 and 1,
    the music element plays at the music volume and is at rest whenever the
    music is muted, and every sound that was started plays at a volume
    between 0 and 1. *)
Theorem audio_manager_invariant (calls : list AudioCall) :
  audioOk (fold_left afterCall calls AudioManager.new).
Proof.
  assert (H : forall a, audioOk a -> audioOk (fold_left afterCall calls a)).
  { induction calls as [| c calls IH]; intros a Ha; cbn [fold_left].
    - exact Ha.
    - apply IH, audioOk_afterCall, Ha. }
  apply H, audioOk_new.
Qed.

(** X18: playing a sound.  With a generator that stays in [0, 1), [play]
    never raises: a muted manager and an unknown name leave everything as it
    was, and for the array of enemy explosions the index drawn is always one
    of its four sounds, whose clone is started at the effects volume.  The
    name 'playerExplode', which the game loop asks for when the player dies,
    is not among the loaded sounds: that call starts nothing. *)
Theorem play_is_safe (name : string) (rng : nat) (a : AudioManager.t) :
  RandomInRange rt ->
  audioOk a ->
  (exists (a' : AudioManager.t) (rng' : nat),
      AudioManager.play name rng a = Some (a', rng'))
  /\ (AudioManager.muted a = true ->
      AudioManager.play name rng a = Some (a, rng))
  /\ AudioManager.play "playerExplode" rng a = Some (a, rng)
  /\ (AudioManager.muted a = false ->
      exists (sound : list HTMLAudioElement.t) (randomSound : HTMLAudioElement.t),
        AudioManager.sounds a !! "enemyExplode"%string
        = Some (AudioManager.Several sound)
        /\ length sound = 4%nat
        /\ randomSound ∈ sound
        /\ AudioManager.play "enemyExplode" rng a
           = Some (AudioManager.startClone randomSound a, S rng)).
Proof.
  intros Hr (_ & _ & _ & _ & Hmap).
  destruct (Hr rng) as (R0 & R1).
  split; [| split; [| split]].
  - unfold AudioManager.play.
    destruct (AudioManager.muted a); [eexists _, _; reflexivity |].
    destruct (AudioManager.sounds a !! name) as [[sound | sound] |] eqn:El;
      [eexists _, _; reflexivity | | eexists _, _; reflexivity].
    rewrite Hmap in El. apply loaded_arrays_nonempty in El.
    destruct (random_index_in_range sound (Math_random rng) R0 R1 El)
      as (v & Hv).
    rewrite Hv. eexists _, _. reflexivity.
  - intros Hmu. unfold AudioManager.play. rewrite Hmu. reflexivity.
  - unfold AudioManager.play. rewrite Hmap.
    destruct (AudioManager.muted a); reflexivity.
  - intros Hmu. unfold AudioManager.play. rewrite Hmu, Hmap.
    match goal with
    | |- context [AudioManager.sounds AudioManager.new !! ?k] =>
        destruct (AudioManager.sounds AudioManager.new !! k)
          as [[sound | sound] |] eqn:El; try (vm_compute in El; discriminate El)
    end.
    assert (Hlen : length sound = 4%nat).
    { vm_compute in El. injection El as <-. reflexivity. }
    destruct (random_index_in_range sound (Math_random rng) R0 R1)
      as (v & Hv).
    { intros ->. discriminate Hlen. }
    exists sound, v. split; [reflexivity |]. split; [exact Hlen |].
    split.
    + unfold jsIndex in Hv. destruct (_ <? 0)%Z; [discriminate |].
      apply list_elem_of_lookup_2 in Hv. exact Hv.
    + rewrite Hv. reflexivity.
Qed.

End WithRuntime.

Lemma panelAgrees_afterPanelCall (s : AudioPanel.t * AudioManager.t)
    (c : PanelCall) :
  panelAgrees s -> panelAgrees (afterPanelCall s c).
Proof.
  destruct s as [p a]. intros (H1 & H2 & H3 & H4). cbn [fst snd] in *.
  destruct c; cbn [afterPanelCall];
    unfold handleSoundVolumeChange, handleMusicVolumeChange, toggleSoundMute,
      toggleMusicMute, panelAgrees; cbn [fst snd].
  - cbn. repeat split; try assumption; try reflexivity.
  - unfold AudioManager.setMusicVolume. cbv zeta. cbn [snd].
    destruct (AudioManager.backgroundMusic _); cbn;
      repeat split; try assumption; try reflexivity.
  - cbn. repeat split; try assumption; try reflexivity.
  - unfold AudioManager.setMusicMute. cbv zeta. cbn [snd].
    cbn [AudioManager.musicMuted AudioManager.set_musicMuted].
    unfold AudioManager.pauseBackgroundMusic, AudioManager.resumeBackgroundMusic.
    cbn [AudioManager.backgroundMusic AudioManager.set_musicMuted
         AudioManager.musicMuted].
    destruct (negb (AudioPanel.isMusicMuted closure)); cbn [negb];
      destruct (AudioManager.backgroundMusic a); cbn;
      repeat split; try assumption; try reflexivity.
Qed.

(** X19: the volume panel.  After any sequence of moves of the two sliders
    and presses of the two mute buttons, whatever render the handlers were
    created by, the cells of the panel agree with the manager: the mute
    flags are the manager's, and each volume of the manager is the slider
    value divided by 100 and clamped to [0, 1]. *)
Theorem panel_agrees_with_manager (calls : list PanelCall) :
  panelAgrees (fold_left afterPanelCall calls
                 (AudioPanel.initial, AudioManager.new)).
Proof.
  assert (H : forall s, panelAgrees s ->
                        panelAgrees (fold_left afterPanelCall calls s)).
  { induction calls as [| c calls IH]; intros s Hs; cbn [fold_left].
    - exact Hs.
    - apply IH, panelAgrees_afterPanelCall, Hs. }
  apply H. unfold panelAgrees. cbn [fst snd].
  repeat split; reflexivity.
Qed.

Lemma play_is_safe_witness :
  let rt := constantRuntime 0.5 in
  AudioManager.play "playerExplode" 0 AudioManager.new
  = Some (AudioManager.new, 0%nat).
Proof.
  cbv zeta.
  apply (play_is_safe (rt := constantRuntime 0.5) "playerExplode" 0
           AudioManager.new).
  - intros n. split; vm_compute; [discriminate | reflexivity].
  - apply audioOk_new.
Defined.

End AudioProps.

(** ** The star field *)

Module StarProps.

Section WithRuntime.
Context {rt : Runtime}.

Lemma starOk_update (rng : nat) (s : Star.t) :
  RandomInRange rt -> starOk s -> starOk (fst (Star.update rng s)).
Proof.
  intros Hr (X0 & X1 & Y0 & Y1 & S0 & S1).
  destruct (Hr rng) as (R0 & R1).
  unfold Star.update. cbv zeta.
  cbn [Star.y Star.set_y].
  compare_spec (Qgtb (Star.y s + Star.speed s) 600) Hy; cbn [fst];
    unfold starOk; cbn; repeat split; try assumption; try lra;
    vm_compute; discriminate.
Qed.

Lemma updateStars_ok (stars : list Star.t) :
  RandomInRange rt ->
  forall rng : nat,
    Forall starOk stars ->
    Forall starOk (fst (updateStars rng stars))
    /\ length (fst (updateStars rng stars)) = length stars.
Proof.
  intros Hr. induction stars as [| s stars IH]; intros rng Hs; cbn [updateStars].
  - split; [constructor | reflexivity].
  - apply Forall_cons in Hs. destruct Hs as (H1 & H2).
    pose proof (starOk_update rng s Hr H1) as Hu.
    destruct (Star.update rng s) as [s' rng1]. cbn [fst] in Hu.
    destruct (IH rng1 H2) as (F & L).
    destruct (updateStars rng1 stars) as [rest rng2]. cbn [fst] in *.
    split; [constructor; assumption | cbn [length]; lia].
Qed.

(** X20: the star field.  With a generator that stays in [0, 1), a star made
    by the main effect lies in the field and falls by between 0.1 and 0.6
    pixels a frame; [update] keeps it so (a star that passes the bottom
    edge re-enters at the top in a new column), and the pass over the stars
    keeps their number. *)
Theorem stars_stay_in_field (rng rng' : nat) (stars : list Star.t) :
  RandomInRange rt ->
  Forall starOk stars ->
  starOk (fst (createStar rng))
  /\ Forall starOk (fst (updateStars rng' stars))
  /\ length (fst (updateStars rng' stars)) = length stars.
Proof.
  intros Hr Hs. split; [| apply updateStars_ok; assumption].
  destruct (Hr rng) as (A0 & A1). destruct (Hr (S rng)) as (B0 & B1).
  destruct (Hr (S (S rng))) as (C0 & C1).
  unfold createStar, Star.new, starOk, GAME_WIDTH, GAME_HEIGHT. cbn.
  repeat split; lra.
Qed.

End WithRuntime.

Lemma stars_stay_in_field_witness :
  let rt := constantRuntime 0.5 in
  let star := fst (createStar 0) in
  starOk star
  /\ Forall starOk (fst (updateStars 0 [star; star]))
  /\ length (fst (updateStars 0 [star; star])) = 2%nat.
Proof.
  cbv zeta.
  apply (stars_stay_in_field (rt := constantRuntime 0.5) 0 0
           [fst (createStar (rt := constantRuntime 0.5) 0);
            fst (createStar (rt := constantRuntime 0.5) 0)]).
  - intros n. split; vm_compute; [discriminate | reflexivity].
  - repeat constructor; vm_compute; discriminate.
Defined.

End StarProps.

(** ** A frame of the game loop *)

Module FrameProps.

(** [accounted] is kept by whatever leaves the score, the health and the
    number of enemies alone. *)
Lemma accounted_same (w0 w w' : World) :
  score (gameState w') = score (gameState w) ->
  health (gameState w') = health (gameState w) ->
  length (enemiesRef (refs w')) = length (enemiesRef (refs w)) ->
  accounted w0 w -> accounted w0 w'.
Proof.
  unfold accounted, tally. intros -> -> ->. exact id.
Qed.

Lemma accounted_refl (w : World) : accounted w w.
Proof.
  unfold accounted. split; [exists 0%Z; lia | lia].
Qed.

Ltac split_ifs :=
  repeat match goal with
         | |- context [if ?c then _ else _] => destruct c
         | |- context [match ?o with Some _ => _ | None => _ end] => destruct o
         end.

Section WithRuntime.
Context {rt : Runtime}.

Lemma createGIFExplosion_footprint x y ty now w :
  let w' := createGIFExplosion x y ty now w in
  gameState w' = gameState w
  /\ refs w' = refs w
  /\ player (loop w') = player (loop w)
  /\ bullets (loop w') = bullets (loop w)
  /\ powerUps (loop w') = powerUps (loop w)
  /\ particles (loop w') = particles (loop w)
  /\ exists (e : ExplosionGIF.t) (delay : Z),
       explosions (loop w') = explosions (loop w) ++ [e]
       /\ timers w'
          = timers w ++ [ {| handle := nextTimer w; due := (now + delay)%Z;
                             callback := CbExplosionRemove (ExplosionGIF.id e) |} ]
       /\ nextTimer w' = Pos.succ (nextTimer w).
Proof.
  unfold createGIFExplosion, ExplosionGIF.createForPlayer,
    ExplosionGIF.createForEnemy, ExplosionGIF.new.
  cbv zeta.
  destruct ty; cbv beta iota zeta;
    try destruct (Qfloor (Math_random (S (rng w)) * 2) =? 0)%Z;
    cbv beta iota zeta;
    repeat split; eexists _, _; repeat split.
Qed.

Section Accounting.
Variable w0 : World.

Lemma accounted_pushParticle x y c w :
  accounted w0 w -> accounted w0 (pushParticle x y c w).
Proof. apply accounted_same; reflexivity. Qed.

Lemma accounted_pushParticles x y c n w :
  accounted w0 w -> accounted w0 (forUp (fun _ w => pushParticle x y c w) n w).
Proof.
  apply (forUp_invariant _ (accounted w0)). intros _ s.
  apply accounted_pushParticle.
Qed.

Lemma accounted_createExplosion x y c w :
  accounted w0 w -> accounted w0 (createExplosion x y c w).
Proof. apply accounted_pushParticles. Qed.

Lemma accounted_createGIFExplosion x y ty now w :
  accounted w0 w -> accounted w0 (createGIFExplosion x y ty now w).
Proof.
  destruct (createGIFExplosion_footprint x y ty now w) as (G & R & _).
  apply accounted_same; [rewrite G | rewrite G | rewrite R]; reflexivity.
Qed.

#[local] Opaque createExplosion createGIFExplosion.

Lemma accounted_upd_loop f w :
  accounted w0 w -> accounted w0 (upd_loop f w).
Proof. exact id. Qed.

Lemma accounted_handlePlayerMovement now w :
  accounted w0 w -> accounted w0 (handlePlayerMovement now w).
Proof.
  apply accounted_same; unfold handlePlayerMovement; cbv zeta;
    split_ifs; reflexivity.
Qed.

Lemma accounted_handleLevelComplete now n w :
  accounted w0 w -> accounted w0 (handleLevelComplete now n w).
Proof.
  apply accounted_same; unfold handleLevelComplete; cbv zeta;
    split_ifs; reflexivity.
Qed.

Lemma accounted_checkForLevelCompletion now w :
  accounted w0 w -> accounted w0 (checkForLevelCompletion now w).
Proof.
  intros H. unfold checkForLevelCompletion. cbv zeta.
  split_ifs; try exact H; try (apply accounted_handleLevelComplete; exact H).
Qed.

Lemma accounted_enemyStep now e i w :
  accounted w0 w -> accounted w0 (enemyStep now e i w).
Proof.
  unfold enemyStep.
  destruct (Enemy.update now (rng w) e) as [e1 r1].
  destruct (Enemy.canShoot now r1 e1) as [[can e2] r2].
  apply accounted_same; destruct can;
    try destruct (Enemy.shoot _ e2) as [b r3];
    cbn [gameState refs upd_loop upd_refs set_loop set_refs set_rng
         enemiesRef set_enemiesRef];
    try reflexivity; apply length_insert.
Qed.

Lemma accounted_powerUpStep now p i w :
  accounted w0 w -> accounted w0 (powerUpStep now p i w).
Proof.
  intros H. unfold powerUpStep. cbv zeta.
  split_ifs; first [apply accounted_createExplosion; exact H | exact H].
Qed.

Lemma accounted_explosionStep now i w :
  accounted w0 w -> accounted w0 (snd (explosionStep now i w)).
Proof.
  intros H. unfold explosionStep. cbv zeta. split_ifs; exact H.
Qed.

Lemma accounted_particleStep p i w :
  accounted w0 w -> accounted w0 (particleStep p i w).
Proof.
  intros H. unfold particleStep. cbv zeta. split_ifs; exact H.
Qed.

Lemma accounted_spliceBullet i w :
  accounted w0 w -> accounted w0 (spliceBullet i w).
Proof. exact id. Qed.

Lemma accounted_bulletHitsBullet pb k eb j w :
  accounted w0 w -> accounted w0 (bulletHitsBullet pb k eb j w).
Proof.
  intros H. unfold bulletHitsBullet. cbv zeta.
  match goal with
  | |- accounted _ (setGameState _ ?v) =>
      assert (Hv : accounted w0 v)
        by (apply accounted_spliceBullet, accounted_spliceBullet,
              accounted_pushParticles, H);
      revert Hv; generalize v
  end.
  intros v ((k' & Hk & Ht) & He & Hh).
  unfold accounted, tally in *.
  cbn [gameState refs setGameState set_gameState score health set_score].
  split; [exists (k' + 1)%Z; lia | split; assumption].
Qed.

Lemma accounted_kill (w w' : World) (i : nat) :
  (i < length (enemiesRef (refs w)))%nat ->
  enemiesRef (refs w') = delete i (enemiesRef (refs w)) ->
  score (gameState w') = (score (gameState w) + 100)%Z ->
  health (gameState w') = health (gameState w) ->
  accounted w0 w -> accounted w0 w'.
Proof.
  intros L R Hs Hh ((k' & Hk & Ht) & He & Hl).
  unfold accounted, tally in *. rewrite R, Hs, Hh.
  assert (Ld : S (length (delete i (enemiesRef (refs w))))
               = length (enemiesRef (refs w))).
  { rewrite length_delete; [| apply lookup_lt_is_Some_2; exact L]. lia. }
  split; [exists k'; split; [exact Hk | lia] | split; [lia | exact Hl]].
Qed.

Lemma refs_createExplosion x y c w : refs (createExplosion x y c w) = refs w.
Proof. apply (PowerUpProps.createExplosion_only x y c w). Qed.

Lemma gameState_createGIFExplosion x y ty now w :
  gameState (createGIFExplosion x y ty now w) = gameState w.
Proof. apply (createGIFExplosion_footprint x y ty now w). Qed.

Lemma refs_createGIFExplosion x y ty now w :
  refs (createGIFExplosion x y ty now w) = refs w.
Proof. apply (createGIFExplosion_footprint x y ty now w). Qed.

Lemma accounted_bulletVsEnemy now pb k i w :
  accounted w0 w -> accounted w0 (snd (bulletVsEnemy now pb k i w)).
Proof.
  intros H. unfold bulletVsEnemy.
  destruct (enemiesRef (refs w) !! i) as [enemy |] eqn:E; [| exact H].
  destruct (Bullet.checkCollision pb enemy); [| exact H].
  assert (L : (i < length (enemiesRef (refs w)))%nat)
    by (apply lookup_lt_is_Some; eauto).
  destruct (Enemy.hit enemy) as [destroyed enemy'].
  cbv zeta.
  (* the state after the particles of the hit *)
  match goal with
  | |- context [createExplosion ?x ?y ?c (spliceBullet k w)] =>
      assert (H1 : accounted w0 (createExplosion x y c (spliceBullet k w)))
        by (apply accounted_createExplosion, accounted_spliceBullet, H);
      assert (L1 : (i < length (enemiesRef
                                  (refs (createExplosion x y c (spliceBullet k w)))))%nat)
        by (rewrite refs_createExplosion; exact L);
      revert H1 L1; generalize (createExplosion x y c (spliceBullet k w))
  end.
  clear H E L. intros w1 H1 L1.
  assert (H2 : accounted w0
                 (upd_refs (fun rf => set_enemiesRef (<[i := enemy']> (enemiesRef rf)) rf)
                           w1)).
  { revert H1. apply accounted_same; try reflexivity.
    cbn [refs upd_refs set_refs enemiesRef set_enemiesRef]. apply length_insert. }
  assert (L2 : (i < length (enemiesRef (refs
                 (upd_refs (fun rf => set_enemiesRef (<[i := enemy']> (enemiesRef rf)) rf)
                           w1))))%nat).
  { cbn [refs upd_refs set_refs enemiesRef set_enemiesRef].
    rewrite length_insert. exact L1. }
  revert H2 L2.
  generalize (upd_refs (fun rf => set_enemiesRef (<[i := enemy']> (enemiesRef rf)) rf) w1).
  clear H1 L1 w1. intros w2 H2 L2.
  destruct destroyed; [| exact H2].
  (* the state after the explosion of the enemy *)
  match goal with
  | |- context [createGIFExplosion ?x ?y ?ty now w2] =>
      assert (H3 : accounted w0 (createGIFExplosion x y ty now w2))
        by (apply accounted_createGIFExplosion, H2);
      assert (L3 : (i < length (enemiesRef
                                  (refs (createGIFExplosion x y ty now w2))))%nat)
        by (rewrite refs_createGIFExplosion; exact L2);
      revert H3 L3; generalize (createGIFExplosion x y ty now w2)
  end.
  clear H2 L2 w2. intros w3 H3 L3.
  destruct (Enemy.dropPowerUp (rng w3) enemy') as [powerUp r].
  cbn [snd].
  revert H3. apply (accounted_kill _ _ i L3); destruct powerUp; reflexivity.
Qed.

Lemma accounted_enemyBulletHitsPlayer now k w :
  accounted w0 w -> accounted w0 (enemyBulletHitsPlayer now k w).
Proof.
  intros H. unfold enemyBulletHitsPlayer. cbv zeta.
  match goal with
  | |- context [(?n <=? 0)%Z] => destruct (n <=? 0)%Z
  end.
  - match goal with
    | |- accounted _ (setGameState _ ?v) =>
        assert (Hv : accounted w0 v)
          by (apply accounted_createGIFExplosion, accounted_upd_loop,
                accounted_createExplosion, accounted_spliceBullet, H);
        revert Hv; generalize v
    end.
    intros v ((k' & Hk & Ht) & He & Hh).
    unfold accounted, tally in *.
    cbn [gameState refs setGameState set_gameState score health set_health
         set_isGameOver].
    split; [exists k'; split; [exact Hk | lia] | split; [exact He | lia]].
  - match goal with
    | |- accounted _ (setGameState _ ?v) =>
        assert (Hv : accounted w0 v)
          by (apply accounted_upd_loop,
                accounted_createExplosion, accounted_spliceBullet, H);
        revert Hv; generalize v
    end.
    intros v ((k' & Hk & Ht) & He & Hh).
    unfold accounted, tally in *.
    cbn [gameState refs setGameState set_gameState score health set_health
         set_isGameOver].
    split; [exists k'; split; [exact Hk | lia] | split; [exact He | lia]].
Qed.

Lemma accounted_playerBulletStep now pb k w :
  accounted w0 w -> accounted w0 (playerBulletStep now pb k w).
Proof.
  intros H. unfold playerBulletStep.
  destruct (findBulletCollision _ _ _) as [[j eb] |].
  - apply accounted_bulletHitsBullet, H.
  - apply (forDown_invariant _ (accounted w0)); [| exact H].
    intros i s. apply accounted_bulletVsEnemy.
Qed.

Lemma accounted_bulletStep now pb k w :
  accounted w0 w -> accounted w0 (bulletStep now pb k w).
Proof.
  intros H. unfold bulletStep. cbv zeta.
  destruct (_ || _); [exact H |].
  destruct (Bullet.isEnemyBullet _).
  - destruct (_ && _); [| exact H].
    apply accounted_enemyBulletHitsPlayer, H.
  - apply accounted_playerBulletStep, H.
Qed.

Lemma accounted_frame now w :
  accounted w0 w -> accounted w0 (frame now w).
Proof.
  intros H. unfold frame. cbv zeta.
  apply accounted_upd_loop.
  apply (forEach_invariant _ _ (accounted w0));
    [intros; apply accounted_bulletStep; assumption |].
  apply (forEach_invariant _ _ (accounted w0));
    [intros; apply accounted_particleStep; assumption |].
  apply (forDown_invariant _ (accounted w0));
    [intros; apply accounted_explosionStep; assumption |].
  apply (forEach_invariant _ _ (accounted w0));
    [intros; apply accounted_powerUpStep; assumption |].
  apply (forEach_invariant _ _ (accounted w0));
    [intros; apply accounted_enemyStep; assumption |].
  apply accounted_checkForLevelCompletion, accounted_upd_loop,
    accounted_handlePlayerMovement, H.
Qed.

Lemma accounted_gameLoop now w :
  accounted w0 w -> accounted w0 (gameLoop now w).
Proof.
  intros H. unfold gameLoop. cbv zeta.
  split_ifs; try exact H. apply accounted_frame, H.
Qed.

End Accounting.

(** X21: the accounts of a frame.  In a call of [gameLoop] the score never
    goes down, and what it gains is 100 for each enemy that has left the
    array plus a multiple of 10 (the bonus for a bullet shot down); no enemy
    is added and no health is gained. *)
Theorem frame_accounting (now : Z) (w : World) :
  accounted w (gameLoop now w)
  /\ (score (gameState w) <= score (gameState (gameLoop now w)))%Z.
Proof.
  assert (H : accounted w (gameLoop now w))
    by apply accounted_gameLoop, accounted_refl.
  split; [exact H |].
  destruct H as ((k & Hk & Ht) & He & _). unfold tally in Ht. lia.
Qed.

(** *** The sweep of the explosions *)

Lemma explosionSweep_from (now : Z) (n : nat) :
  forall w,
    (n <= length (explosions (loop w)))%nat ->
    forDown (explosionStep now) n w
    = upd_loop
        (fun l =>
           set_explosions
             (List.filter ExplosionGIF.isActive
                (map (ExplosionGIF.update now) (take n (explosions l)))
              ++ drop n (explosions l)) l) w.
Proof.
  induction n as [| n IH]; intros w Hn.
  - cbn [forDown take map List.filter app drop].
    destruct w as [gs u rf [ls lu pl bs pus ps es lsh sp af] rd ru os ts nt sl rg no].
    reflexivity.
  - cbn [forDown]. unfold explosionStep.
    destruct (explosions (loop w) !! n) as [e |] eqn:E;
      [| apply lookup_ge_None in E; lia].
    cbv zeta.
    assert (T : take (S n) (explosions (loop w))
                = take n (explosions (loop w)) ++ [e])
      by (apply take_S_r; exact E).
    assert (D : drop n (explosions (loop w))
                = e :: drop (S n) (explosions (loop w)))
      by (apply drop_S; exact E).
    assert (Ln : length (take n (explosions (loop w))) = n)
      by (rewrite length_take; lia).
    destruct w as [gs u rf [ls lu pl bs pus ps es lsh sp af] rd ru os ts nt sl rg no].
    cbn [loop explosions] in *.
    destruct (ExplosionGIF.isActive (ExplosionGIF.update now e)) eqn:A;
      cbn [negb].
    + rewrite IH;
        cbn [loop explosions upd_loop set_loop set_explosions];
        [| rewrite length_insert; lia].
      unfold upd_loop, set_loop, set_explosions. cbn [loop explosions
        gameState ui refs rendered renderedUi observerState timers nextTimer
        savedLevel rng nextObject loopState loopUi player bullets powerUps
        particles lastShot isGameOverSoundPlayed animationFrameId].
      do 2 f_equal.
      rewrite T, map_app, List.filter_app. cbn [map List.filter]. rewrite A.
      rewrite take_insert_ge by lia.
      rewrite drop_insert_ge by lia.
      rewrite D, Nat.sub_diag. cbn [insert list_insert].
      rewrite <- app_assoc. reflexivity.
    + rewrite IH;
        cbn [loop explosions upd_loop set_loop set_explosions];
        [| rewrite length_delete, length_insert; [lia | ];
           apply lookup_lt_is_Some; rewrite length_insert;
           apply lookup_lt_Some in E; exact E].
      unfold upd_loop, set_loop, set_explosions. cbn [loop explosions
        gameState ui refs rendered renderedUi observerState timers nextTimer
        savedLevel rng nextObject loopState loopUi player bullets powerUps
        particles lastShot isGameOverSoundPlayed animationFrameId].
      do 2 f_equal.
      rewrite T, map_app, List.filter_app. cbn [map List.filter]. rewrite A.
      rewrite app_nil_r.
      assert (Del : delete n (<[n := ExplosionGIF.update now e]> es)
                    = take n es ++ drop (S n) es).
      { rewrite delete_take_drop, take_insert_ge by lia.
        rewrite drop_insert_lt by lia. reflexivity. }
      rewrite Del.
      rewrite take_app_length' by (symmetry; exact Ln).
      rewrite drop_app_length' by (symmetry; exact Ln). reflexivity.
Qed.

(** X22: the backward loop over the explosions of a frame updates every
    explosion once and removes exactly those that are no longer active,
    keeping the order of the others; nothing else changes. *)
Theorem explosion_sweep (now : Z) (w : World) :
  forDown (explosionStep now) (length (explosions (loop w))) w
  = upd_loop
      (fun l =>
         set_explosions
           (List.filter ExplosionGIF.isActive
              (map (ExplosionGIF.update now) (explosions l))) l) w.
Proof.
  rewrite explosionSweep_from by lia.
  destruct w as [gs u rf [ls lu pl bs pus ps es lsh sp af] rd ru os ts nt sl rg no].
  unfold upd_loop, set_loop, set_explosions.
  cbn [loop explosions].
  rewrite firstn_all, drop_all, app_nil_r. reflexivity.
Qed.

(** *** The loop over the particles *)

Lemma particleStep_particles (a : Particle.t) (j : nat) (w : World) :
  particles (loop (particleStep a j w))
  = if Qleb (Particle.life (Particle.update a)) 0
    then delete j (<[j := Particle.update a]> (particles (loop w)))
    else <[j := Particle.update a]> (particles (loop w)).
Proof.
  unfold particleStep. cbv zeta.
  destruct (Qleb (Particle.life (Particle.update a)) 0); reflexivity.
Qed.

Lemma particleStep_below (a : Particle.t) (i j : nat) (w : World) :
  (i < j)%nat ->
  particles (loop (particleStep a j w)) !! i = particles (loop w) !! i.
Proof.
  intros Hij. rewrite particleStep_particles.
  destruct (Qleb (Particle.life (Particle.update a)) 0).
  - rewrite list_lookup_delete_lt by exact Hij.
    apply list_lookup_insert_ne. lia.
  - apply list_lookup_insert_ne. lia.
Qed.

Lemma particleLoop_below (count : nat) :
  forall (i j : nat) (w : World),
    (i < j)%nat ->
    particles (loop (forEachFrom (fun w => particles (loop w)) particleStep
                                 count j w)) !! i
    = particles (loop w) !! i.
Proof.
  induction count as [| count IH]; intros i j w Hij; cbn [forEachFrom].
  - reflexivity.
  - rewrite IH by lia.
    destruct (particles (loop w) !! j); [| reflexivity].
    apply particleStep_below, Hij.
Qed.

Lemma particleLoop_survivors (pre : list Particle.t) :
  forall (done tail : list Particle.t) (count : nat) (w : World),
    particles (loop w) = done ++ pre ++ tail ->
    Forall (fun x => 0 < Particle.life (Particle.update x)) pre ->
    exists w',
      forEachFrom (fun w => particles (loop w)) particleStep
                  (length pre + count) (length done) w
      = forEachFrom (fun w => particles (loop w)) particleStep
                    count (length done + length pre) w'
      /\ particles (loop w') = done ++ map Particle.update pre ++ tail.
Proof.
  induction pre as [| a pre IH]; intros done tail count w Hw Hpre.
  - exists w. cbn [length map app Nat.add]. rewrite Nat.add_0_r.
    split; [reflexivity | exact Hw].
  - apply Forall_cons in Hpre as [Ha Hpre].
    cbn [length Nat.add forEachFrom].
    assert (E : particles (loop w) !! length done = Some a).
    { rewrite Hw. rewrite lookup_app_r by lia.
      rewrite Nat.sub_diag. reflexivity. }
    rewrite E.
    destruct (IH (done ++ [Particle.update a]) tail count
                 (particleStep a (length done) w)) as (w' & E' & P').
    + rewrite particleStep_particles.
      apply Qleb_false in Ha. rewrite Ha, Hw.
      rewrite insert_app_r_alt by lia. rewrite Nat.sub_diag.
      cbn [app insert list_insert]. rewrite <- app_assoc. reflexivity.
    + exact Hpre.
    + exists w'. rewrite length_app in E'. cbn [length] in E'.
      replace (S (length done)) with (length done + 1)%nat by lia.
      replace (length done + S (length pre))%nat
        with (length done + 1 + length pre)%nat by lia.
      split; [exact E' |].
      rewrite P', <- app_assoc. reflexivity.
Qed.

(** X23: the loop over the particles removes a dead particle while it walks
    the array forwards, so the particle that follows a dead one is not
    visited in that frame: when the particles before [p] all survive their
    update and [p] does not, the next particle [q] takes the place of [p]
    as it was, without having been updated. *)
Theorem particle_after_dead_one_is_skipped
    (pre : list Particle.t) (p q : Particle.t) (rest : list Particle.t)
    (w : World) :
  particles (loop w) = pre ++ p :: q :: rest ->
  Forall (fun x => 0 < Particle.life (Particle.update x)) pre ->
  Particle.life (Particle.update p) <= 0 ->
  particles (loop (forEach (fun w => particles (loop w)) particleStep w))
    !! length pre
  = Some q.
Proof.
  intros Hw Hpre Hp. unfold forEach. rewrite Hw at 1.
  rewrite length_app.
  destruct (particleLoop_survivors pre [] (p :: q :: rest)
              (length (p :: q :: rest)) w Hw Hpre) as (w' & E & P).
  cbn [length Nat.add app] in E, P. cbn [length].
  rewrite E.
  change (forEachFrom (fun w => particles (loop w)) particleStep
            (S (S (length rest))) (length pre) w')
    with (forEachFrom (fun w => particles (loop w)) particleStep
            (S (length rest)) (S (length pre))
            match particles (loop w') !! length pre with
            | Some a => particleStep a (length pre) w'
            | None => w'
            end).
  assert (L : particles (loop w') !! length pre = Some p).
  { rewrite P. rewrite lookup_app_r by (rewrite length_map; lia).
    rewrite length_map, Nat.sub_diag. reflexivity. }
  rewrite L.
  rewrite particleLoop_below by lia.
  rewrite particleStep_particles.
  apply Qleb_true in Hp. rewrite Hp, P.
  rewrite delete_take_drop.
  rewrite take_insert_ge by lia.
  rewrite drop_insert_lt by lia.
  rewrite take_app_length' by (rewrite length_map; reflexivity).
  replace (S (length pre))
    with (length (map Particle.update pre) + 1)%nat
    by (rewrite length_map; lia).
  rewrite drop_app_add. cbn [drop].
  rewrite lookup_app_r by (rewrite length_map; lia).
  rewrite length_map, Nat.sub_diag. reflexivity.
Qed.

End WithRuntime.

(** The theorem on three particles, the second of which is at the end of
    its life. *)
Lemma particle_after_dead_one_is_skipped_witness :
  let rt := constantRuntime 0.5 in
  let a := fst (Particle.new 10 10 "#ff0000" 0) in
  let p := Particle.set_life 0.01 a in
  let w := upd_loop (set_particles [a; p; a]) (mount 0) in
  particles (loop (forEach (fun w => particles (loop w)) particleStep w))
    !! 1%nat
  = Some a.
Proof.
  cbv zeta.
  apply (particle_after_dead_one_is_skipped
           [fst (Particle.new (rt := constantRuntime 0.5) 10 10 "#ff0000" 0)]
           (Particle.set_life 0.01
              (fst (Particle.new (rt := constantRuntime 0.5) 10 10 "#ff0000" 0)))
           (fst (Particle.new (rt := constantRuntime 0.5) 10 10 "#ff0000" 0))
           []
           (upd_loop (set_particles
                        [fst (Particle.new (rt := constantRuntime 0.5) 10 10 "#ff0000" 0);
                         Particle.set_life 0.01
                           (fst (Particle.new (rt := constantRuntime 0.5) 10 10 "#ff0000" 0));
                         fst (Particle.new (rt := constantRuntime 0.5) 10 10 "#ff0000" 0)])
                     (mount (rt := constantRuntime 0.5) 0))).
  - reflexivity.
  - repeat constructor.
  - vm_compute. discriminate.
Defined.

End FrameProps.

(** ** What holds in every state that the component reaches *)

Module ReachableProps.

(** *** The timers *)

Lemma NoDup_handles_filter (P : Timer -> Prop) `{!forall t, Decision (P t)}
    (ts : list Timer) :
  NoDup (map handle ts) -> NoDup (map handle (filter P ts)).
Proof.
  induction ts as [| t ts IH]; intros Hts; [exact Hts |].
  cbn [map] in Hts. apply NoDup_cons in Hts as [Hn Hd].
  rewrite filter_cons. destruct (decide (P t)); [| apply IH, Hd].
  cbn [map]. apply NoDup_cons. split; [| apply IH, Hd].
  intros Hin. apply Hn.
  apply (list_elem_of_fmap) in Hin as (t' & E & Hin).
  apply list_elem_of_filter in Hin as [_ Hin].
  apply (list_elem_of_fmap). eauto.
Qed.

Lemma Forall_timers_filter (Q P : Timer -> Prop) `{!forall t, Decision (P t)}
    (ts : list Timer) :
  Forall Q ts -> Forall Q (filter P ts).
Proof.
  intros Hts. apply Forall_forall. intros t Hin.
  apply list_elem_of_filter in Hin as [_ Hin].
  revert t Hin. apply Forall_forall. exact Hts.
Qed.

Lemma timersOk_same (w w' : World) :
  timers w' = timers w ->
  nextTimer w' = nextTimer w ->
  waveTimeoutRef (refs w') = waveTimeoutRef (refs w) ->
  timersOk w -> timersOk w'.
Proof. unfold timersOk. intros -> -> ->. exact id. Qed.

Lemma timersOk_setTimeout cb d now w :
  isNextWave cb = false ->
  timersOk w -> timersOk (snd (setTimeout cb d now w)).
Proof.
  intros Hcb (Hd & Hl & Hw). unfold timersOk, setTimeout.
  cbn [snd timers nextTimer refs set_nextTimer set_timers].
  split; [| split].
  - rewrite map_app. cbn [map handle]. apply NoDup_app.
    split; [exact Hd | split; [| apply NoDup_singleton]].
    intros h Hin Hh. apply list_elem_of_singleton in Hh. subst h.
    apply (list_elem_of_fmap) in Hin as (t & E & Hin).
    rewrite Forall_forall in Hl. specialize (Hl t Hin). lia.
  - apply Forall_app. split.
    + eapply Forall_impl; [exact Hl |]. intros t Ht. cbn beta in *. lia.
    + apply Forall_singleton. cbn [handle]. lia.
  - apply Forall_app. split; [exact Hw |].
    apply Forall_singleton. cbn [callback]. rewrite Hcb. discriminate.
Qed.

Lemma timersOk_clearTimeout id w : timersOk w -> timersOk (clearTimeout id w).
Proof.
  intros (Hd & Hl & Hw). unfold timersOk, clearTimeout.
  cbn [timers nextTimer refs set_timers].
  split; [| split].
  - apply NoDup_handles_filter, Hd.
  - apply Forall_timers_filter, Hl.
  - apply Forall_timers_filter, Hw.
Qed.

(** The block that forgets the timer of the next wave. *)
Lemma timersOk_forget w :
  timersOk w ->
  timersOk match waveTimeoutRef (refs w) with
           | Some id => upd_refs (set_waveTimeoutRef None) (clearTimeout id w)
           | None => w
           end.
Proof.
  intros H. destruct (waveTimeoutRef (refs w)) as [id |] eqn:E; [| exact H].
  destruct H as (Hd & Hl & Hw). unfold timersOk, clearTimeout.
  cbn [timers nextTimer refs upd_refs set_refs set_timers waveTimeoutRef
       set_waveTimeoutRef].
  split; [| split].
  - apply NoDup_handles_filter, Hd.
  - apply Forall_timers_filter, Hl.
  - apply Forall_forall. intros t Hin Ht.
    apply list_elem_of_filter in Hin as [Hne Hin].
    rewrite Forall_forall in Hw. specialize (Hw t Hin Ht).
    rewrite E in Hw. congruence.
Qed.

Lemma forget_waveTimeoutRef w :
  waveTimeoutRef
    (refs match waveTimeoutRef (refs w) with
          | Some id => upd_refs (set_waveTimeoutRef None) (clearTimeout id w)
          | None => w
          end) = None.
Proof.
  destruct (waveTimeoutRef (refs w)) eqn:E; [reflexivity | exact E].
Qed.

(** The block that arms the timer of the next wave, once the previous one
    is forgotten. *)
Lemma timersOk_arm l n d now w :
  waveTimeoutRef (refs w) = None ->
  timersOk w ->
  timersOk (upd_refs (set_waveTimeoutRef (Some (nextTimer w)))
                     (snd (setTimeout (CbNextWave l n) d now w))).
Proof.
  intros E (Hd & Hl & Hw). unfold timersOk, setTimeout.
  cbn [snd timers nextTimer refs upd_refs set_refs set_nextTimer set_timers
       waveTimeoutRef set_waveTimeoutRef].
  split; [| split].
  - rewrite map_app. cbn [map handle]. apply NoDup_app.
    split; [exact Hd | split; [| apply NoDup_singleton]].
    intros h Hin Hh. apply list_elem_of_singleton in Hh. subst h.
    apply (list_elem_of_fmap) in Hin as (t & E' & Hin).
    rewrite Forall_forall in Hl. specialize (Hl t Hin). lia.
  - apply Forall_app. split.
    + eapply Forall_impl; [exact Hl |]. intros t Ht. cbn beta in *. lia.
    + apply Forall_singleton. cbn [handle]. lia.
  - apply Forall_app. split.
    + eapply Forall_impl; [exact Hw |]. cbn beta. intros t Ht Hn.
      specialize (Ht Hn). rewrite E in Ht. discriminate.
    + apply Forall_singleton. reflexivity.
Qed.


(** *** The primitive operations *)

Lemma wellFormed_upd_loop f w :
  (forall l, player (f l) = player l) ->
  wellFormed w -> wellFormed (upd_loop f w).
Proof.
  intros Hf (A & B & C). split; [exact A | split; [| exact C]].
  cbn [loop upd_loop set_loop]. rewrite Hf. exact B.
Qed.

Lemma wellFormed_updPlayer f w :
  (forall p, playerOk p -> playerOk (f p)) ->
  wellFormed w -> wellFormed (updPlayer f w).
Proof.
  intros Hf (A & B & C). split; [exact A | split; [| exact C]].
  apply Hf, B.
Qed.

Lemma wellFormed_set_loop l w :
  playerOk (player l) -> wellFormed w -> wellFormed (set_loop l w).
Proof.
  intros Hl (A & B & C). split; [exact A | split; [exact Hl | exact C]].
Qed.

Lemma wellFormed_upd_ui f w : wellFormed w -> wellFormed (upd_ui f w).
Proof. exact id. Qed.

Lemma wellFormed_set_rng r w : wellFormed w -> wellFormed (set_rng r w).
Proof. exact id. Qed.

Lemma wellFormed_set_nextObject n w :
  wellFormed w -> wellFormed (set_nextObject n w).
Proof. exact id. Qed.

Lemma wellFormed_set_savedLevel o w :
  wellFormed w -> wellFormed (set_savedLevel o w).
Proof. exact id. Qed.

Lemma wellFormed_set_rendered g w :
  wellFormed w -> wellFormed (set_rendered g w).
Proof. exact id. Qed.

Lemma wellFormed_set_renderedUi u w :
  wellFormed w -> wellFormed (set_renderedUi u w).
Proof. exact id. Qed.

Lemma wellFormed_set_observerState g w :
  wellFormed w -> wellFormed (set_observerState g w).
Proof. exact id. Qed.

Lemma wellFormed_upd_refs f w :
  (forall r, waveTimeoutRef (f r) = waveTimeoutRef r) ->
  wellFormed w -> wellFormed (upd_refs f w).
Proof.
  intros Hf (A & B & C). split; [exact A | split; [exact B |]].
  revert C. apply timersOk_same; try reflexivity.
  cbn [refs upd_refs set_refs]. apply Hf.
Qed.

Lemma wellFormed_setGameState f w :
  (forall g, stateOk g -> stateOk (f g)) ->
  wellFormed w -> wellFormed (setGameState f w).
Proof.
  intros Hf (A & B & C). split; [apply Hf, A | split; [exact B | exact C]].
Qed.

Lemma wellFormed_setTimeout cb d now w :
  isNextWave cb = false ->
  wellFormed w -> wellFormed (snd (setTimeout cb d now w)).
Proof.
  intros Hcb (A & B & C). split; [exact A | split; [exact B |]].
  apply timersOk_setTimeout; assumption.
Qed.

Lemma wellFormed_clearTimeout id w :
  wellFormed w -> wellFormed (clearTimeout id w).
Proof.
  intros (A & B & C). split; [exact A | split; [exact B |]].
  apply timersOk_clearTimeout, C.
Qed.

Lemma wellFormed_forget w :
  wellFormed w ->
  wellFormed match waveTimeoutRef (refs w) with
             | Some id => upd_refs (set_waveTimeoutRef None) (clearTimeout id w)
             | None => w
             end.
Proof.
  intros (A & B & C).
  split; [| split; [| apply timersOk_forget, C]];
    destruct (waveTimeoutRef (refs w)); assumption.
Qed.

Lemma wellFormed_arm l n d now w :
  waveTimeoutRef (refs w) = None ->
  wellFormed w ->
  wellFormed (upd_refs (set_waveTimeoutRef (Some (nextTimer w)))
                       (snd (setTimeout (CbNextWave l n) d now w))).
Proof.
  intros E (A & B & C). split; [exact A | split; [exact B |]].
  apply timersOk_arm; assumption.
Qed.

Lemma wellFormed_snd {A : Type} (a : A) (w : World) :
  wellFormed w -> wellFormed (snd (a, w)).
Proof. exact id. Qed.

Lemma setTimeout_pair cb d now w :
  setTimeout cb d now w = (nextTimer w, snd (setTimeout cb d now w)).
Proof. reflexivity. Qed.

(** *** The updaters of the game state *)

Ltac stateOk_tac :=
  try match goal with
      | H : stateOk _ |- _ => destruct H as (? & ? & ?)
      end;
  repeat match goal with
         | |- context [if ?c then _ else _] => destruct c
         end;
  unfold stateOk, INITIAL_HEALTH in *;
  cbn [score health set_score set_health set_isGameOver set_victory
       set_level set_isPaused];
  split; [| split];
  first [ assumption | lia | apply Z.divide_0_r
        | apply Z.divide_add_r; [assumption | now exists 1%Z]
        | apply Z.divide_add_r; [assumption | now exists 10%Z] ].

Lemma stateOk_initial : stateOk initialGameState.
Proof.
  split; [| split];
    [vm_compute; discriminate | now exists 0%Z | vm_compute; discriminate].
Qed.

Create HintDb wf discriminated.

#[local] Hint Resolve
  wellFormed_upd_loop wellFormed_updPlayer wellFormed_upd_ui
  wellFormed_set_rng wellFormed_set_nextObject wellFormed_set_savedLevel
  wellFormed_set_rendered wellFormed_set_renderedUi
  wellFormed_set_observerState wellFormed_upd_refs wellFormed_setGameState
  wellFormed_setTimeout wellFormed_clearTimeout wellFormed_forget
  wellFormed_snd
  PlayerProps.inField_moveLeft PlayerProps.inField_moveRight
  PlayerProps.inField_moveUp PlayerProps.inField_moveDown
  PlayerProps.playerOk_update PlayerProps.playerOk_activatePowerUp
  PlayerProps.playerOk_makeInvulnerable : wf.

#[local] Hint Extern 1 (_ = _) => reflexivity : wf.
#[local] Hint Extern 1 (stateOk _) => solve [stateOk_tac] : wf.
#[local] Hint Extern 2 (wellFormed (forEach _ _ _)) =>
  apply (forEach_invariant _ _ wellFormed); [intros ? ? ? ? |] : wf.
#[local] Hint Extern 2 (wellFormed (forUp _ _ _)) =>
  apply (forUp_invariant _ wellFormed); [intros ? ? ? |] : wf.
#[local] Hint Extern 2 (wellFormed (forDown _ _ _)) =>
  apply (forDown_invariant _ wellFormed); [intros ? ? ? |] : wf.
#[local] Hint Extern 3 (wellFormed (let '(_, _) := setTimeout ?cb ?d ?now ?w in _)) =>
  rewrite (setTimeout_pair cb d now w) : wf.
#[local] Hint Extern 4 (wellFormed (if ?c then _ else _)) => destruct c : wf.
#[local] Hint Extern 4 (wellFormed (match ?o with Some _ => _ | None => _ end)) =>
  destruct o : wf.
#[local] Hint Extern 5 (wellFormed (let '(_, _) := ?e in _)) => destruct e : wf.
#[local] Hint Extern 4 (wellFormed (snd (if ?c then _ else _))) => destruct c : wf.
#[local] Hint Extern 4 (wellFormed (snd (match ?o with Some _ => _ | None => _ end))) =>
  destruct o : wf.
#[local] Hint Extern 5 (wellFormed (snd (let '(_, _) := ?e in _))) => destruct e : wf.

Ltac wf := auto 80 with wf nocore.

Section WithRuntime.
Context {rt : Runtime}.

Lemma wellFormed_pushParticle x y c w :
  wellFormed w -> wellFormed (pushParticle x y c w).
Proof. intros H. unfold pushParticle. wf. Qed.
#[local] Hint Resolve wellFormed_pushParticle : wf.

Lemma wellFormed_createExplosion x y c w :
  wellFormed w -> wellFormed (createExplosion x y c w).
Proof. intros H. unfold createExplosion. wf. Qed.
#[local] Hint Resolve wellFormed_createExplosion : wf.

Lemma wellFormed_createGIFExplosion x y ty now w :
  wellFormed w -> wellFormed (createGIFExplosion x y ty now w).
Proof.
  intros H. unfold createGIFExplosion.
  destruct (match ty with ExPlayer => _ | ExTankEnemy => _ | ExRegularEnemy => _ end)
    as [[e delay] r].
  wf.
Qed.
#[local] Hint Resolve wellFormed_createGIFExplosion : wf.

#[local] Opaque createExplosion createGIFExplosion.

Lemma wellFormed_playerShoots now w :
  wellFormed w -> wellFormed (playerShoots now w).
Proof. intros H. unfold playerShoots. cbv zeta. wf. Qed.
#[local] Hint Resolve wellFormed_playerShoots : wf.

Lemma wellFormed_handlePlayerMovement now w :
  wellFormed w -> wellFormed (handlePlayerMovement now w).
Proof. intros H. unfold handlePlayerMovement. cbv zeta. wf. Qed.
#[local] Hint Resolve wellFormed_handlePlayerMovement : wf.

Lemma wellFormed_handleLevelComplete now n w :
  wellFormed w -> wellFormed (handleLevelComplete now n w).
Proof. intros H. unfold handleLevelComplete, saveGameProgress. cbv zeta. wf. Qed.
#[local] Hint Resolve wellFormed_handleLevelComplete : wf.

Lemma wellFormed_checkForLevelCompletion now w :
  wellFormed w -> wellFormed (checkForLevelCompletion now w).
Proof. intros H. unfold checkForLevelCompletion. cbv zeta. wf. Qed.
#[local] Hint Resolve wellFormed_checkForLevelCompletion : wf.

Lemma wellFormed_enemyStep now e i w :
  wellFormed w -> wellFormed (enemyStep now e i w).
Proof. intros H. unfold enemyStep. wf. Qed.
#[local] Hint Resolve wellFormed_enemyStep : wf.

Lemma wellFormed_powerUpStep now p i w :
  wellFormed w -> wellFormed (powerUpStep now p i w).
Proof. intros H. unfold powerUpStep. cbv zeta. wf. Qed.
#[local] Hint Resolve wellFormed_powerUpStep : wf.

Lemma wellFormed_explosionStep now i w :
  wellFormed w -> wellFormed (snd (explosionStep now i w)).
Proof. intros H. unfold explosionStep. cbv zeta. wf. Qed.
#[local] Hint Resolve wellFormed_explosionStep : wf.

Lemma wellFormed_particleStep p i w :
  wellFormed w -> wellFormed (particleStep p i w).
Proof. intros H. unfold particleStep. cbv zeta. wf. Qed.
#[local] Hint Resolve wellFormed_particleStep : wf.

Lemma wellFormed_spliceBullet i w :
  wellFormed w -> wellFormed (spliceBullet i w).
Proof. intros H. unfold spliceBullet. wf. Qed.
#[local] Hint Resolve wellFormed_spliceBullet : wf.

Lemma wellFormed_bulletHitsBullet pb k eb j w :
  wellFormed w -> wellFormed (bulletHitsBullet pb k eb j w).
Proof. intros H. unfold bulletHitsBullet. cbv zeta. wf. Qed.
#[local] Hint Resolve wellFormed_bulletHitsBullet : wf.

Lemma wellFormed_bulletVsEnemy now pb k i w :
  wellFormed w -> wellFormed (snd (bulletVsEnemy now pb k i w)).
Proof. intros H. unfold bulletVsEnemy. cbv zeta. wf. Qed.
#[local] Hint Resolve wellFormed_bulletVsEnemy : wf.

Lemma wellFormed_enemyBulletHitsPlayer now k w :
  wellFormed w -> wellFormed (enemyBulletHitsPlayer now k w).
Proof. intros H. unfold enemyBulletHitsPlayer. cbv zeta. wf. Qed.
#[local] Hint Resolve wellFormed_enemyBulletHitsPlayer : wf.

Lemma wellFormed_playerBulletStep now pb k w :
  wellFormed w -> wellFormed (playerBulletStep now pb k w).
Proof. intros H. unfold playerBulletStep. wf. Qed.
#[local] Hint Resolve wellFormed_playerBulletStep : wf.

Lemma wellFormed_bulletStep now pb k w :
  wellFormed w -> wellFormed (bulletStep now pb k w).
Proof. intros H. unfold bulletStep. cbv zeta. wf. Qed.
#[local] Hint Resolve wellFormed_bulletStep : wf.

Lemma wellFormed_frame now w : wellFormed w -> wellFormed (frame now w).
Proof. intros H. unfold frame. cbv zeta. wf. Qed.
#[local] Hint Resolve wellFormed_frame : wf.

Lemma wellFormed_gameLoop now w : wellFormed w -> wellFormed (gameLoop now w).
Proof. intros H. unfold gameLoop. cbv zeta. wf. Qed.
#[local] Hint Resolve wellFormed_gameLoop : wf.

(** *** The waves *)

Lemma wellFormed_spawnEnemy col row level total w :
  wellFormed w -> wellFormed (spawnEnemy col row level total w).
Proof.
  intros H. unfold spawnEnemy, random. cbv beta iota zeta.
  destruct (divingEnemies _); [destruct (Qltb _ 0.2) |];
    cbv beta iota zeta; wf.
Qed.
#[local] Hint Resolve wellFormed_spawnEnemy : wf.

#[local] Opaque spawnEnemy.

Lemma wellFormed_diamondRow enemyCount startRow level diamondSize row st :
  wellFormed (snd st) ->
  wellFormed (snd (diamondRow enemyCount startRow level diamondSize row st)).
Proof.
  intros H. unfold diamondRow. cbv zeta.
  apply (forUp_invariant _ (fun st => wellFormed (snd st))); [| exact H].
  intros i [diamondIndex w] Hw. cbn [snd] in Hw. wf.
Qed.

Lemma wellFormed_createFormation formation enemyCount startRow level w :
  wellFormed w ->
  wellFormed (createFormation formation enemyCount startRow level w).
Proof.
  intros H. unfold createFormation, random. cbv zeta.
  apply wellFormed_setGameState; [intros g Hg; exact Hg |].
  destruct formation; wf.
  apply (forUp_invariant _ (fun st => wellFormed (snd st))); [| exact H].
  intros i st. apply wellFormed_diamondRow.
Qed.
#[local] Hint Resolve wellFormed_createFormation : wf.

Lemma wellFormed_chooseFormation level w :
  wellFormed w -> wellFormed (snd (chooseFormation level w)).
Proof. intros H. unfold chooseFormation, random. cbv zeta. wf. Qed.

Lemma waveTimeoutRef_chooseFormation level w :
  waveTimeoutRef (refs (snd (chooseFormation level w))) = waveTimeoutRef (refs w).
Proof.
  unfold chooseFormation, random. cbv zeta.
  destruct (_ =? 0)%Z; [destruct (_ =? 1)%Z |]; reflexivity.
Qed.

Lemma wellFormed_spawnEnemyWave now level waveNumber w :
  wellFormed w -> wellFormed (spawnEnemyWave now level waveNumber w).
Proof.
  intros H. unfold spawnEnemyWave. cbv zeta.
  destruct (_ <=? waveNumber)%Z; [wf |].
  generalize (wellFormed_chooseFormation level
                (upd_refs (set_currentWaveRef waveNumber) w)
                ltac:(wf)).
  destruct (chooseFormation level (upd_refs (set_currentWaveRef waveNumber) w))
    as [formationType w1].
  cbn [snd]. intros H1.
  destruct (waveNumber <? _)%Z; [| wf].
  match goal with
  | |- context [createFormation ?f ?n ?r ?l w1] =>
      generalize (wellFormed_createFormation f n r l w1 H1);
      generalize (createFormation f n r l w1)
  end.
  intros w2 H2.
  rewrite setTimeout_pair.
  apply wellFormed_arm; [apply forget_waveTimeoutRef | wf].
Qed.
#[local] Hint Resolve wellFormed_spawnEnemyWave : wf.

#[local] Opaque spawnEnemyWave.

Lemma wellFormed_initializeLevel now level w :
  wellFormed w -> wellFormed (initializeLevel now level w).
Proof. intros H. unfold initializeLevel. cbv zeta. wf. Qed.
#[local] Hint Resolve wellFormed_initializeLevel : wf.

Lemma wellFormed_startNewGame now w :
  wellFormed w -> wellFormed (startNewGame now w).
Proof. intros H. unfold startNewGame, clearGameProgress. cbv zeta. wf. Qed.
#[local] Hint Resolve wellFormed_startNewGame : wf.

Lemma wellFormed_newGameStart now closure w :
  wellFormed w -> wellFormed (newGameStart now closure w).
Proof. intros H. unfold newGameStart. cbv zeta. wf. Qed.
#[local] Hint Resolve wellFormed_newGameStart : wf.

(** *** Timer callbacks, effects and events *)

Lemma wellFormed_runCallback now cb w :
  wellFormed w -> wellFormed (runCallback now cb w).
Proof.
  intros H. unfold runCallback, explosionRemove. cbv zeta.
  destruct cb; wf.
Qed.
#[local] Hint Resolve wellFormed_runCallback : wf.

Lemma wellFormed_fireTimer now id w :
  wellFormed w -> wellFormed (fireTimer now id w).
Proof. intros H. unfold fireTimer. wf. Qed.
#[local] Hint Resolve wellFormed_fireTimer : wf.

Lemma wellFormed_observerTick now w :
  wellFormed w -> wellFormed (observerTick now w).
Proof. intros H. unfold observerTick. cbv zeta. wf. Qed.
#[local] Hint Resolve wellFormed_observerTick : wf.

Lemma wellFormed_mainEffect now w :
  wellFormed w -> wellFormed (mainEffect now w).
Proof.
  intros H. unfold mainEffect. cbv zeta.
  rewrite setTimeout_pair.
  apply wellFormed_initializeLevel, wellFormed_gameLoop.
  apply wellFormed_upd_refs; [reflexivity |].
  apply wellFormed_setTimeout; [reflexivity |].
  apply wellFormed_initializeLevel.
  apply wellFormed_upd_refs; [reflexivity |].
  apply wellFormed_upd_refs; [reflexivity |].
  apply wellFormed_forget.
  apply wellFormed_set_loop; [apply PlayerProps.playerOk_new | exact H].
Qed.
#[local] Hint Resolve wellFormed_mainEffect : wf.

Lemma wellFormed_mainEffectCleanup w :
  wellFormed w -> wellFormed (mainEffectCleanup w).
Proof. intros H. unfold mainEffectCleanup. cbv zeta. wf. Qed.
#[local] Hint Resolve wellFormed_mainEffectCleanup : wf.

Lemma wellFormed_gameOverEffect now w :
  wellFormed w -> wellFormed (gameOverEffect now w).
Proof. intros H. unfold gameOverEffect. cbv zeta. wf. Qed.
#[local] Hint Resolve wellFormed_gameOverEffect : wf.

Lemma wellFormed_gameOverEffectCleanup w :
  wellFormed w -> wellFormed (gameOverEffectCleanup w).
Proof. intros H. unfold gameOverEffectCleanup. wf. Qed.
#[local] Hint Resolve wellFormed_gameOverEffectCleanup : wf.

#[local] Opaque mainEffect mainEffectCleanup gameOverEffect
  gameOverEffectCleanup gameLoop initializeLevel.

Lemma wellFormed_render now w : wellFormed w -> wellFormed (render now w).
Proof.
  intros H. unfold render, difficultyEffect. cbv zeta.
  generalize (wellFormed_set_renderedUi (ui w) _
                (wellFormed_set_rendered (gameState w) _ H)).
  generalize (set_renderedUi (ui w) (set_rendered (gameState w) w)).
  intros w1 H1.
  destruct (negb (level (rendered w) =? level (gameState w))%Z);
    destruct (negb (Bool.eqb (isPaused (rendered w)) (isPaused (gameState w))));
    destruct (negb (Bool.eqb (isGameOver (rendered w)) (isGameOver (gameState w))));
    destruct (negb (Bool.eqb (victory (rendered w)) (victory (gameState w))));
    destruct (negb (Ui_inputs_eqb (renderedUi w) (ui w)));
    cbn [orb]; wf.
Qed.

Lemma wellFormed_mount now : wellFormed (mount now).
Proof.
  unfold mount, difficultyEffect, clearGameProgress. cbv zeta.
  rewrite setTimeout_pair.
  apply wellFormed_gameOverEffect, wellFormed_set_observerState,
    wellFormed_mainEffect.
  repeat lazymatch goal with
         | |- wellFormed (upd_refs _ _) =>
             apply wellFormed_upd_refs; [intros; reflexivity |]
         | |- wellFormed (setGameState _ _) =>
             apply wellFormed_setGameState; [intros g Hg; solve [stateOk_tac] |]
         | |- wellFormed (set_savedLevel _ _) => apply wellFormed_set_savedLevel
         | |- wellFormed (snd (setTimeout _ _ _ _)) =>
             apply wellFormed_setTimeout; [reflexivity |]
         end.
  split; [exact stateOk_initial | split; [apply PlayerProps.playerOk_new |]].
  split; [apply NoDup_nil_2 | split; apply Forall_nil_2].
Qed.

Lemma wellFormed_step ev w : wellFormed w -> wellFormed (step ev w).
Proof.
  intros H. unfold step, togglePause.
  destruct ev; wf. apply wellFormed_render, H.
Qed.

Lemma wellFormed_run evs :
  forall w, wellFormed w -> wellFormed (run evs w).
Proof.
  induction evs as [| ev evs IH]; intros w H; [exact H |].
  apply IH, wellFormed_step, H.
Qed.

Lemma wellFormed_reachable now evs : wellFormed (run evs (mount now)).
Proof. apply wellFormed_run, wellFormed_mount. Qed.


(** X25: whatever events the mounted component has handled, the score is a
    multiple of 10 that is not negative and the health is at most the
    initial health of 3. *)
Theorem score_and_health_bounds (now : Z) (evs : list Event) :
  (0 <= score (gameState (run evs (mount now))))%Z
  /\ (10 | score (gameState (run evs (mount now))))%Z
  /\ (health (gameState (run evs (mount now))) <= INITIAL_HEALTH)%Z.
Proof. apply (wellFormed_reachable now evs). Qed.

(** X26: whatever events the mounted component has handled, the box of the
    player lies within the field of 800 by 600 and the player's speed is
    not negative. *)
Theorem player_stays_in_field (now : Z) (evs : list Event) :
  inField (player (loop (run evs (mount now))))
  /\ 0 <= Player.speed (player (loop (run evs (mount now)))).
Proof.
  destruct (wellFormed_reachable now evs) as (_ & (Hf & Hs & _) & _).
  split; assumption.
Qed.

End WithRuntime.

End ReachableProps.

(** ** The runs of the main effect *)

Module RestartProps.

Section WithRuntime.
Context {rt : Runtime}.

(** *** The first wave after the mount *)





#[local] Opaque spawnEnemy.




#[local] Opaque spawnEnemyWave.


(** *** A render that finds an input of the main effect changed *)

Lemma initializeLevel_resets (now level : Z) (w : World) :
  enemiesRef (refs (initializeLevel now level w)) = []
  /\ currentWaveRef (refs (initializeLevel now level w)) = 0%Z
  /\ difficultyConfigRef (refs (initializeLevel now level w))
     = getDifficultyConfig level
  /\ victory (gameState (initializeLevel now level w)) = false.
Proof.
  unfold initializeLevel. cbv zeta.
  destruct (waveTimeoutRef (refs w)); repeat split.
Qed.

#[local] Opaque initializeLevel gameLoop.

Lemma mainEffect_resets (now : Z) (w : World) :
  enemiesRef (refs (mainEffect now w)) = []
  /\ currentWaveRef (refs (mainEffect now w)) = 0%Z
  /\ difficultyConfigRef (refs (mainEffect now w))
     = getDifficultyConfig (level (rendered w))
  /\ victory (gameState (mainEffect now w)) = false.
Proof.
  unfold mainEffect. cbv zeta.
  rewrite ReachableProps.setTimeout_pair.
  apply initializeLevel_resets.
Qed.

#[local] Opaque mainEffect.

Lemma gameOverEffect_keeps (now : Z) (w : World) :
  enemiesRef (refs (gameOverEffect now w)) = enemiesRef (refs w)
  /\ currentWaveRef (refs (gameOverEffect now w)) = currentWaveRef (refs w)
  /\ difficultyConfigRef (refs (gameOverEffect now w))
     = difficultyConfigRef (refs w)
  /\ victory (gameState (gameOverEffect now w)) = victory (gameState w).
Proof.
  unfold gameOverEffect.
  destruct (isGameOver (rendered w)); [| repeat split].
  destruct (gameOverTimeoutRef (refs w)); repeat split.
Qed.

Lemma rendered_mainEffectCleanup (w : World) :
  rendered (mainEffectCleanup w) = rendered w.
Proof.
  unfold mainEffectCleanup. cbv zeta.
  repeat match goal with
         | |- context [match ?o with Some _ => _ | None => _ end] => destruct o
         end; reflexivity.
Qed.

Lemma rendered_gameOverEffectCleanup (w : World) :
  rendered (gameOverEffectCleanup w) = rendered w.
Proof.
  unfold gameOverEffectCleanup. destruct (gameOverTimeoutRef (refs w)); reflexivity.
Qed.

(** X28: a render that finds the level, the pause flag, the game-over flag or
    one of the touch inputs changed since the previous render runs the main
    effect again, and that restarts the level: the enemies are discarded,
    the wave counter is back to 0, the configuration is that of the current
    level and [victory] is off. *)
Theorem changed_input_restarts_level (now : Z) (w : World) :
  level (gameState w) <> level (rendered w)
  \/ isPaused (gameState w) <> isPaused (rendered w)
  \/ isGameOver (gameState w) <> isGameOver (rendered w)
  \/ Ui_inputs_eqb (renderedUi w) (ui w) = false ->
  enemiesRef (refs (render now w)) = []
  /\ currentWaveRef (refs (render now w)) = 0%Z
  /\ difficultyConfigRef (refs (render now w))
     = getDifficultyConfig (level (gameState w))
  /\ victory (gameState (render now w)) = false.
Proof.
  intros H. unfold render. cbv zeta.
  assert (M : negb (level (rendered w) =? level (gameState w))%Z
              || negb (Bool.eqb (isPaused (rendered w)) (isPaused (gameState w)))
              || negb (Bool.eqb (isGameOver (rendered w)) (isGameOver (gameState w)))
              || negb (Ui_inputs_eqb (renderedUi w) (ui w)) = true).
  { destruct (Z.eqb_spec (level (rendered w)) (level (gameState w))) as [El | El];
      [| reflexivity].
    destruct (Bool.eqb (isPaused (rendered w)) (isPaused (gameState w))) eqn:Ep;
      [| reflexivity].
    destruct (Bool.eqb (isGameOver (rendered w)) (isGameOver (gameState w))) eqn:Eg;
      [| reflexivity].
    apply Bool.eqb_prop in Ep, Eg.
    destruct H as [H | [H | [H | H]]]; try congruence.
    rewrite H. reflexivity. }
  rewrite M.
  set (lc := negb (level (rendered w) =? level (gameState w))%Z).
  set (gc := negb (Bool.eqb (isGameOver (rendered w)) (isGameOver (gameState w)))).
  set (oc := lc || _ || gc || _).
  match goal with
  | |- context [mainEffect now ?v] =>
      assert (R : level (rendered v) = level (gameState w))
        by (destruct lc, gc; unfold difficultyEffect;
            cbn [rendered upd_refs set_refs];
            rewrite ?rendered_gameOverEffectCleanup, ?rendered_mainEffectCleanup;
            reflexivity);
      generalize (mainEffect_resets now v); rewrite R;
      generalize (mainEffect now v)
  end.
  intros w1 (A & B & C & D).
  destruct gc.
  - destruct (gameOverEffect_keeps now (if oc then set_observerState (gameState w) w1 else w1))
      as (A' & B' & C' & D').
    rewrite A', B', C', D'. destruct oc; repeat split; assumption.
  - destruct oc; repeat split; assumption.
Qed.

End WithRuntime.


(** The theorem on the render that follows a press of Escape in a freshly
    mounted game. *)
Lemma changed_input_restarts_level_witness :
  let rt := constantRuntime 0.5 in
  let w := step (EvKeyDown "Escape") (mount 0) in
  enemiesRef (refs (render 16 w)) = []
  /\ currentWaveRef (refs (render 16 w)) = 0%Z
  /\ difficultyConfigRef (refs (render 16 w))
     = getDifficultyConfig (level (gameState w))
  /\ victory (gameState (render 16 w)) = false.
Proof.
  cbv zeta.
  apply (changed_input_restarts_level (rt := constantRuntime 0.5) 16
           (step (EvKeyDown "Escape") (mount (rt := constantRuntime 0.5) 0))).
  right. left. vm_compute. discriminate.
Defined.

End RestartProps.
